(** * es2ts and tsfilter: converting and filtering MPEG transport streams

    A shallow embedding of two programs of mts-utils and of the header
    they print through: the [es2ts] converter (the program text of
    [main], [transfer_data] and [write_ES_unit_as_TS]), the [tsfilter]
    PID filter (its [main] and [ensurePidList]) and the print redirection
    table of [printing.h], together with the properties stated about
    them.

    Bytes and C integers are modelled as [Z]; byte strings as [list Z].
    The continuity counter table of the TS writer is a [gmap Z Z]. *)

From Stdlib Require Import ZArith Lia List String Ascii Bool.
From stdpp Require Import base option list gmap strings.

Local Open Scope Z_scope.

(* ===================================================================== *)
(** * printing.h: the table of printing functions *)
(* ===================================================================== *)

Module Printing.

(** The two standard streams messages can be written to. *)
Inductive stream := Stdout | Stderr.

(** An argument of a printf-style call. *)
Inductive arg :=
| AInt (z : Z)
| AStr (s : string).

(** One call of [fputs] or [vfprintf]: the stream, the text or format
    and the variadic arguments (none for [fputs]). *)
Record line := Line {
  l_stream : stream;
  l_format : string;
  l_args : list arg
}.

(** What has been printed so far, oldest first. *)
Definition console := list line.

(** The three function types of [struct print_fns]. *)
Definition msg_fn := string -> console -> console.
Definition fmt_fn := string -> list arg -> console -> console.
Definition flush_fn := console -> console.

(** A C function pointer: [None] is [nullptr]. *)
Definition fnptr (F : Type) := option F.

(** ** Default printing functions ([DEBUG] is 0) *)

Definition print_message_to_stdout : msg_fn :=
  fun message c => c ++ [Line Stdout message []].
Definition print_message_to_stderr : msg_fn :=
  fun message c => c ++ [Line Stderr message []].
Definition fprint_message_to_stdout : fmt_fn :=
  fun format arg_ptr c => c ++ [Line Stdout format arg_ptr].
Definition fprint_message_to_stderr : fmt_fn :=
  fun format arg_ptr c => c ++ [Line Stderr format arg_ptr].
Definition flush_stdout : flush_fn := fun c => c.

(** [struct print_fns] *)
Record print_fns := PrintFns {
  print_message_fn : fnptr msg_fn;
  print_error_fn : fnptr msg_fn;
  fprint_message_fn : fnptr fmt_fn;
  fprint_error_fn : fnptr fmt_fn;
  flush_message_fn : fnptr flush_fn
}.

(** The initial value of the static [fns]: everything goes to stdout. *)
Definition fns_default : print_fns :=
  PrintFns (Some print_message_to_stdout) (Some print_message_to_stdout)
           (Some fprint_message_to_stdout) (Some fprint_message_to_stdout)
           (Some flush_stdout).

(** The process-wide printing state: the table and the console. *)
Record pstate := PState {
  fns : print_fns;
  shown : console
}.

(** Calling through a pointer of the table.  The table never holds a
    null pointer (see [redirect_output]); a call through one is left
    without effect here. *)
Definition call_msg (f : fnptr msg_fn) (text : string) (p : pstate) : pstate :=
  match f with
  | Some g => PState (fns p) (g text (shown p))
  | None => p
  end.

Definition call_fmt (f : fnptr fmt_fn) (format : string) (args : list arg)
    (p : pstate) : pstate :=
  match f with
  | Some g => PState (fns p) (g format args (shown p))
  | None => p
  end.

Definition print_msg (text : string) (p : pstate) : pstate :=
  call_msg (print_message_fn (fns p)) text p.

Definition print_err (text : string) (p : pstate) : pstate :=
  call_msg (print_error_fn (fns p)) text p.

Definition fprint_msg (format : string) (args : list arg) (p : pstate) : pstate :=
  call_fmt (fprint_message_fn (fns p)) format args p.

Definition fprint_err (format : string) (args : list arg) (p : pstate) : pstate :=
  call_fmt (fprint_error_fn (fns p)) format args p.

Definition fprint_msg_or_err (is_msg : bool) (format : string) (args : list arg)
    (p : pstate) : pstate :=
  if is_msg then call_fmt (fprint_message_fn (fns p)) format args p
  else call_fmt (fprint_error_fn (fns p)) format args p.

Definition flush_msg (p : pstate) : pstate :=
  match flush_message_fn (fns p) with
  | Some g => PState (fns p) (g (shown p))
  | None => p
  end.

(** ** Choosing what the printing functions do *)

Definition redirect_output_stderr (p : pstate) : pstate :=
  PState (PrintFns (Some print_message_to_stdout) (Some print_message_to_stderr)
                   (Some fprint_message_to_stdout) (Some fprint_message_to_stderr)
                   (Some flush_stdout))
         (shown p).

Definition redirect_output_stdout (p : pstate) : pstate :=
  PState (PrintFns (Some print_message_to_stdout) (Some print_message_to_stdout)
                   (Some fprint_message_to_stdout) (Some fprint_message_to_stdout)
                   (Some flush_stdout))
         (shown p).

Definition is_null {F} (f : fnptr F) : bool :=
  match f with None => true | Some _ => false end.

(** [redirect_output]: the returned integer and the table afterwards. *)
Definition redirect_output
    (new_print_message_fn new_print_error_fn : fnptr msg_fn)
    (new_fprint_message_fn new_fprint_error_fn : fnptr fmt_fn)
    (new_flush_msg_fn : fnptr flush_fn)
    (p : pstate) : Z * pstate :=
  if is_null new_print_message_fn || is_null new_print_error_fn
     || is_null new_fprint_message_fn || is_null new_fprint_error_fn
     || is_null new_flush_msg_fn
  then (1, p)
  else (0, PState (PrintFns new_print_message_fn new_print_error_fn
                            new_fprint_message_fn new_fprint_error_fn
                            new_flush_msg_fn)
                  (shown p)).

End Printing.

(* ===================================================================== *)
(** * h222.h: constants *)
(* ===================================================================== *)

Module H222.

(** Modelled from the spec: the stream type and stream id constants of
    [h222.h], which is not among the sources.  The spec gives
    H.262 -> 0x02, H.264 -> 0x1B, AVS -> 0x42 and stream_id 0xE0. *)
Definition MPEG2_VIDEO_STREAM_TYPE : Z := 0x02.
Definition AVC_VIDEO_STREAM_TYPE : Z := 0x1B.
Definition AVS_VIDEO_STREAM_TYPE : Z := 0x42.
Definition DEFAULT_VIDEO_STREAM_ID : Z := 0xE0.

(** Modelled from the spec: the video type codes of [es.h] (a tagged
    variant [{ H262, H264, AVS, Unknown }]). *)
Inductive video_type := VIDEO_UNKNOWN | VIDEO_H262 | VIDEO_H264 | VIDEO_AVS.

End H222.

(* ===================================================================== *)
(** * ts.cpp: PSI tables, PES packets, TS packets *)
(* ===================================================================== *)

Module TS.

Definition TS_PACKET_SIZE : nat := 188.
Definition TS_PAYLOAD_SIZE : nat := 184.

(** ** CRC-32/MPEG-2 *)

(** Modelled from the spec: the CRC of the PSI sections ([ts.cpp] is not
    among the sources).  Polynomial 0x04C11DB7, initial value 0xFFFFFFFF,
    no reflection, no final xor, MSB first. *)
Definition crc_shift (crc : Z) : Z :=
  if Z.testbit crc 31
  then Z.land (Z.lxor (Z.shiftl crc 1) 0x04C11DB7) 0xFFFFFFFF
  else Z.land (Z.shiftl crc 1) 0xFFFFFFFF.

(** Modelled from the spec: one byte enters the CRC at its top, MSB
    first. *)
Definition crc_byte (crc b : Z) : Z :=
  Nat.iter 8 crc_shift (Z.lxor crc (Z.shiftl b 24)).

(** Modelled from the spec: the CRC of a block, from the initial value
    0xFFFFFFFF. *)
Definition crc32_block (data : list Z) : Z :=
  fold_left crc_byte data 0xFFFFFFFF.

(** Big-endian bytes of a 32 bit and of a 16 bit value. *)
Definition be32 (v : Z) : list Z :=
  [Z.land (Z.shiftr v 24) 0xFF; Z.land (Z.shiftr v 16) 0xFF;
   Z.land (Z.shiftr v 8) 0xFF; Z.land v 0xFF].

Definition be16 (v : Z) : list Z :=
  [Z.land (Z.shiftr v 8) 0xFF; Z.land v 0xFF].

(** The 13 bits of a PID under three reserved bits set to 1. *)
Definition pid_field (pid : Z) : list Z :=
  [Z.lor 0xE0 (Z.land (Z.shiftr pid 8) 0x1F); Z.land pid 0xFF].

(** ** PAT and PMT sections *)

(** Modelled from the spec: the PAT section (table_id 0x00,
    section_syntax_indicator 1, section_length, transport_stream_id,
    version 0, current_next 1, section numbers 0, one
    (program_number, PMT_PID) entry, CRC over the section from table_id
    onward).  Reserved bits are set as H.222.0 prescribes. *)
Definition pat_section (transport_stream_id program_number pmt_pid : Z) : list Z :=
  let body :=
    [0x00; 0xB0; 0x0D] ++ be16 transport_stream_id ++ [0xC1; 0x00; 0x00]
    ++ be16 program_number ++ pid_field pmt_pid in
  body ++ be32 (crc32_block body).

(** Modelled from the spec: the PMT section (table_id 0x02,
    program_number, PCR_PID = the video PID, program_info_length 0, one
    entry (stream_type, elementary_PID, ES_info_length 0), CRC). *)
Definition pmt_section (program_number pid stream_type : Z) : list Z :=
  let body :=
    [0x02; 0xB0; 0x12] ++ be16 program_number ++ [0xC1; 0x00; 0x00]
    ++ pid_field pid ++ [0xF0; 0x00]
    ++ [Z.land stream_type 0xFF] ++ pid_field pid ++ [0xF0; 0x00] in
  body ++ be32 (crc32_block body).

(** ** TS packets *)

(** Modelled from the spec: the four header bytes of a TS packet:
    sync 0x47; TEI 0, PUSI, priority 0 and the high five PID bits; the low
    eight PID bits; scrambling 00, adaptation_field_control and the
    continuity counter. *)
Definition ts_header (pid : Z) (pusi : bool) (afc cc : Z) : list Z :=
  [0x47;
   Z.lor (if pusi then 0x40 else 0x00) (Z.land (Z.shiftr pid 8) 0x1F);
   Z.land pid 0xFF;
   Z.lor (Z.shiftl afc 4) (Z.land cc 0x0F)].

(** Modelled from the spec: the stuffing-only adaptation field put before
    [r < 184] payload bytes: adaptation_field_length [184 - r - 1], then,
    unless that length is 0, a flags byte 0x00 and 0xFF stuffing. *)
Definition adaptation_stuffing (r : nat) : list Z :=
  let afl := (TS_PAYLOAD_SIZE - r - 1)%nat in
  Z.of_nat afl ::
  match afl with
  | O => []
  | S n => 0x00 :: repeat 0xFF n
  end.

(** Modelled from the spec: one TS packet around at most 184 payload
    bytes: adaptation_field_control 01 when they fill the packet, 11 with
    a stuffing adaptation field otherwise. *)
Definition ts_packet (pid : Z) (pusi : bool) (cc : Z) (payload : list Z) : list Z :=
  if (length payload =? TS_PAYLOAD_SIZE)%nat
  then ts_header pid pusi 1 cc ++ payload
  else ts_header pid pusi 3 cc ++ adaptation_stuffing (length payload) ++ payload.

(** ** The TS writer *)

(** Modelled from the spec: the output context [TS_writer] of [tswrite.h]
    (not among the sources), as far as the packetizer needs it: the packets
    committed to the sink (oldest first), the continuity counter table
    (PID to a 4 bit counter, 0 where nothing is recorded), and how many
    more packets the sink accepts before a write fails ([None]: no
    limit). *)
Record TS_writer := TSWriter {
  written : list (list Z);
  continuity : gmap Z Z;
  room : option nat
}.

(** Modelled from the spec: the writer [tswrite_open] gives for a freshly
    opened sink: nothing written, every counter at 0. *)
Definition tswrite_fresh (limit : option nat) : TS_writer :=
  TSWriter [] ∅ limit.

(** The bytes the sink has received. *)
Definition sink_bytes (w : TS_writer) : list Z := concat (written w).

Definition next_cc (w : TS_writer) (pid : Z) : Z :=
  default 0 (continuity w !! pid).

(** Modelled from the spec: commit one packet to the sink.  Either the
    complete 188 byte packet is written and the continuity counter of the
    PID advances modulo 16, or the write fails (1) and nothing changes. *)
Definition write_TS_packet (w : TS_writer) (pid : Z) (pusi : bool)
    (payload : list Z) : Z * TS_writer :=
  match room w with
  | Some O => (1, w)
  | _ =>
    let cc := next_cc w pid in
    (0, TSWriter (written w ++ [ts_packet pid pusi cc payload])
                 (<[pid := (cc + 1) mod 16]> (continuity w))
                 (Nat.pred <$> room w))
  end.

(** Modelled from the spec: cutting a byte sequence into pieces of [n]
    bytes, the last of which may be shorter; [fuel] bounds the number of
    pieces ([fragments_concat] shows that none is lost). *)
Fixpoint pieces (fuel n : nat) (l : list Z) : list (list Z) :=
  match fuel with
  | O => []
  | S fuel' =>
    match l with
    | [] => []
    | _ => take n l :: pieces fuel' n (drop n l)
    end
  end.

(** Modelled from the spec: the payloads of the TS packets of one payload
    unit, 184 bytes each but for the last. *)
Definition fragments (l : list Z) : list (list Z) :=
  pieces (length l) TS_PAYLOAD_SIZE l.

(** Modelled from the spec: the fragments of one payload unit are written
    in order, PUSI on the first; the first failing write ends it. *)
Fixpoint write_fragments (w : TS_writer) (pid : Z) (first : bool)
    (frags : list (list Z)) : Z * TS_writer :=
  match frags with
  | [] => (0, w)
  | f :: rest =>
    let '(err, w') := write_TS_packet w pid first f in
    if err =? 0 then write_fragments w' pid false rest else (err, w')
  end.

(** Modelled from the spec: the TS packetizer fragments a byte sequence
    into 188 byte packets on a PID, PUSI=1 on the first only. *)
Definition write_TS_payload (w : TS_writer) (pid : Z) (bytes : list Z)
    : Z * TS_writer :=
  write_fragments w pid true (fragments bytes).

(** Modelled from the spec: a PSI section goes into a single TS packet,
    PUSI=1, with a pointer_field of 0 before the section. *)
Definition write_section (w : TS_writer) (pid : Z) (section : list Z)
    : Z * TS_writer :=
  write_TS_payload w pid (0x00 :: section).

(** Modelled from the spec: [write_TS_program_data] emits the PAT on
    PID 0, then the PMT on [pmt_pid]. *)
Definition write_TS_program_data (w : TS_writer)
    (transport_stream_id program_number pmt_pid pid stream_type : Z)
    : Z * TS_writer :=
  let '(err, w1) :=
    write_section w 0 (pat_section transport_stream_id program_number pmt_pid) in
  if err =? 0
  then write_section w1 pmt_pid (pmt_section program_number pid stream_type)
  else (err, w1).

(** ** PES packets *)

(** Modelled from the spec: the PES header written before an ES unit of
    [data_len] bytes: start code prefix, stream_id, PES_packet_length
    (the unit length plus the three header bytes that follow the length
    field, or 0 when that exceeds 65535), flags 0x80 and 0x00, and
    PES_header_data_length 0. *)
Definition PES_header (stream_id : Z) (data_len : nat) : list Z :=
  let n := Z.of_nat data_len + 3 in
  let PES_packet_length := if n <=? 65535 then n else 0 in
  [0x00; 0x00; 0x01; Z.land stream_id 0xFF] ++ be16 PES_packet_length
  ++ [0x80; 0x00; 0x00].

(** Modelled from the spec: [write_ES_as_TS_PES_packet] wraps [data_len]
    bytes of ES data in one PES packet and hands it to the packetizer. *)
Definition write_ES_as_TS_PES_packet (w : TS_writer) (data : list Z)
    (data_len : nat) (pid stream_id : Z) : Z * TS_writer :=
  write_TS_payload w pid (PES_header stream_id data_len ++ take data_len data).

End TS.

(* ===================================================================== *)
(** * es.cpp: reading ES units *)
(* ===================================================================== *)

Module ES.

(** Modelled from the spec: the stream context [ES] of [es.h] (not among
    the sources): the bytes not consumed yet and the offset of the first of
    them in the input. *)
Record ES := MkES {
  es_input : list Z;
  es_posn : Z
}.

(** Modelled from the spec: an ES data unit ([ES_unit] of [es.h]): its
    bytes (beginning 00 00 01 and the start code byte) and where it
    started.  [data_len] is the number of bytes of [data]. *)
Record ES_unit := MkUnit {
  data : list Z;
  start_posn : Z
}.

Definition data_len (unit : ES_unit) : nat := length (data unit).

Definition open_elementary_stream (bytes : list Z) : ES := MkES bytes 0.

(** Does the byte sequence begin with the start code prefix 00 00 01? *)
Definition at_prefix (l : list Z) : bool :=
  match l with
  | b0 :: b1 :: b2 :: _ => (b0 =? 0) && (b1 =? 0) && (b2 =? 1)
  | _ => false
  end.

(** Modelled from the spec: the start code scanner ([es.cpp] is not among
    the sources).  [before_prefix l] are the bytes of [l] before its first
    00 00 01, [from_prefix l] the rest, beginning with that prefix (or
    empty when there is none).  Zeros before the last two of a longer run
    stay with the bytes before the prefix. *)
Fixpoint before_prefix (l : list Z) : list Z :=
  match l with
  | [] => []
  | b :: rest => if at_prefix l then [] else b :: before_prefix rest
  end.

Fixpoint from_prefix (l : list Z) : list Z :=
  match l with
  | [] => []
  | b :: rest => if at_prefix l then l else from_prefix rest
  end.

(** What [find_and_build_next_ES_unit] returns: 0 with a unit (and the
    stream after it), [EOF] at the end of the stream, or another non-zero
    value for a read error. *)
Inductive next_unit :=
| NextUnit (unit : ES_unit) (es' : ES)
| NextEOF
| NextError (err : Z).

(** Modelled from the spec: [find_and_build_next_ES_unit].  The bytes
    before the next start code are discarded (there are none after the
    first unit); the unit is the four start code bytes and every byte up
    to, but not including, the next start code prefix or the end of the
    stream.  A stream that ends before the start code byte gives [EOF].
    The input is held in memory, so no read error arises here. *)
Definition find_and_build_next_ES_unit (es : ES) : next_unit :=
  let skipped := before_prefix (es_input es) in
  match from_prefix (es_input es) with
  | b0 :: b1 :: b2 :: sc :: rest =>
    let start := es_posn es + Z.of_nat (length skipped) in
    let payload := before_prefix rest in
    NextUnit (MkUnit (b0 :: b1 :: b2 :: sc :: payload) start)
             (MkES (from_prefix rest) (start + 4 + Z.of_nat (length payload)))
  | _ => NextEOF
  end.

(** All the units of a stream, in order ([fuel] bounds their number). *)
Fixpoint units_of (fuel : nat) (es : ES) : list ES_unit :=
  match fuel with
  | O => []
  | S fuel' =>
    match find_and_build_next_ES_unit es with
    | NextUnit unit es' => unit :: units_of fuel' es'
    | _ => []
    end
  end.

Definition all_units (es : ES) : list ES_unit :=
  units_of (length (es_input es)) es.

(** The input from its first start code onward. *)
Definition from_first_startcode (bytes : list Z) : list Z := from_prefix bytes.

(** A stream is cut short when it ends inside a start code, that is with
    a bare prefix 00 00 01 and no start code byte. *)
Definition valid_ES (bytes : list Z) : Prop :=
  ¬ ([0; 0; 1] `suffix_of` bytes).

End ES.

(* ===================================================================== *)
(** * es2ts: the converter *)
(* ===================================================================== *)

Module Es2ts.

Import Printing H222 ES TS.

(** ** State passing *)

Definition State (S A : Type) : Type := S -> A * S.

Definition ret {S A} (a : A) : State S A := fun s => (a, s).

Definition bind {S A B} (m : State S A) (k : A -> State S B) : State S B :=
  fun s => let '(a, s') := m s in k a s'.

Declare Scope state_scope.
Delimit Scope state_scope with state.
Notation "'let*' x ':=' m 'in' k" := (bind m (fun x => k))
  (at level 10, x name, m at level 100, k at level 200) : state_scope.
Notation "m '>>' k" := (bind m (fun _ => k))
  (at level 100, k at level 200, right associativity) : state_scope.
Local Open Scope state_scope.

(** What [transfer_data] works on: the elementary stream [es], the TS
    writer [output] and the printing state of the process. *)
Record io := IO {
  io_es : ES;
  io_out : TS_writer;
  io_print : pstate
}.

(** Printing from within [State io]. *)
Definition say (f : pstate -> pstate) : State io unit :=
  fun s => (tt, IO (io_es s) (io_out s) (f (io_print s))).

(** A call on the TS writer. *)
Definition on_output (f : TS_writer -> Z * TS_writer) : State io Z :=
  fun s => let '(err, w) := f (io_out s) in (err, IO (io_es s) w (io_print s)).

(** [find_and_build_next_ES_unit(es, &unit)] *)
Definition next_ES_unit : State io next_unit :=
  fun s =>
    match find_and_build_next_ES_unit (io_es s) with
    | NextUnit unit es' => (NextUnit unit es', IO es' (io_out s) (io_print s))
    | r => (r, s)
    end.

(** Modelled from the spec: [report_ES_unit(is_msg, unit)] of [es.cpp]
    prints a summary of the unit as a message or as an error; only that it
    prints is modelled. *)
Definition report_ES_unit (is_msg : bool) (unit : ES_unit) : pstate -> pstate :=
  fprint_msg_or_err is_msg "ES unit at %d, %d bytes\n"
    [AInt (start_posn unit); AInt (Z.of_nat (data_len unit))].

(** ** write_ES_unit_as_TS *)

Definition write_ES_unit_as_TS (unit : ES_unit) (video_pid : Z) : State io Z :=
  let* err := on_output (fun output =>
    write_ES_as_TS_PES_packet output (data unit) (data_len unit) video_pid
      DEFAULT_VIDEO_STREAM_ID) in
  if negb (err =? 0) then
    say (print_err "### Error writing ES data unit\n") >> ret err
  else ret 0.

(** ** transfer_data *)

(** How the [for (;;)] loop is left: by [break] with the count of units,
    by [return err], or not within the given number of iterations. *)
Inductive loop_end :=
| LoopBreak (count : Z)
| LoopReturn (err : Z)
| LoopUnfinished.

(** The body of the loop, iterated at most [fuel] times.  [count] is a C
    [int]; it is not wrapped here, a stream of 2^31 units being far out of
    reach. *)
Fixpoint transfer_loop (fuel : nat) (video_pid max2 : Z) (verbose : bool)
    (count : Z) : State io loop_end :=
  match fuel with
  | O => ret LoopUnfinished
  | S fuel' =>
    let* r := next_ES_unit in
    match r with
    | NextEOF => ret (LoopBreak count)
    | NextError err =>
      say (print_err "### Error copying ES data units\n") >> ret (LoopReturn err)
    | NextUnit unit _ =>
      let count := count + 1 in
      (if verbose then say (report_ES_unit false unit) else ret tt) >>
      let* err := write_ES_unit_as_TS unit video_pid in
      if negb (err =? 0) then
        say (print_err "### Error copying ES data units\n") >> ret (LoopReturn err)
      else if (0 <? max2) && (max2 <=? count) then ret (LoopBreak count)
      else transfer_loop fuel' video_pid max2 verbose count
    end
  end.

(** Every unit takes at least four bytes of the input, so the loop body
    runs at most once more than there are bytes left. *)
Definition loop_bound (es : ES) : nat := S (length (es_input es)).

(** [transfer_data]; [None] only if the loop did not finish within
    [loop_bound], which [transfer_data_returns] excludes. *)
Definition transfer_data (pmt_pid video_pid stream_type max2 : Z)
    (verbose quiet : bool) : State io (option Z) :=
  (if negb quiet then
     say (fprint_msg
       "Using transport stream id 1, PMT PID %#x, program 1 = PID %#x, stream type %#x\n"
       [AInt pmt_pid; AInt video_pid; AInt stream_type])
   else ret tt) >>
  let* err := on_output (fun output =>
    write_TS_program_data output 1 1 pmt_pid video_pid stream_type) in
  if negb (err =? 0) then
    say (print_err "### Error writing out TS program data\n") >> ret (Some 1)
  else
    let* bound := (fun s => (loop_bound (io_es s), s)) in
    let* e := transfer_loop bound video_pid max2 verbose 0 in
    match e with
    | LoopUnfinished => ret None
    | LoopReturn err => ret (Some err)
    | LoopBreak count =>
      (if negb quiet then
         say (fprint_msg "Transferred %d ES data unit%s\n"
           [AInt count; AStr (if count =? 1 then EmptyString else "s")])
       else ret tt) >>
      ret (Some 0)
    end.

(** ** The environment of a run *)

(** Where the TS data goes ([TS_W_STDOUT], [TS_W_TCP], [TS_W_FILE]). *)
Inductive sink :=
| TS_W_STDOUT
| TS_W_TCP (host : option string) (port : Z)
| TS_W_FILE (name : option string).

(** What [main] relies on and the sources do not contain: the argument
    parsers of [misc.cpp], the files that can be opened, the video type
    heuristics of [es.cpp] and the behaviour of the output sink.  Each is
    a parameter of the run; [None] stands for a non-zero error return. *)
Record Env := MkEnv {
  (** [int_value(prefix, cmd, arg, positive, base, &value)] *)
  int_value : string -> bool -> Z -> option Z;
  (** [unsigned_value(prefix, cmd, arg, base, &value)] *)
  unsigned_value : string -> Z -> option Z;
  (** [host_value(prefix, cmd, arg, &hostname, &port)]: the host and, when
      the argument names one, the port *)
  host_value : string -> option (string * option Z);
  (** the bytes of a named file, when it can be opened for reading *)
  files : string -> option (list Z);
  (** the bytes that arrive on standard input, when
      [open_elementary_stream(nullptr, &es)] succeeds *)
  stdin : option (list Z);
  (** [decide_ES_file_video_type]: the type found for the stream *)
  decide_ES_file_video_type : list Z -> option video_type;
  (** can [tswrite_open] open the sink? *)
  sink_opens : sink -> bool;
  (** how many packets the sink accepts ([None]: any number) *)
  sink_room : option nat;
  (** does [tswrite_close] succeed? *)
  sink_closes : bool
}.

(** The calls [main] makes on its input and output, as they happen. *)
Inductive event :=
| EvOpenInput (name : option string)
| EvDecideType
| EvOpenOutput (target : sink)
| EvTransfer (pmt_pid video_pid stream_type max2 : Z)
| EvCloseInput
| EvCloseOutput.

(** The observable state of the process: what was printed, the calls made
    so far (oldest first) and the TS writer once the sink is open. *)
Record process := Process {
  printing : pstate;
  trace : list event;
  output : option TS_writer
}.

Definition boot : process := Process (PState fns_default []) [] None.

(** The local variables of [main] that the switches set. *)
Record locals := Locals {
  use_stdin : bool;
  use_stdout : bool;
  use_tcpip : bool;
  port : Z;
  input_name : option string;
  output_name : option string;
  had_input_name : bool;
  had_output_name : bool;
  verbose : bool;
  quiet : bool;
  max2 : Z;
  video_pid : Z;
  pmt_pid : Z;
  video_type : H222.video_type;
  force_stream_type : bool
}.

(** Their initial values. *)
Definition locals_init : locals :=
  Locals false false false 88 None None false false false false 0 0x68 0x66
         VIDEO_H262 false.

Definition force_type (t : H222.video_type) (v : locals) : locals :=
  Locals (use_stdin v) (use_stdout v) (use_tcpip v) (port v) (input_name v)
    (output_name v) (had_input_name v) (had_output_name v) (verbose v) (quiet v)
    (max2 v) (video_pid v) (pmt_pid v) t true.

Definition set_video_type (t : H222.video_type) (v : locals) : locals :=
  Locals (use_stdin v) (use_stdout v) (use_tcpip v) (port v) (input_name v)
    (output_name v) (had_input_name v) (had_output_name v) (verbose v) (quiet v)
    (max2 v) (video_pid v) (pmt_pid v) t (force_stream_type v).

Definition set_stdin (v : locals) : locals :=
  Locals true (use_stdout v) (use_tcpip v) (port v) (input_name v)
    (output_name v) true (had_output_name v) (verbose v) (quiet v)
    (max2 v) (video_pid v) (pmt_pid v) (video_type v) (force_stream_type v).

Definition set_stdout (v : locals) : locals :=
  Locals (use_stdin v) true (use_tcpip v) (port v) (input_name v)
    (output_name v) (had_input_name v) true (verbose v) (quiet v)
    (max2 v) (video_pid v) (pmt_pid v) (video_type v) (force_stream_type v).

Definition set_host (host : string) (p : option Z) (v : locals) : locals :=
  Locals (use_stdin v) (use_stdout v) true (default (port v) p) (input_name v)
    (Some host) (had_input_name v) true (verbose v) (quiet v)
    (max2 v) (video_pid v) (pmt_pid v) (video_type v) (force_stream_type v).

Definition set_verbosity (verb qu : bool) (v : locals) : locals :=
  Locals (use_stdin v) (use_stdout v) (use_tcpip v) (port v) (input_name v)
    (output_name v) (had_input_name v) (had_output_name v) verb qu
    (max2 v) (video_pid v) (pmt_pid v) (video_type v) (force_stream_type v).

Definition set_max2 (n : Z) (v : locals) : locals :=
  Locals (use_stdin v) (use_stdout v) (use_tcpip v) (port v) (input_name v)
    (output_name v) (had_input_name v) (had_output_name v) (verbose v) (quiet v)
    n (video_pid v) (pmt_pid v) (video_type v) (force_stream_type v).

Definition set_video_pid (pid : Z) (v : locals) : locals :=
  Locals (use_stdin v) (use_stdout v) (use_tcpip v) (port v) (input_name v)
    (output_name v) (had_input_name v) (had_output_name v) (verbose v) (quiet v)
    (max2 v) pid (pmt_pid v) (video_type v) (force_stream_type v).

Definition set_pmt_pid (pid : Z) (v : locals) : locals :=
  Locals (use_stdin v) (use_stdout v) (use_tcpip v) (port v) (input_name v)
    (output_name v) (had_input_name v) (had_output_name v) (verbose v) (quiet v)
    (max2 v) (video_pid v) pid (video_type v) (force_stream_type v).

Definition set_input_name (name : string) (v : locals) : locals :=
  Locals (use_stdin v) (use_stdout v) (use_tcpip v) (port v) (Some name)
    (output_name v) true (had_output_name v) (verbose v) (quiet v)
    (max2 v) (video_pid v) (pmt_pid v) (video_type v) (force_stream_type v).

Definition set_output_name (name : string) (v : locals) : locals :=
  Locals (use_stdin v) (use_stdout v) (use_tcpip v) (port v) (input_name v)
    (Some name) (had_input_name v) true (verbose v) (quiet v)
    (max2 v) (video_pid v) (pmt_pid v) (video_type v) (force_stream_type v).

(** ** Early returns *)

(** A step of [main] goes on with a value, leaves [main] with an exit
    code, or (only when the loop of [transfer_data] did not finish) stops
    without one. *)
Inductive outcome (A : Type) :=
| Go (a : A)
| Exit (code : Z)
| Stuck.
Arguments Go {A} a.
Arguments Exit {A} code.
Arguments Stuck {A}.

Definition Prog (A : Type) : Type := State process (outcome A).

Definition go {A} (a : A) : Prog A := ret (Go a).
Definition exit {A} (code : Z) : Prog A := ret (Exit code).

Definition andthen {A B} (m : Prog A) (k : A -> Prog B) : Prog B :=
  fun p =>
    match m p with
    | (Go a, p') => k a p'
    | (Exit code, p') => (Exit code, p')
    | (Stuck, p') => (Stuck, p')
    end.

Notation "'do' x '<-' m ';' k" := (andthen m (fun x => k))
  (at level 10, x name, m at level 100, k at level 200) : state_scope.
Notation "m ';;;' k" := (andthen m (fun _ => k))
  (at level 100, k at level 200, right associativity) : state_scope.

(** Printing and tracing from within [main]. *)
Definition tell (f : pstate -> pstate) : Prog unit :=
  fun p => (Go tt, Process (f (printing p)) (trace p) (output p)).

Definition tell_unless (quiet : bool) (f : pstate -> pstate) : Prog unit :=
  if negb quiet then tell f else go tt.

Definition log (e : event) : Prog unit :=
  fun p => (Go tt, Process (printing p) (trace p ++ [e]) (output p)).

(** A step that prints and does nothing else. *)
Definition only_prints (m : Prog unit) : Prop :=
  forall p, exists pr, m p = (Go tt, Process pr (trace p) (output p)).

Definition shown_name (name : option string) : arg :=
  AStr (default "(null)"%string name).

(** ** main *)

(** The usage text (its body is abridged here). *)
Definition print_usage : Prog unit :=
  tell (print_msg "Usage: es2ts [switches] [<infile>] [<outfile>]\n\n") ;;;
  tell (fprint_msg "  TS tools version %s, %s built %s %s\n" [AStr "es2ts"]) ;;;
  tell (print_msg "\n  Convert an elementary video stream to H.222 transport stream.\n ...").

Definition streq (a b : string) : bool := String.eqb a b.
Arguments streq : simpl never.

(** [argv[ii][0] == '-'] *)
Definition is_switch (a : string) : bool :=
  match a with
  | String c _ => Ascii.eqb c "-"%char
  | EmptyString => false
  end.

(** Modelled from the spec: the macro [CHECKARG] of [misc.h] (not among
    the sources) leaves [main] with 1 when the switch is the last
    argument; [argv[ii + 1]] is read right after it. *)
Definition CHECKARG (switch : string) : Prog unit :=
  tell (fprint_err "### %s: missing argument to %s\n" [AStr "es2ts"; AStr switch]) ;;;
  exit 1.

(** The [while (ii < argc)] loop over the arguments after [argv[0]]. *)
Fixpoint parse_args (env : Env) (args : list string) (v : locals) : Prog locals :=
  match args with
  | [] => go v
  | a :: rest =>
    if is_switch a then
      if streq "--help" a || streq "-help" a || streq "-h" a then
        print_usage ;;; exit 0
      else if streq "-avc" a || streq "-h264" a then
        parse_args env rest (force_type VIDEO_H264 v)
      else if streq "-h262" a then
        parse_args env rest (force_type VIDEO_H262 v)
      else if streq "-avs" a then
        parse_args env rest (force_type VIDEO_AVS v)
      else if streq "-stdin" a then
        parse_args env rest (set_stdin v)
      else if streq "-stdout" a then
        tell redirect_output_stderr ;;;
        parse_args env rest (set_stdout v)
      else if streq "-err" a then
        match rest with
        | [] => do _ <- CHECKARG a; go v
        | b :: rest' =>
          if streq b "stderr" then
            tell redirect_output_stderr ;;; parse_args env rest' v
          else if streq b "stdout" then
            tell redirect_output_stdout ;;; parse_args env rest' v
          else
            tell (fprint_err
              "### es2ts: Unrecognised option '%s' to -err (not 'stdout' or 'stderr')\n"
              [AStr b]) ;;;
            exit 1
        end
      else if streq "-host" a then
        match rest with
        | [] => do _ <- CHECKARG a; go v
        | b :: rest' =>
          match host_value env b with
          | None => exit 1
          | Some (host, p) => parse_args env rest' (set_host host p v)
          end
        end
      else if streq "-verbose" a || streq "-v" a then
        parse_args env rest (set_verbosity true false v)
      else if streq "-quiet" a || streq "-q" a then
        parse_args env rest (set_verbosity false true v)
      else if streq "-max" a || streq "-m" a then
        match rest with
        | [] => do _ <- CHECKARG a; go v
        | b :: rest' =>
          match int_value env b true 10 with
          | None => exit 1
          | Some n => parse_args env rest' (set_max2 n v)
          end
        end
      else if streq "-pid" a then
        match rest with
        | [] => do _ <- CHECKARG a; go v
        | b :: rest' =>
          match unsigned_value env b 0 with
          | None => exit 1
          | Some n => parse_args env rest' (set_video_pid n v)
          end
        end
      else if streq "-pmt" a then
        match rest with
        | [] => do _ <- CHECKARG a; go v
        | b :: rest' =>
          match unsigned_value env b 0 with
          | None => exit 1
          | Some n => parse_args env rest' (set_pmt_pid n v)
          end
        end
      else
        tell (fprint_err "### es2ts: Unrecognised command line switch '%s'\n"
                [AStr a]) ;;;
        exit 1
    else
      if had_input_name v && had_output_name v then
        tell (fprint_err "### es2ts: Unexpected '%s'\n" [AStr a]) ;;; exit 1
      else if had_input_name v then
        parse_args env rest (set_output_name a v)
      else
        parse_args env rest (set_input_name a v)
  end.

(** [open_elementary_stream(name, &es)], standard input for [nullptr],
    and the test of its result. *)
Definition open_input (env : Env) (name : option string) : Prog ES :=
  log (EvOpenInput name) ;;;
  match (match name with None => stdin env | Some n => files env n end) with
  | Some bytes => go (open_elementary_stream bytes)
  | None =>
    tell (print_err
      "### es2ts: Problem starting elementary stream - abandoning reading\n") ;;;
    exit 1
  end.

(** The [switch (video_type)]: the stream type byte for the PMT. *)
Definition choose_stream_type (es : ES) (v : locals) : Prog Z :=
  match video_type v with
  | VIDEO_H262 =>
    tell_unless (quiet v) (print_msg "MPEG-2 (H.262)\n") ;;;
    go MPEG2_VIDEO_STREAM_TYPE
  | VIDEO_H264 =>
    tell_unless (quiet v) (print_msg "MPEG-4/AVC (H.264)\n") ;;;
    go AVC_VIDEO_STREAM_TYPE
  | VIDEO_AVS =>
    tell_unless (quiet v) (print_msg "AVS\n") ;;;
    go AVS_VIDEO_STREAM_TYPE
  | VIDEO_UNKNOWN =>
    tell_unless (quiet v) (print_msg "Unknown\n") ;;;
    tell (print_err "### es2ts: Input video type is not recognised\n") ;;;
    log EvCloseInput ;;;
    exit 1
  end.

(** Which sink [tswrite_open] is asked for. *)
Definition target_of (v : locals) : sink :=
  if use_stdout v then TS_W_STDOUT
  else if use_tcpip v then TS_W_TCP (output_name v) (port v)
  else TS_W_FILE (output_name v).

(** Deciding if the input stream is H.262, H.264 or AVS: the forced type
    (or the default, for standard input) or what
    [decide_ES_file_video_type] finds. *)
Definition decide_type (env : Env) (es : ES) (v : locals) : Prog locals :=
  if force_stream_type v || use_stdin v then
    tell_unless (quiet v) (print_msg "Reading input as ") ;;; go v
  else
    log EvDecideType ;;;
    match decide_ES_file_video_type env (es_input es) with
    | None =>
      tell (print_err "### es2ts: Error deciding on stream type\n") ;;;
      log EvCloseInput ;;;
      exit 1
    | Some t =>
      tell_unless (quiet v) (print_msg "Input appears to be ") ;;;
      go (set_video_type t v)
    end.

(** The call of [transfer_data] on the open stream and a writer on the
    freshly opened sink. *)
Definition call_transfer_data (env : Env) (es : ES) (v : locals) (stream_type : Z)
    : Prog Z :=
  fun p =>
    let '(r, s) :=
      transfer_data (pmt_pid v) (video_pid v) stream_type (max2 v)
        (verbose v) (quiet v)
        (IO es (tswrite_fresh (sink_room env)) (printing p)) in
    (match r with Some err => Go err | None => Stuck end,
     Process (io_print s) (trace p) (Some (io_out s))).

(** Opening the output, transferring the data and closing down. *)
Definition write_output (env : Env) (es : ES) (v : locals) (stream_type : Z)
    : Prog Z :=
  log (EvOpenOutput (target_of v)) ;;;
  if negb (sink_opens env (target_of v)) then
    log EvCloseInput ;;;
    tell (fprint_err "### es2ts: Unable to open %s\n" [shown_name (output_name v)]) ;;;
    exit 1
  else
    (if negb (max2 v =? 0) && negb (quiet v) then
       tell (fprint_msg "Stopping after %d ES data units\n" [AInt (max2 v)])
     else go tt) ;;;
    log (EvTransfer (pmt_pid v) (video_pid v) stream_type (max2 v)) ;;;
    do err <- call_transfer_data env es v stream_type;
    (if negb (err =? 0) then
       tell (print_err "### es2ts: Error transferring data\n")
     else go tt) ;;;
    log EvCloseInput ;;;
    log EvCloseOutput ;;;
    if negb (sink_closes env) then
      tell (fprint_err "### es2ts: Error closing output %s: %s\n"
              [shown_name (output_name v); AStr "strerror(errno)"]) ;;;
      exit 1
    else exit (if negb (err =? 0) then 1 else 0).

(** [main] after the arguments are read. *)
Definition convert (env : Env) (v : locals) : Prog Z :=
  if negb (had_input_name v) then
    tell (print_err "### es2ts: No input file specified\n") ;;; exit 1
  else if negb (had_output_name v) then
    tell (print_err "### es2ts: No output file specified\n") ;;; exit 1
  else
    let v := if use_stdout v then set_verbosity false true v else v in
    do es <- open_input env (if use_stdin v then None else input_name v);
    tell_unless (quiet v)
      (fprint_msg "Reading from  %s\n"
         [if use_stdin v then AStr "<stdin>" else shown_name (input_name v)]) ;;;
    do v <- decide_type env es v;
    do stream_type <- choose_stream_type es v;
    write_output env es v stream_type.

(** [main(argc, argv)], [argv] beginning with the program name: the exit
    code ([None] if there is none) and the process as it is left. *)
Definition main (env : Env) (argv : list string) : option Z * process :=
  let body : Prog Z :=
    if (length argv <? 2)%nat then print_usage ;;; exit 0
    else
      do v <- parse_args env (tail argv) locals_init;
      convert env v in
  match body boot with
  | (Exit code, p) => (Some code, p)
  | (Go code, p) => (Some code, p)
  | (Stuck, p) => (None, p)
  end.

(** The TS bytes the sink received during a run. *)
Definition ts_output (p : process) : list Z :=
  match output p with
  | Some w => sink_bytes w
  | None => []
  end.

End Es2ts.

(* ===================================================================== *)
(** * A concrete environment *)
(* ===================================================================== *)

Module Sample.

Import H222 ES TS Es2ts.

(** Reading numbers the way the switches document them: decimal, or
    hexadecimal after [0x]. *)
Definition digit_of (c : ascii) : option Z :=
  let n := Z.of_nat (nat_of_ascii c) in
  if (48 <=? n) && (n <=? 57) then Some (n - 48)
  else if (97 <=? n) && (n <=? 102) then Some (n - 87)
  else if (65 <=? n) && (n <=? 70) then Some (n - 55)
  else None.

Fixpoint digits (base : Z) (s : string) (acc : Z) : option Z :=
  match s with
  | EmptyString => Some acc
  | String c rest =>
    match digit_of c with
    | Some d => if d <? base then digits base rest (acc * base + d) else None
    | None => None
    end
  end.

Definition number (s : string) : option Z :=
  match s with
  | EmptyString => None
  | String "0" (String "x" (String c rest)) => digits 16 (String c rest) 0
  | _ => digits 10 s 0
  end.

(** A sequence header of four bytes and a picture of ten. *)
Definition minimal_h262 : list Z :=
  [0x00; 0x00; 0x01; 0xB3; 0x11; 0x22; 0x33; 0x44;
   0x00; 0x00; 0x01; 0x00; 1; 2; 3; 4; 5; 6; 7; 8; 9; 10].

(** Three units, with junk before the first start code and a run of
    three zeros before the last. *)
Definition three_units : list Z :=
  [0x12; 0x00; 0x34;
   0x00; 0x00; 0x01; 0xB3; 0xAA;
   0x00; 0x00; 0x01; 0x00; 0xBB; 0xCC; 0x00;
   0x00; 0x00; 0x01; 0x01; 0xDD].

(** One unit of 4 + 500 bytes. *)
Definition large_unit : list Z :=
  [0x00; 0x00; 0x01; 0xB3] ++ repeat 0x5A 500.

Definition sample_files (name : string) : option (list Z) :=
  if String.eqb name "minimal.es" then Some minimal_h262
  else if String.eqb name "three.es" then Some three_units
  else if String.eqb name "large.es" then Some large_unit
  else if String.eqb name "empty.es" then Some []
  else None.

(** Every file is found to be H.262, except that nothing is found in an
    empty one; the sink takes everything. *)
Definition sample_env : Env :=
  MkEnv (fun s _ _ => number s)
        (fun s _ => number s)
        (fun s => Some (s, None))
        sample_files
        (Some three_units)
        (fun bytes => Some (match bytes with [] => VIDEO_UNKNOWN | _ => VIDEO_H262 end))
        (fun _ => true)
        None
        true.

End Sample.

(* ===================================================================== *)
(** * The receiving side *)
(* ===================================================================== *)

Module Demux.

Import ES TS.

(** How a receiver reads a TS packet: PID, PUSI, adaptation field control
    and the payload after the header and the adaptation field. *)
Definition ts_pid (pkt : list Z) : Z :=
  Z.lor (Z.shiftl (Z.land (nth 1 pkt 0) 0x1F) 8) (nth 2 pkt 0).

Definition ts_pusi (pkt : list Z) : bool := Z.testbit (nth 1 pkt 0) 6.

Definition ts_afc (pkt : list Z) : Z := Z.land (Z.shiftr (nth 3 pkt 0) 4) 3.

Definition ts_payload (pkt : list Z) : list Z :=
  if ts_afc pkt =? 1 then drop 4 pkt
  else if ts_afc pkt =? 3 then drop (5 + Z.to_nat (nth 4 pkt 0)) pkt
  else [].

(** The 188 byte packets of a TS byte stream. *)
Definition ts_packets (bytes : list Z) : list (list Z) :=
  pieces (length bytes) TS_PACKET_SIZE bytes.

Definition on_pid (pid : Z) (pkts : list (list Z)) : list (list Z) :=
  List.filter (fun pkt => ts_pid pkt =? pid) pkts.

(** The payloads of the packets up to the next one with PUSI set. *)
Fixpoint continuation (pkts : list (list Z)) : list Z :=
  match pkts with
  | [] => []
  | pkt :: rest => if ts_pusi pkt then [] else ts_payload pkt ++ continuation rest
  end.

(** The PES packets carried by the packets of one PID: each begins in a
    packet with PUSI set and runs to the next such packet. *)
Fixpoint pes_packets (pkts : list (list Z)) : list (list Z) :=
  match pkts with
  | [] => []
  | pkt :: rest =>
    if ts_pusi pkt then (ts_payload pkt ++ continuation rest) :: pes_packets rest
    else pes_packets rest
  end.

(** The packets begin a new payload unit (or there are none). *)
Definition unit_boundary (more : list (list Z)) : Prop :=
  continuation more = [].

(** A PES packet without its header: nine bytes and PES_header_data_length
    more. *)
Definition pes_payload (pes : list Z) : list Z :=
  drop (9 + Z.to_nat (nth 8 pes 0)) pes.

(** The elementary stream a receiver recovers from the TS bytes. *)
Definition recovered_ES (video_pid : Z) (bytes : list Z) : list Z :=
  concat (map pes_payload (pes_packets (on_pid video_pid (ts_packets bytes)))).

(** The stream_type of the first elementary stream of a PMT carried in a
    packet (after the pointer_field and twelve section bytes). *)
Definition pmt_stream_type (pkt : list Z) : Z := nth 13 (ts_payload pkt) 0.

End Demux.

(* ===================================================================== *)
(** * What the output is expected to be *)
(* ===================================================================== *)

Module Expected.

Import H222 ES TS Es2ts.

(** The PES packet made of one ES unit. *)
Definition pes_of (unit : ES_unit) : list Z :=
  PES_header DEFAULT_VIDEO_STREAM_ID (data_len unit) ++ data unit.

(** The TS packets of a sequence of fragments: PUSI as given on the first
    and clear on the others, the continuity counter going up from [cc]. *)
Fixpoint packetize (pid : Z) (first : bool) (cc : Z) (frags : list (list Z))
    : list (list Z) :=
  match frags with
  | [] => []
  | f :: rest => ts_packet pid first cc f :: packetize pid false ((cc + 1) mod 16) rest
  end.

(** [group] is the run of TS packets that carries [bytes] on [pid]. *)
Definition carries (pid : Z) (bytes : list Z) (group : list (list Z)) : Prop :=
  exists cc, group = packetize pid true cc (fragments bytes).

(** Writing units one after the other until a write fails. *)
Fixpoint emit_units (w : TS_writer) (video_pid : Z) (units : list ES_unit)
    : Z * TS_writer :=
  match units with
  | [] => (0, w)
  | unit :: rest =>
    let '(err, w') :=
      write_ES_as_TS_PES_packet w (data unit) (data_len unit) video_pid
        DEFAULT_VIDEO_STREAM_ID in
    if err =? 0 then emit_units w' video_pid rest else (err, w')
  end.

(** The units a run is to emit, [count] units having been emitted before:
    as many as bring the count to [max2] when that is positive, all of
    them otherwise. *)
Definition capped (max2 count : Z) (units : list ES_unit) : list ES_unit :=
  if 0 <? max2 then take (Z.to_nat (max2 - count)) units else units.

(** The return value and the TS writer [transfer_data] is to leave. *)
Definition transfer_result (w : TS_writer) (es : ES)
    (pmt_pid video_pid stream_type max2 : Z) : Z * TS_writer :=
  let '(err, w1) := write_TS_program_data w 1 1 pmt_pid video_pid stream_type in
  if err =? 0 then emit_units w1 video_pid (capped max2 0 (all_units es))
  else (1, w1).

(** The stream type byte the spec gives for a video type. *)
Definition stream_type_byte (t : H222.video_type) : Z :=
  match t with
  | VIDEO_H262 => 0x02
  | VIDEO_H264 => 0x1B
  | VIDEO_AVS => 0x42
  | VIDEO_UNKNOWN => 0x00
  end.

(** PIDs as the spec wants them: 13 bits, neither 0x0000 (PAT) nor 0x1FFF
    (null), and different from each other. *)
Definition valid_pids (pmt_pid video_pid : Z) : Prop :=
  0 < pmt_pid < 0x1FFF /\ 0 < video_pid < 0x1FFF /\ pmt_pid <> video_pid.

(** The TS packet that carries the PAT, and the one that carries the PMT
    (a pointer_field of 0 and the section, in one packet with PUSI set). *)
Definition is_PAT (pmt_pid : Z) (pkt : list Z) : Prop :=
  carries 0 (0x00 :: pat_section 1 1 pmt_pid) [pkt].

Definition is_PMT (pmt_pid video_pid stream_type : Z) (pkt : list Z) : Prop :=
  carries pmt_pid (0x00 :: pmt_section 1 video_pid stream_type) [pkt].

(** ** A run of [main] without its messages *)

(** The name [open_elementary_stream] is given, and what it then reads. *)
Definition input_of (v : locals) : option string :=
  if use_stdin v then None else input_name v.

Definition read_input (env : Env) (name : option string) : option (list Z) :=
  match name with
  | None => stdin env
  | Some n => files env n
  end.

(** The video type in force: the forced one (or the default) when a type
    was forced or the input is standard input, the detected one
    otherwise. *)
Definition type_in_force (env : Env) (v : locals) (bytes : list Z)
    : option H222.video_type :=
  if force_stream_type v || use_stdin v then Some (video_type v)
  else decide_ES_file_video_type env bytes.

Definition detection (v : locals) : list event :=
  if force_stream_type v || use_stdin v then [] else [EvDecideType].

(** The exit code of a run, the calls it made and the writer it left. *)
Record run := Run {
  exit_code : Z;
  calls : list event;
  writer : option TS_writer
}.

(** What [main] is to do once the switches are read into [v]. *)
Definition expected_run (env : Env) (v : locals) : run :=
  if negb (had_input_name v) || negb (had_output_name v) then Run 1 [] None
  else
    let name := input_of v in
    match read_input env name with
    | None => Run 1 [EvOpenInput name] None
    | Some bytes =>
      match type_in_force env v bytes with
      | None => Run 1 (EvOpenInput name :: detection v ++ [EvCloseInput]) None
      | Some VIDEO_UNKNOWN =>
        Run 1 (EvOpenInput name :: detection v ++ [EvCloseInput]) None
      | Some t =>
        if negb (sink_opens env (target_of v)) then
          Run 1 (EvOpenInput name :: detection v
                 ++ [EvOpenOutput (target_of v); EvCloseInput]) None
        else
          let r := transfer_result (tswrite_fresh (sink_room env))
                     (open_elementary_stream bytes) (pmt_pid v) (video_pid v)
                     (stream_type_byte t) (max2 v) in
          Run (if negb (sink_closes env) then 1 else if r.1 =? 0 then 0 else 1)
              (EvOpenInput name :: detection v
               ++ [EvOpenOutput (target_of v);
                   EvTransfer (pmt_pid v) (video_pid v) (stream_type_byte t) (max2 v);
                   EvCloseInput; EvCloseOutput])
              (Some r.2)
      end
    end.

(** The video type is a known one, and H.262 unless a type was forced. *)
Definition type_settled (v : locals) : Prop :=
  video_type v <> VIDEO_UNKNOWN
  /\ (force_stream_type v = false -> video_type v = VIDEO_H262).

(** Checking the configuration, as the spec words it: a run whose PIDs
    collide or are reserved ends with exit code 1 and without the sink
    ever being opened. *)
Definition rejects_invalid_pids (env : Env) (argv : list string) : Prop :=
  forall v p1,
    parse_args env (tail argv) locals_init boot = (Go v, p1) ->
    ~ valid_pids (pmt_pid v) (video_pid v) ->
    (main env argv).1 = Some 1 /\ output (main env argv).2 = None.

(** An input without ES unit, as the spec words it: whenever the input
    that is opened holds no unit, the run exits with code 0 having
    written two TS packets, 376 bytes. *)
Definition empty_input_succeeds (env : Env) (argv : list string) : Prop :=
  forall v p1 bytes,
    parse_args env (tail argv) locals_init boot = (Go v, p1) ->
    read_input env (input_of v) = Some bytes ->
    all_units (open_elementary_stream bytes) = [] ->
    (main env argv).1 = Some 0
    /\ length (ts_output (main env argv).2) = 376%nat.

(** The sink accepts at least [n] packets. *)
Definition room_for (n : nat) (limit : option nat) : Prop :=
  match limit with
  | None => True
  | Some k => (n <= k)%nat
  end.

End Expected.

(* ===================================================================== *)
(** * Sequences of calls of printing.h *)
(* ===================================================================== *)

Module PrintingUse.

Import Printing.

(** A call of one of the functions [printing.h] offers. *)
Inductive call :=
| Redirect_output_stderr
| Redirect_output_stdout
| Redirect_output (new_print_message_fn new_print_error_fn : fnptr msg_fn)
    (new_fprint_message_fn new_fprint_error_fn : fnptr fmt_fn)
    (new_flush_msg_fn : fnptr flush_fn)
| Print_msg (text : string)
| Print_err (text : string)
| Fprint_msg (format : string) (args : list arg)
| Fprint_err (format : string) (args : list arg)
| Fprint_msg_or_err (is_msg : bool) (format : string) (args : list arg)
| Flush_msg.

(** The printing state after a call, and after a sequence of calls. *)
Definition perform (c : call) (p : pstate) : pstate :=
  match c with
  | Redirect_output_stderr => redirect_output_stderr p
  | Redirect_output_stdout => redirect_output_stdout p
  | Redirect_output m e fm fe fl => (redirect_output m e fm fe fl p).2
  | Print_msg text => print_msg text p
  | Print_err text => print_err text p
  | Fprint_msg format args => fprint_msg format args p
  | Fprint_err format args => fprint_err format args p
  | Fprint_msg_or_err is_msg format args => fprint_msg_or_err is_msg format args p
  | Flush_msg => flush_msg p
  end.

Definition perform_all (calls : list call) (p : pstate) : pstate :=
  fold_left (fun q c => perform c q) calls p.

(** The printing state a program starts with (the initialiser of [fns]). *)
Definition initial : pstate := PState fns_default [].

(** No pointer of the table is null. *)
Definition complete (t : print_fns) : Prop :=
  print_message_fn t <> None /\ print_error_fn t <> None
  /\ fprint_message_fn t <> None /\ fprint_error_fn t <> None
  /\ flush_message_fn t <> None.

(** The calls that print an error. *)
Definition is_error_call (c : call) : bool :=
  match c with
  | Print_err _ | Fprint_err _ _ | Fprint_msg_or_err false _ _ => true
  | _ => false
  end.

(** From [p] to [p'] only errors were printed. *)
Definition errors_only (p p' : pstate) : Prop :=
  exists calls,
    Forall (fun c => is_error_call c = true) calls /\ p' = perform_all calls p.


(** What a step of [main] leaves as outcome counts as success when it
    goes on or leaves with exit code 0. *)
Definition succeeds {A} (o : Es2ts.outcome A) : Prop :=
  match o with
  | Es2ts.Go _ => True
  | Es2ts.Exit code => code = 0
  | Es2ts.Stuck => False
  end.

(** A step of [main] prints errors only, and nothing when it goes on or
    leaves with exit code 0. *)
Definition silent_unless_failing {A} (m : Es2ts.Prog A) : Prop :=
  forall p o p', m p = (o, p') ->
  errors_only (Es2ts.printing p) (Es2ts.printing p')
  /\ (succeeds o -> Es2ts.printing p' = Es2ts.printing p).

End PrintingUse.

(* ===================================================================== *)
(** * tsfilter: filtering a transport stream by PID *)
(* ===================================================================== *)

Module Tsfilter.

Import Printing.

(** C's [unsigned int] and [int], 32 bits wide: the value a conversion
    to either type gives. *)
Definition to_unsigned (z : Z) : Z := z mod 2 ^ 32.
Definition to_int (z : Z) : Z := (z + 2 ^ 31) mod 2 ^ 32 - 2 ^ 31.

(** [(unsigned int)-1], the value of [max_pkts] that stands for no limit. *)
Definition NO_MAX : Z := 0xFFFFFFFF.

Definition EOF : Z := -1.

(** ** The list of PIDs *)

(** The globals [pidList], [pidListAlloc] and [pidListUsed].  The list
    holds the cells that are allocated; a cell never written
    (indeterminate in C) is shown as 0. *)
Record pid_list := PidList {
  pidList : list Z;
  pidListAlloc : Z;
  pidListUsed : Z
}.

Definition globals_init : pid_list := PidList [] 0 0.

(** [realloc(pidList, n * sizeof(int))], taken to succeed: the cells
    there are kept, up to the new size. *)
Definition realloc (cells : list Z) (n : Z) : list Z :=
  resize (Z.to_nat n) 0 cells.

(** [ensurePidList(nr)]: [nr] is an [int], compared with the unsigned
    [pidListAlloc] and assigned to it. *)
Definition ensurePidList (nr : Z) (g : pid_list) : pid_list :=
  if to_unsigned nr <? pidListAlloc g then g
  else PidList (realloc (pidList g) (to_unsigned nr)) (to_unsigned nr) (pidListUsed g).

(** [pidList[i] = x]; [None] when the cell is not allocated. *)
Definition store (g : pid_list) (i x : Z) : option pid_list :=
  if (0 <=? i) && (i <? Z.of_nat (length (pidList g))) then
    Some (PidList (<[Z.to_nat i := x]> (pidList g)) (pidListAlloc g) (pidListUsed g))
  else None.

(** [++pidListUsed] *)
Definition used_incremented (g : pid_list) : pid_list :=
  PidList (pidList g) (pidListAlloc g) (to_unsigned (pidListUsed g + 1)).

(** The loop over [pidList] in [main]: is [pid] one of the first
    [pidListUsed] cells?  The [int] cell is converted to [unsigned] for
    the comparison. *)
Definition listed (g : pid_list) (pid : Z) : bool :=
  existsb (fun q => to_unsigned q =? to_unsigned pid)
    (take (Z.to_nat (pidListUsed g)) (pidList g)).

(** ** The environment of a run *)

(** What [main] relies on and the sources do not contain: the C library's
    number parsers and the TS reader and writer of [ts.cpp] and
    [tswrite.cpp].  Each is a parameter of the run. *)
Record Env := MkEnv {
  (** [atoi(s)] *)
  atoi : string -> Z;
  (** [strtoul(s, &p, 0)]: the value, and whether [p] is left at the
      end of [s] *)
  strtoul : string -> Z * bool;
  (** [open_file_for_TS_read(name, &tsreader)] ([nullptr]: standard
      input): when it succeeds, what the calls of [read_next_TS_packet]
      on the reader return one after the other, each an error code and
      the packet [pkt] is left pointing to; [EOF] once they are used up *)
  open_file_for_TS_read : option string -> option (list (Z * list Z));
  (** can [tswrite_open] open the sink? *)
  tswrite_open : Es2ts.sink -> bool;
  (** [split_TS_packet]: the PID of the packet, or [None] for an error *)
  split_TS_packet : list Z -> option Z;
  (** [tswrite_write(tswriter, pkt, pid, 0, 0)]: the error code, given
      the packets written so far; with 0 the packet is written *)
  tswrite_write : list (list Z) -> list Z -> Z -> Z
}.

(** The calls [main] makes on its reader and writer, as they happen. *)
Inductive event :=
| EvOpenRead (name : option string)
| EvOpenWrite (target : Es2ts.sink)
| EvCloseWrite
| EvCloseRead.

(** The observable state of the process: what was printed, the calls made
    so far (oldest first) and the packets handed to the sink. *)
Record process := Process {
  printing : pstate;
  trace : list event;
  sent : list (list Z)
}.

Definition boot : process := Process (PState fns_default []) [] [].

Definition say (f : pstate -> pstate) (p : process) : process :=
  Process (f (printing p)) (trace p) (sent p).

Definition log (e : event) (p : process) : process :=
  Process (printing p) (trace p ++ [e]) (sent p).

Definition send (pkt : list Z) (p : process) : process :=
  Process (printing p) (trace p) (sent p ++ [pkt]).

(** How a part of [main] ends: it goes on with a value, [main] returns,
    the behaviour is undefined (a null pointer read, a store outside the
    list), or the fuel of the switch loop ran out. *)
Inductive step (A : Type) :=
| Next (a : A)
| Return (code : Z)
| Undefined
| Unfinished.
Arguments Next {A} a.
Arguments Return {A} code.
Arguments Undefined {A}.
Arguments Unfinished {A}.

(** ** main *)

(** The local variables of [main] that the switches set. *)
Record locals := Locals {
  invert : bool;
  max_pkts : Z;
  input_file : option string;
  output_file : option string
}.

Definition locals_init : locals := Locals false NO_MAX None None.

Definition set_max_pkts (n : Z) (v : locals) : locals :=
  Locals (invert v) n (input_file v) (output_file v).
Definition set_invert (v : locals) : locals :=
  Locals true (max_pkts v) (input_file v) (output_file v).
Definition set_input_file (name : option string) (v : locals) : locals :=
  Locals (invert v) (max_pkts v) name (output_file v).
Definition set_output_file (name : option string) (v : locals) : locals :=
  Locals (invert v) (max_pkts v) (input_file v) name.

(** The usage text (its body is abridged here; the line of
    [REPORT_VERSION] is as in es2ts). *)
Definition print_usage (p : pstate) : pstate :=
  print_msg "\n Filter the given pids out of stdin and write the result on stdout.\n ..."
    (fprint_msg "  TS tools version %s, %s built %s %s\n" [AStr "tsfilter"]
       (print_msg "Usage: tsfilter [switches] <pid> <pid> <pid> ... \n\n" p)).

(** [args[i]]: [args[argn]] is a null pointer, [None] here. *)
Definition arg_at (args : list string) (i : Z) : option string :=
  if 0 <=? i then args !! Z.to_nat i else None.

(** The [while (ii < argn)] loop over the arguments.  [ii] stays within
    [argn + 1], so that its arithmetic is exact. *)
Fixpoint switches (env : Env) (fuel : nat) (args : list string) (ii : Z)
    (v : locals) (g : pid_list) (p : pstate) : step (locals * pid_list) * pstate :=
  let argn := Z.of_nat (length args) in
  if negb (ii <? argn) then (Next (v, g), p)
  else
    match fuel with
    | O => (Unfinished, p)
    | S fuel =>
      match arg_at args ii with
      | None => (Undefined, p)
      | Some a =>
        if Es2ts.is_switch a then
          if Es2ts.streq "--help" a || Es2ts.streq "-h" a || Es2ts.streq "-help" a then
            (Return 0, print_usage p)
          else if Es2ts.streq "-verbose" a || Es2ts.streq "-v" a then
            switches env fuel args (ii + 1) v g p
          else if Es2ts.streq "-m" a || Es2ts.streq "-max" a then
            if argn <=? ii then
              (Return 1, fprint_err "### tsfilter: -max requires an argument\n" [] p)
            else
              match arg_at args (ii + 1) with
              | None => (Undefined, p)
              | Some b =>
                switches env fuel args (ii + 1 + 1)
                  (set_max_pkts (to_unsigned (atoi env b)) v) g p
              end
          else if Es2ts.streq "-!" a || Es2ts.streq "-invert" a then
            switches env fuel args (ii + 1) (set_invert v) g p
          else if Es2ts.streq "-i" a || Es2ts.streq "-input" a then
            if argn <=? ii then
              (Return 1, fprint_err "### tsfilter: -input requires an argument\n" [] p)
            else
              switches env fuel args (ii + 1 + 1)
                (set_input_file (arg_at args (ii + 1)) v) g p
          else if Es2ts.streq "-o" a || Es2ts.streq "-output" a then
            if argn <=? ii then
              (Return 1, fprint_err "### tsfilter: -output requires an argument\n" [] p)
            else
              switches env fuel args (ii + 1 + 1)
                (set_output_file (arg_at args (ii + 1)) v) g p
          else
            (Return 1,
             fprint_err "### tsfilter: Unrecognised command line switch '%s'\n"
               [AStr a] p)
        else
          let g1 :=
            if pidListAlloc g <=? pidListUsed g then
              ensurePidList (to_int (to_unsigned (pidListAlloc g + 1024))) g
            else g in
          let '(value, whole) := strtoul env a in
          match store g1 (pidListUsed g1) (to_int value) with
          | None => (Undefined, p)
          | Some g2 =>
            if negb whole then
              (Return 1,
               fprint_err "### tsfilter: '%s' wasn't a valid number. \n" [AStr a] p)
            else switches env fuel args (ii + 1) v (used_incremented g2) p
          end
      end
    end.

(** The [while (1)] loop over the packets read; [reads] is what the
    calls of [read_next_TS_packet] return from now on. *)
Fixpoint filter_loop (env : Env) (v : locals) (g : pid_list)
    (reads : list (Z * list Z)) (pkt_num : Z) (p : process) : step unit * process :=
  match reads with
  | [] => (Next tt, p)
  | (err, pkt) :: rest =>
    if err =? EOF then (Next tt, p)
    else
      match split_TS_packet env pkt with
      | None =>
        filter_loop env v g rest pkt_num
          (say (fprint_err "### Error splitting TS packet - continuing. \n" []) p)
      | Some pid =>
        let found := listed g pid in
        let past := negb (max_pkts v =? NO_MAX) && (max_pkts v <? pkt_num) in
        if past && negb (invert v) then (Next tt, p)
        else
          let found := if past then false else found in
          let found := if invert v then negb found else found in
          if found then
            let err := tswrite_write env (sent p) pkt pid in
            if negb (err =? 0) then
              (Return 2, say (fprint_err "### Error writing output - %d \n" [AInt err]) p)
            else filter_loop env v g rest (to_unsigned (pkt_num + 1)) (send pkt p)
          else filter_loop env v g rest (to_unsigned (pkt_num + 1)) p
      end
  end.

(** Which sink [tswrite_open] is asked for. *)
Definition target_of (v : locals) : Es2ts.sink :=
  match output_file v with
  | Some name => Es2ts.TS_W_FILE (Some name)
  | None => Es2ts.TS_W_STDOUT
  end.

(** The block of [main] after the switches: opening, filtering, closing. *)
Definition filter (env : Env) (v : locals) (g : pid_list) (p : process)
    : step unit * process :=
  let p := log (EvOpenRead (input_file v)) p in
  match open_file_for_TS_read env (input_file v) with
  | None =>
    (Return 1, say (fprint_err "## tsfilter: Unable to open stdin for reading TS.\n" []) p)
  | Some reads =>
    let p := log (EvOpenWrite (target_of v)) p in
    if negb (tswrite_open env (target_of v)) then
      (Return 1,
       say (fprint_err "## tsfilter: Unable to open stdout for writing TS. \n" []) p)
    else
      match filter_loop env v g reads 0 p with
      | (Next _, p) => (Return 0, log EvCloseRead (log EvCloseWrite p))
      | r => r
      end
  end.

(** [main(argn, args)], [args] beginning with the program name: the exit
    code ([None] if there is none) and the process as it is left. *)
Definition main (env : Env) (args : list string) : option Z * process :=
  if Z.of_nat (length args) <? 2 then (Some 0, say print_usage boot)
  else
    let g := ensurePidList 1024 globals_init in
    match switches env (length args) args 1 locals_init g (printing boot) with
    | (Next (v, g), pr) =>
      if pidListUsed g =? 0 then
        (Some 1, say (fprint_err "### tsfilter: No pids to filter. \n" [])
                   (Process pr [] []))
      else
        match filter env v g (Process pr [] []) with
        | (Return code, p) => (Some code, p)
        | (_, p) => (None, p)
        end
    | (Return code, pr) => (Some code, Process pr [] [])
    | (_, pr) => (None, Process pr [] [])
    end.

(** The list as [main] keeps it: as many cells as [pidListAlloc] says,
    at least 1024 of them, the used ones among them, and never more than
    1024 cells ahead of the used ones. *)
Definition well_formed (g : pid_list) : Prop :=
  pidListAlloc g = Z.of_nat (length (pidList g))
  /\ 0 <= pidListUsed g <= pidListAlloc g
  /\ 1024 <= pidListAlloc g <= pidListUsed g + 1024.

(** The three messages about a switch without its argument. *)
Definition missing_argument_messages : list string :=
  [ "### tsfilter: -max requires an argument\n";
    "### tsfilter: -input requires an argument\n";
    "### tsfilter: -output requires an argument\n" ]%string.

(** The packets read before the reader reports [EOF]. *)
Fixpoint before_EOF (reads : list (Z * list Z)) : list (list Z) :=
  match reads with
  | [] => []
  | (err, pkt) :: rest => if err =? EOF then [] else pkt :: before_EOF rest
  end.


(** What the switch loop leaves, started inside the arguments with a
    well-formed list. *)
Definition switches_post (env : Env) (args : list string)
    (g : pid_list) (p : pstate)
    (r : step (locals * pid_list)) (p' : pstate) : Prop :=
  match r with
  | Next (v', g') =>
    p' = p /\ well_formed g'
    /\ pidListUsed g <= pidListUsed g'
    /\ (pidListUsed g < pidListUsed g' ->
        exists a, a ∈ tail args /\ Es2ts.is_switch a = false
                  /\ (strtoul env a).2 = true)
    /\ (forall pid, listed g' pid = true ->
          listed g pid = true
          \/ exists a, a ∈ tail args /\ Es2ts.is_switch a = false
                       /\ (strtoul env a).2 = true
                       /\ to_unsigned (strtoul env a).1
                          = to_unsigned pid)
  | Return code =>
    (code = 0 /\ p' = print_usage p)
    \/ (code = 1
        /\ exists a, a ∈ tail args
             /\ (p' = fprint_err "### tsfilter: Unrecognised command line switch '%s'\n"
                        [AStr a] p
                 \/ p' = fprint_err "### tsfilter: '%s' wasn't a valid number. \n"
                           [AStr a] p))
  | Undefined =>
    p' = p /\ exists a, last args = Some a /\ (a = "-m" \/ a = "-max")%string
  | Unfinished => False
  end.

(** The table is the initial one and no line shown is one of the three
    messages about a missing argument. *)
Definition no_missing_argument (p : pstate) : Prop :=
  fns p = fns_default
  /\ Forall (fun l => l_format l ∉ missing_argument_messages) (shown p).

(** A concrete run: numbers are read as [Sample.number] reads them, a
    packet's PID is its second byte, the file in.ts holds five packets
    and a read error does not happen; the sink takes everything. *)
Definition sample_reads : list (Z * list Z) :=
  [(0, [0x47; 1]); (0, [0x47; 2]); (0, [0x47; 1]); (0, [0x47; 3]); (0, [0x47; 2])].

Definition sample_env : Env :=
  MkEnv (fun s => default 0 (Sample.number s))
        (fun s => match Sample.number s with
                  | Some n => (n, true)
                  | None => (0, false)
                  end)
        (fun name => match name with
                     | Some n => if String.eqb n "in.ts" then Some sample_reads else None
                     | None => Some []
                     end)
        (fun _ => true)
        (fun pkt => pkt !! 1%nat)
        (fun _ _ _ => 0).

End Tsfilter.

(* ===================================================================== *)
(** * Properties *)
(* ===================================================================== *)

Import Printing H222 ES TS Es2ts Demux Expected.

(** ** Bits of the TS header *)

(** A property checked for every number below [n]. *)
Definition check_below (f : Z -> bool) (n : nat) : bool :=
  forallb (fun k => f (Z.of_nat k)) (seq 0 n).

Lemma check_below_sound (f : Z -> bool) (n : nat) :
  check_below f n = true -> forall z, 0 <= z < Z.of_nat n -> f z = true.
Proof.
  unfold check_below. rewrite forallb_forall. intros Hall z Hz.
  specialize (Hall (Z.to_nat z)). rewrite Z2Nat.id in Hall by lia.
  apply Hall, in_seq. lia.
Qed.

Lemma land_ones_range (a : Z) (k : Z) :
  0 <= k -> 0 <= Z.land a (Z.ones k) < 2 ^ k.
Proof.
  intros Hk. rewrite Z.land_ones by lia. apply Z.mod_pos_bound. lia.
Qed.

Lemma pid_high_range (pid : Z) : 0 <= Z.land (Z.shiftr pid 8) 0x1F < 32.
Proof. apply (land_ones_range (Z.shiftr pid 8) 5). lia. Qed.

Lemma cc_low_range (cc : Z) : 0 <= Z.land cc 0x0F < 16.
Proof. apply (land_ones_range cc 4). lia. Qed.

Lemma flag_masked (pusi : bool) (h : Z) :
  0 <= h < 32 -> Z.land (Z.lor (if pusi then 0x40 else 0x00) h) 0x1F = h.
Proof.
  intros Hh.
  assert (Hc : (Z.land (Z.lor (if pusi then 0x40 else 0x00) h) 0x1F =? h) = true).
  { apply (check_below_sound
             (fun h => Z.land (Z.lor (if pusi then 0x40 else 0x00) h) 0x1F =? h) 32);
      [destruct pusi; vm_compute; reflexivity | lia]. }
  lia.
Qed.

Lemma flag_bit (pusi : bool) (h : Z) :
  0 <= h < 32 -> Z.testbit (Z.lor (if pusi then 0x40 else 0x00) h) 6 = pusi.
Proof.
  intros Hh.
  assert (Hc : Bool.eqb (Z.testbit (Z.lor (if pusi then 0x40 else 0x00) h) 6) pusi = true).
  { apply (check_below_sound
             (fun h => Bool.eqb (Z.testbit (Z.lor (if pusi then 0x40 else 0x00) h) 6) pusi) 32);
      [destruct pusi; vm_compute; reflexivity | lia]. }
  now apply Bool.eqb_prop in Hc.
Qed.

Lemma afc_bits (afc c : Z) :
  0 <= afc < 4 -> 0 <= c < 16 -> Z.land (Z.shiftr (Z.lor (Z.shiftl afc 4) c) 4) 3 = afc.
Proof.
  intros Ha Hc.
  assert (H : (Z.land (Z.shiftr (Z.lor (Z.shiftl afc 4) c) 4) 3 =? afc) = true).
  { revert c Hc. apply (check_below_sound
      (fun c => Z.land (Z.shiftr (Z.lor (Z.shiftl afc 4) c) 4) 3 =? afc) 16).
    assert (afc = 0 \/ afc = 1 \/ afc = 2 \/ afc = 3) as [-> | [-> | [-> | ->]]] by lia;
      vm_compute; reflexivity. }
  lia.
Qed.

Lemma pid_bits (pid : Z) :
  Z.lor (Z.shiftl (Z.land (Z.shiftr pid 8) 0x1F) 8) (Z.land pid 0xFF)
  = Z.land pid 0x1FFF.
Proof.
  apply Z.bits_inj'. intros n Hn.
  rewrite Z.lor_spec, !Z.land_spec.
  change 0xFF with (Z.ones 8). change 0x1FFF with (Z.ones 13).
  destruct (Z.lt_ge_cases n 8).
  - rewrite Z.shiftl_spec_low by lia. simpl.
    rewrite !Z.ones_spec_low by lia. reflexivity.
  - rewrite Z.shiftl_spec_high by lia. rewrite Z.land_spec, Z.shiftr_spec by lia.
    replace (n - 8 + 8) with n by lia.
    change 0x1F with (Z.ones 5).
    rewrite (Z.ones_spec_high 8) by lia.
    destruct (Z.lt_ge_cases n 13).
    + rewrite !Z.ones_spec_low by lia. now rewrite andb_false_r, orb_false_r.
    + rewrite !Z.ones_spec_high by lia. now rewrite !andb_false_r.
Qed.

Lemma land_13_id (pid : Z) : 0 <= pid < 0x2000 -> Z.land pid 0x1FFF = pid.
Proof.
  intros H. change 0x1FFF with (Z.ones 13). rewrite Z.land_ones by lia.
  apply Z.mod_small. lia.
Qed.

(** ** Fragments *)

Lemma pieces_concat (n : nat) (fuel : nat) (l : list Z) :
  (0 < n)%nat -> (length l <= fuel)%nat -> concat (pieces fuel n l) = l.
Proof.
  intros Hn. revert l. induction fuel as [|fuel IH]; intros l Hl.
  - destruct l; [reflexivity | simpl in Hl; lia].
  - destruct l as [|b l']; [reflexivity|].
    change (concat (take n (b :: l') :: pieces fuel n (drop n (b :: l'))) = b :: l').
    simpl concat. rewrite IH.
    + apply take_drop.
    + rewrite length_drop. simpl in *. lia.
Qed.

Lemma pieces_sizes (n : nat) (fuel : nat) (l : list Z) :
  (0 < n)%nat -> Forall (fun c => (0 < length c <= n)%nat) (pieces fuel n l).
Proof.
  intros Hn. revert l. induction fuel as [|fuel IH]; intros l; [constructor|].
  destruct l as [|b l']; [constructor|].
  change (Forall (fun c => (0 < length c <= n)%nat)
            (take n (b :: l') :: pieces fuel n (drop n (b :: l')))).
  constructor; [|apply IH].
  rewrite length_take. simpl. lia.
Qed.

Lemma pieces_exact (n : nat) (pkts : list (list Z)) (fuel : nat) :
  (0 < n)%nat -> Forall (fun p => length p = n) pkts ->
  (length (concat pkts) <= fuel)%nat -> pieces fuel n (concat pkts) = pkts.
Proof.
  intros Hn Hall. revert fuel. induction Hall as [|p pkts Hp Hall IH]; intros fuel Hf.
  - destruct fuel; reflexivity.
  - simpl in Hf. rewrite length_app in Hf.
    destruct fuel as [|fuel]; [lia|].
    simpl concat. destruct p as [|b p']; [simpl in Hp; lia|].
    change (take n ((b :: p') ++ concat pkts)
            :: pieces fuel n (drop n ((b :: p') ++ concat pkts)) = (b :: p') :: pkts).
    rewrite take_app_length', drop_app_length' by (symmetry; exact Hp).
    f_equal. apply IH. lia.
Qed.

Lemma fragments_single (l : list Z) :
  (0 < length l <= TS_PAYLOAD_SIZE)%nat -> fragments l = [l].
Proof.
  intros Hl. unfold fragments. destruct l as [|b l']; [simpl in Hl; lia|].
  change (take TS_PAYLOAD_SIZE (b :: l')
          :: pieces (length l') TS_PAYLOAD_SIZE (drop TS_PAYLOAD_SIZE (b :: l')) = [b :: l']).
  rewrite take_ge, drop_ge by lia. destruct (length l'); reflexivity.
Qed.

Lemma fragments_concat (l : list Z) : concat (fragments l) = l.
Proof. apply pieces_concat; [unfold TS_PAYLOAD_SIZE; lia | lia]. Qed.

Lemma fragments_sizes (l : list Z) :
  Forall (fun c => (length c <= TS_PAYLOAD_SIZE)%nat) (fragments l).
Proof.
  eapply Forall_impl; [apply pieces_sizes; unfold TS_PAYLOAD_SIZE; lia|].
  simpl. intros c Hc. lia.
Qed.

Lemma fragments_cons (b : Z) (l : list Z) :
  exists f rest, fragments (b :: l) = f :: rest.
Proof. unfold fragments. simpl length. eexists _, _. reflexivity. Qed.

(** ** TS packets read back *)

Lemma adaptation_stuffing_length (r : nat) :
  length (adaptation_stuffing r) = (TS_PAYLOAD_SIZE - r)%nat \/ (TS_PAYLOAD_SIZE <= r)%nat.
Proof.
  unfold adaptation_stuffing.
  destruct (TS_PAYLOAD_SIZE - r - 1)%nat eqn:E; simpl.
  - lia.
  - rewrite repeat_length. lia.
Qed.

Lemma ts_packet_length (pid : Z) (pusi : bool) (cc : Z) (payload : list Z) :
  (length payload <= TS_PAYLOAD_SIZE)%nat ->
  length (ts_packet pid pusi cc payload) = TS_PACKET_SIZE.
Proof.
  intros Hl. unfold ts_packet.
  destruct (Nat.eqb_spec (length payload) TS_PAYLOAD_SIZE) as [E|E].
  - rewrite length_app, E. reflexivity.
  - rewrite !length_app.
    destruct (adaptation_stuffing_length (length payload)) as [->|]; [|lia].
    unfold TS_PAYLOAD_SIZE, TS_PACKET_SIZE in *. simpl. lia.
Qed.

Lemma ts_packet_pid (pid : Z) (pusi : bool) (cc : Z) (payload : list Z) :
  ts_pid (ts_packet pid pusi cc payload) = Z.land pid 0x1FFF.
Proof.
  unfold ts_pid, ts_packet.
  destruct (length payload =? TS_PAYLOAD_SIZE)%nat; simpl nth;
    rewrite flag_masked by apply pid_high_range; apply pid_bits.
Qed.

Lemma ts_packet_pusi (pid : Z) (pusi : bool) (cc : Z) (payload : list Z) :
  ts_pusi (ts_packet pid pusi cc payload) = pusi.
Proof.
  unfold ts_pusi, ts_packet.
  destruct (length payload =? TS_PAYLOAD_SIZE)%nat; simpl nth;
    apply flag_bit, pid_high_range.
Qed.

Lemma ts_packet_payload (pid : Z) (pusi : bool) (cc : Z) (payload : list Z) :
  (length payload <= TS_PAYLOAD_SIZE)%nat ->
  ts_payload (ts_packet pid pusi cc payload) = payload.
Proof.
  intros Hl. unfold ts_payload, ts_afc, ts_packet.
  destruct (Nat.eqb_spec (length payload) TS_PAYLOAD_SIZE) as [E|E].
  - simpl nth. rewrite afc_bits by (try apply cc_low_range; lia). reflexivity.
  - simpl nth. rewrite afc_bits by (try apply cc_low_range; lia).
    change (3 =? 1) with false. change (3 =? 3) with true. cbv iota.
    rewrite Nat2Z.id, app_assoc. apply drop_app_length'.
    rewrite length_app.
    destruct (adaptation_stuffing_length (length payload)) as [->|]; [|lia].
    unfold TS_PAYLOAD_SIZE in *. simpl. lia.
Qed.

(** ** PES packets read back *)

Lemma pes_payload_of (unit : ES_unit) : pes_payload (pes_of unit) = data unit.
Proof. reflexivity. Qed.

Lemma packetize_app_continuation (pid cc : Z) (frags : list (list Z))
    (more : list (list Z)) :
  Forall (fun c => (length c <= TS_PAYLOAD_SIZE)%nat) frags ->
  continuation (packetize pid false cc frags ++ more)
  = concat frags ++ continuation more.
Proof.
  intros Hall. revert cc. induction Hall as [|f frags Hf Hall IH]; intros cc.
  - reflexivity.
  - simpl. rewrite ts_packet_pusi, ts_packet_payload by exact Hf.
    rewrite IH. now rewrite app_assoc.
Qed.

Lemma packetize_app_skipped (pid cc : Z) (frags : list (list Z))
    (more : list (list Z)) :
  pes_packets (packetize pid false cc frags ++ more) = pes_packets more.
Proof.
  revert cc. induction frags as [|f frags IH]; intros cc; [reflexivity|].
  simpl. rewrite ts_packet_pusi. apply IH.
Qed.


Lemma group_read_back (pid : Z) (bytes : list Z) (group more : list (list Z)) :
  bytes <> [] -> carries pid bytes group -> unit_boundary more ->
  pes_packets (group ++ more) = bytes :: pes_packets more
  /\ unit_boundary (group ++ more).
Proof.
  intros Hne [cc ->] Hmore.
  destruct bytes as [|b bytes']; [congruence|].
  pose proof (fragments_concat (b :: bytes')) as Hcat.
  pose proof (fragments_sizes (b :: bytes')) as Hsz.
  destruct (fragments_cons b bytes') as (f & rest & Hfr).
  rewrite Hfr in *. inversion Hsz as [|? ? Hf Hrest]; subst.
  unfold unit_boundary. simpl.
  rewrite ts_packet_pusi, ts_packet_payload by exact Hf.
  rewrite packetize_app_continuation, packetize_app_skipped by exact Hrest.
  rewrite Hmore, app_nil_r. simpl in Hcat. rewrite Hcat. auto.
Qed.

Lemma groups_read_back (pid : Z) (units : list ES_unit) (groups : list (list (list Z))) :
  Forall2 (fun g u => carries pid (pes_of u) g) groups units ->
  pes_packets (concat groups) = map pes_of units /\ unit_boundary (concat groups).
Proof.
  induction 1 as [|g u groups units Hg Hall [IH1 IH2]]; [split; reflexivity|].
  simpl concat. simpl map.
  destruct (group_read_back pid (pes_of u) g (concat groups)) as [-> Hb]; try assumption.
  - discriminate.
  - now rewrite IH1.
Qed.

Lemma carries_pid (pid : Z) (bytes : list Z) (group : list (list Z)) :
  carries pid bytes group -> Forall (fun pkt => ts_pid pkt = Z.land pid 0x1FFF) group.
Proof.
  intros [cc ->]. generalize (fragments bytes) as frags. generalize true as first.
  intros first frags. revert first cc.
  induction frags as [|f frags IH]; intros first cc; constructor.
  - apply ts_packet_pid.
  - apply IH.
Qed.

Lemma carries_lengths (pid : Z) (bytes : list Z) (group : list (list Z)) :
  carries pid bytes group -> Forall (fun pkt => length pkt = TS_PACKET_SIZE) group.
Proof.
  intros [cc ->]. pose proof (fragments_sizes bytes) as Hsz. revert Hsz.
  generalize (fragments bytes) as frags. generalize true as first.
  intros first frags Hsz. revert first cc.
  induction Hsz as [|f frags Hf Hsz IH]; intros first cc; constructor.
  - now apply ts_packet_length.
  - apply IH.
Qed.

(** ** The TS writer *)

Lemma write_TS_packet_cases (w : TS_writer) (pid : Z) (pusi : bool) (payload : list Z) :
  (room w = Some O /\ write_TS_packet w pid pusi payload = (1, w))
  \/ (room w <> Some O
      /\ write_TS_packet w pid pusi payload
         = (0, TSWriter (written w ++ [ts_packet pid pusi (next_cc w pid) payload])
                        (<[pid := (next_cc w pid + 1) mod 16]> (continuity w))
                        (Nat.pred <$> room w))).
Proof.
  unfold write_TS_packet. destruct (room w) as [[|n]|]; [left | right | right];
    split; congruence.
Qed.

Lemma next_cc_after (w : TS_writer) (pid : Z) (pkts : list (list Z)) (v : Z)
    (r : option nat) :
  next_cc (TSWriter pkts (<[pid := v]> (continuity w)) r) pid = v.
Proof. unfold next_cc. simpl. now rewrite lookup_insert_eq. Qed.

Lemma write_fragments_written (frags : list (list Z)) (w : TS_writer) (pid : Z)
    (first : bool) :
  exists k,
    written (write_fragments w pid first frags).2
    = written w ++ take k (packetize pid first (next_cc w pid) frags)
    /\ ((write_fragments w pid first frags).1 = 0 ->
        written (write_fragments w pid first frags).2
        = written w ++ packetize pid first (next_cc w pid) frags).
Proof.
  revert w first. induction frags as [|f frags IH]; intros w first.
  - exists O. simpl. rewrite app_nil_r. auto.
  - simpl write_fragments.
    destruct (write_TS_packet_cases w pid first f) as [[_ ->] | [_ ->]].
    + exists O. simpl. rewrite app_nil_r. split; [reflexivity | discriminate].
    + change (0 =? 0) with true. cbv iota.
      destruct (IH (TSWriter (written w ++ [ts_packet pid first (next_cc w pid) f])
                      (<[pid := (next_cc w pid + 1) mod 16]> (continuity w))
                      (Nat.pred <$> room w)) false) as (k & Hk & Hz).
      rewrite next_cc_after in Hk, Hz. simpl written in Hk, Hz.
      exists (S k). split.
      * rewrite Hk, <- app_assoc. reflexivity.
      * intros E. rewrite (Hz E), <- app_assoc. reflexivity.
Qed.

Lemma write_fragments_room (frags : list (list Z)) (w : TS_writer) (pid : Z)
    (first : bool) :
  room_for (length frags) (room w) ->
  (write_fragments w pid first frags).1 = 0
  /\ room (write_fragments w pid first frags).2
     = (fun r => (r - length frags)%nat) <$> room w.
Proof.
  revert w first. induction frags as [|f frags IH]; intros w first Hroom.
  - simpl. split; [reflexivity|]. destruct (room w); simpl; [f_equal; lia | reflexivity].
  - simpl write_fragments.
    destruct (write_TS_packet_cases w pid first f) as [[E _] | [_ ->]].
    + rewrite E in Hroom. simpl in Hroom. lia.
    + change (0 =? 0) with true. cbv iota.
      destruct (IH (TSWriter (written w ++ [ts_packet pid first (next_cc w pid) f])
                      (<[pid := (next_cc w pid + 1) mod 16]> (continuity w))
                      (Nat.pred <$> room w)) false) as [-> ->].
      * simpl. destruct (room w); simpl in *; lia.
      * split; [reflexivity|]. simpl. destruct (room w); simpl; [f_equal; lia | reflexivity].
Qed.

Lemma take_data_len (unit : ES_unit) : take (data_len unit) (data unit) = data unit.
Proof. apply take_ge. unfold data_len. lia. Qed.

Lemma write_PES_is_payload (w : TS_writer) (unit : ES_unit) (pid : Z) :
  write_ES_as_TS_PES_packet w (data unit) (data_len unit) pid DEFAULT_VIDEO_STREAM_ID
  = write_fragments w pid true (fragments (pes_of unit)).
Proof.
  unfold write_ES_as_TS_PES_packet, write_TS_payload, pes_of.
  now rewrite take_data_len.
Qed.

(** ** Units written in a row *)

Lemma emit_units_written (video_pid : Z) (units : list ES_unit) (w : TS_writer) :
  exists groups rest,
    Forall2 (fun g u => carries video_pid (pes_of u) g) groups units
    /\ written w ++ concat groups = written (emit_units w video_pid units).2 ++ rest
    /\ ((emit_units w video_pid units).1 = 0 -> rest = []).
Proof.
  revert w. induction units as [|u units IH]; intros w.
  - exists [], []. simpl. auto.
  - simpl emit_units. rewrite write_PES_is_payload.
    destruct (write_fragments_written (fragments (pes_of u)) w video_pid true)
      as (k & Hk & Hz).
    destruct (write_fragments w video_pid true (fragments (pes_of u))) as [err w1].
    cbn [fst snd] in Hk, Hz. cbv beta iota.
    destruct (Z.eqb_spec err 0) as [-> | Hne].
    + destruct (IH w1) as (groups & rest & Hall & Heq & Hrest).
      exists (packetize video_pid true (next_cc w video_pid) (fragments (pes_of u))
              :: groups), rest.
      split; [constructor; [eexists; reflexivity | exact Hall]|].
      split; [|exact Hrest].
      rewrite concat_cons, app_assoc, <- Hz by reflexivity. exact Heq.
    + exists (packetize video_pid true (next_cc w video_pid) (fragments (pes_of u))
              :: map (fun u' => packetize video_pid true 0 (fragments (pes_of u'))) units),
        (drop k (packetize video_pid true (next_cc w video_pid) (fragments (pes_of u)))
         ++ concat (map (fun u' => packetize video_pid true 0 (fragments (pes_of u'))) units)).
      split; [|split].
      * constructor; [eexists; reflexivity|].
        clear. induction units; constructor; [eexists; reflexivity | assumption].
      * cbn [fst snd]. rewrite concat_cons, Hk. rewrite <- !app_assoc. f_equal.
        rewrite app_assoc. now rewrite take_drop.
      * cbn [fst snd]. intros ->. congruence.
Qed.

Lemma emit_units_unlimited (video_pid : Z) (units : list ES_unit) (w : TS_writer) :
  room w = None ->
  (emit_units w video_pid units).1 = 0 /\ room (emit_units w video_pid units).2 = None.
Proof.
  revert w. induction units as [|u units IH]; intros w Hroom; [simpl; auto|].
  simpl emit_units. rewrite write_PES_is_payload.
  destruct (write_fragments_room (fragments (pes_of u)) w video_pid true) as [E1 E2].
  { rewrite Hroom. exact I. }
  destruct (write_fragments w video_pid true (fragments (pes_of u))) as [err w1].
  cbn [fst snd] in E1, E2. subst err. cbv beta iota. change (0 =? 0) with true. cbv iota.
  apply IH. rewrite E2, Hroom. reflexivity.
Qed.

(** ** The start code scanner *)

Lemma before_from_prefix (l : list Z) : before_prefix l ++ from_prefix l = l.
Proof.
  induction l as [|b l IH]; [reflexivity|].
  cbn [before_prefix from_prefix]. destruct (at_prefix (b :: l)); [reflexivity|].
  rewrite <- app_comm_cons. now rewrite IH.
Qed.

Lemma from_prefix_length (l : list Z) : (length (from_prefix l) <= length l)%nat.
Proof.
  rewrite <- (before_from_prefix l) at 2. rewrite length_app. lia.
Qed.

Lemma from_prefix_suffix (l : list Z) : from_prefix l `suffix_of` l.
Proof. exists (before_prefix l). symmetry. apply before_from_prefix. Qed.

Lemma from_prefix_at (l : list Z) : at_prefix l = true -> from_prefix l = l.
Proof.
  destruct l as [|b l]; [discriminate|]. cbn [from_prefix]. now intros ->.
Qed.

Lemma from_prefix_starts (l : list Z) :
  from_prefix l = [] \/ at_prefix (from_prefix l) = true.
Proof.
  induction l as [|b l IH]; [now left|].
  cbn [from_prefix]. destruct (at_prefix (b :: l)) eqn:E; [now right | exact IH].
Qed.

Lemma from_prefix_idem (l : list Z) : from_prefix (from_prefix l) = from_prefix l.
Proof.
  destruct (from_prefix_starts l) as [-> | H]; [reflexivity | now apply from_prefix_at].
Qed.

Lemma at_prefix_inv (l : list Z) :
  at_prefix l = true -> exists rest, l = 0 :: 0 :: 1 :: rest.
Proof.
  destruct l as [|b0 [|b1 [|b2 rest]]]; try discriminate.
  simpl. intros H. apply andb_prop in H as [H H2]. apply andb_prop in H as [H0 H1].
  exists rest. f_equal; [lia|]. f_equal; [lia|]. f_equal. lia.
Qed.

(** ** Units *)

Lemma next_unit_never_fails (es : ES) (err : Z) :
  find_and_build_next_ES_unit es <> NextError err.
Proof.
  unfold find_and_build_next_ES_unit.
  destruct (from_prefix (es_input es)) as [|? [|? [|? [|? ?]]]]; discriminate.
Qed.

Lemma next_unit_shrinks (es es' : ES) (unit : ES_unit) :
  find_and_build_next_ES_unit es = NextUnit unit es' ->
  (length (es_input es') + 4 <= length (es_input es))%nat.
Proof.
  unfold find_and_build_next_ES_unit.
  pose proof (from_prefix_length (es_input es)) as Hlen.
  destruct (from_prefix (es_input es)) as [|b0 [|b1 [|b2 [|sc rest]]]];
    try discriminate.
  intros [= <- <-]. simpl es_input.
  pose proof (from_prefix_length rest). simpl in Hlen. lia.
Qed.

Lemma next_unit_empty (es : ES) :
  es_input es = [] -> find_and_build_next_ES_unit es = NextEOF.
Proof. unfold find_and_build_next_ES_unit. now intros ->. Qed.

Lemma units_of_fuel (f1 f2 : nat) (es : ES) :
  (length (es_input es) <= f1)%nat -> (length (es_input es) <= f2)%nat ->
  units_of f1 es = units_of f2 es.
Proof.
  revert f2 es. induction f1 as [|f1 IH]; intros f2 es H1 H2.
  - assert (E : es_input es = []) by (destruct (es_input es); [reflexivity | simpl in H1; lia]).
    destruct f2; [reflexivity|]. simpl. now rewrite next_unit_empty.
  - destruct f2 as [|f2].
    + assert (E : es_input es = []) by (destruct (es_input es); [reflexivity | simpl in H2; lia]).
      simpl. now rewrite next_unit_empty.
    + simpl. destruct (find_and_build_next_ES_unit es) as [unit es'| |] eqn:E;
        try reflexivity.
      apply next_unit_shrinks in E. f_equal. apply IH; lia.
Qed.

Lemma all_units_next (es es' : ES) (unit : ES_unit) :
  find_and_build_next_ES_unit es = NextUnit unit es' ->
  all_units es = unit :: all_units es'.
Proof.
  intros E. pose proof (next_unit_shrinks _ _ _ E) as Hlen.
  unfold all_units. destruct (length (es_input es)) as [|n] eqn:En; [lia|].
  simpl. rewrite E. f_equal. apply units_of_fuel; lia.
Qed.

Lemma all_units_EOF (es : ES) :
  find_and_build_next_ES_unit es = NextEOF -> all_units es = [].
Proof.
  intros E. unfold all_units. destruct (length (es_input es)); [reflexivity|].
  simpl. now rewrite E.
Qed.

Lemma valid_ES_suffix (l l' : list Z) : l' `suffix_of` l -> valid_ES l -> valid_ES l'.
Proof. unfold valid_ES. intros Hs Hv Hc. apply Hv. now transitivity l'. Qed.

Lemma units_rebuild (fuel : nat) (l : list Z) (posn : Z) :
  (length l <= fuel)%nat -> valid_ES l ->
  concat (map data (units_of fuel (MkES l posn))) = from_prefix l.
Proof.
  revert l posn. induction fuel as [|fuel IH]; intros l posn Hlen Hv.
  - destruct l; [reflexivity | simpl in Hlen; lia].
  - simpl units_of. unfold find_and_build_next_ES_unit. simpl es_input.
    pose proof (from_prefix_suffix l) as Hsuf.
    pose proof (from_prefix_length l) as Hfl.
    destruct (from_prefix_starts l) as [E | Hat]; [now rewrite E|].
    apply at_prefix_inv in Hat as [rest E]. rewrite E in *.
    destruct rest as [|sc rest]; [exfalso; exact (Hv Hsuf)|].
    rewrite map_cons, concat_cons. simpl data.
    rewrite IH.
    + rewrite from_prefix_idem. simpl. do 4 f_equal. apply before_from_prefix.
    + pose proof (from_prefix_length rest). simpl in Hfl. lia.
    + eapply valid_ES_suffix; [|exact Hv].
      transitivity (0 :: 0 :: 1 :: sc :: rest); [|exact Hsuf].
      transitivity rest; [apply from_prefix_suffix|].
      now exists [0; 0; 1; sc].
Qed.

Lemma all_units_rebuild (bytes : list Z) :
  valid_ES bytes ->
  concat (map data (all_units (open_elementary_stream bytes)))
  = from_first_startcode bytes.
Proof. intros Hv. apply units_rebuild; [simpl; lia | exact Hv]. Qed.

(** ** The loop of transfer_data *)

Lemma capped_nil (max2 count : Z) : capped max2 count [] = [].
Proof. unfold capped. destruct (0 <? max2); [apply take_nil | reflexivity]. Qed.

Lemma capped_cons (max2 count : Z) (u : ES_unit) (units : list ES_unit) :
  max2 <= 0 \/ count < max2 ->
  capped max2 count (u :: units)
  = u :: (if (0 <? max2) && (max2 <=? count + 1) then []
          else capped max2 (count + 1) units).
Proof.
  intros H. unfold capped. destruct (Z.ltb_spec 0 max2) as [Hpos|Hneg]; simpl andb.
  - replace (Z.to_nat (max2 - count)) with (S (Z.to_nat (max2 - (count + 1)))) by lia.
    rewrite firstn_cons. f_equal.
    destruct (Z.leb_spec max2 (count + 1)); [|reflexivity].
    replace (max2 - (count + 1)) with 0 by lia. reflexivity.
  - reflexivity.
Qed.

Lemma write_ES_unit_as_TS_result (unit : ES_unit) (video_pid : Z) (s : io) :
  let r := write_ES_as_TS_PES_packet (io_out s) (data unit) (data_len unit) video_pid
             DEFAULT_VIDEO_STREAM_ID in
  (write_ES_unit_as_TS unit video_pid s).1 = r.1
  /\ io_out (write_ES_unit_as_TS unit video_pid s).2 = r.2
  /\ io_es (write_ES_unit_as_TS unit video_pid s).2 = io_es s.
Proof.
  unfold write_ES_unit_as_TS, bind, on_output, say, ret.
  destruct (write_ES_as_TS_PES_packet (io_out s) (data unit) (data_len unit) video_pid
              DEFAULT_VIDEO_STREAM_ID) as [err w].
  cbv zeta. cbn [fst snd]. destruct (Z.eqb_spec err 0) as [-> | Hne]; cbn; auto.
Qed.

Lemma transfer_loop_refines (fuel : nat) (video_pid max2 : Z) (verbose : bool) :
  forall (count : Z) (s s' : io) (e : loop_end),
  (length (es_input (io_es s)) < fuel)%nat ->
  max2 <= 0 \/ count < max2 ->
  transfer_loop fuel video_pid max2 verbose count s = (e, s') ->
  let units := capped max2 count (all_units (io_es s)) in
  let r := emit_units (io_out s) video_pid units in
  io_out s' = r.2
  /\ e = (if r.1 =? 0 then LoopBreak (count + Z.of_nat (length units))
          else LoopReturn r.1).
Proof.
  induction fuel as [|fuel IH]; intros count s s' e Hfuel Hcap E; [lia|].
  cbv zeta. cbn [transfer_loop] in E. unfold bind at 1 in E. unfold next_ES_unit in E.
  destruct (find_and_build_next_ES_unit (io_es s)) as [unit es'| |err] eqn:Enext.
  - (* a unit was read *)
    rewrite (all_units_next _ _ _ Enext), capped_cons by exact Hcap.
    cbn [emit_units].
    unfold bind at 1 in E.
    set (s1 := (if verbose then say (report_ES_unit false unit) else ret tt)
                 (IO es' (io_out s) (io_print s))) in E.
    assert (Hs1 : io_out s1.2 = io_out s /\ io_es s1.2 = es').
    { unfold s1. destruct verbose; cbn; auto. }
    destruct s1 as [[] s1']. cbn [snd] in Hs1. destruct Hs1 as [Hout Hes].
    unfold bind at 1 in E.
    destruct (write_ES_unit_as_TS_result unit video_pid s1') as (Herr & Hw & Hes').
    rewrite Hout in Herr, Hw.
    destruct (write_ES_unit_as_TS unit video_pid s1') as [err s2].
    cbn [fst snd] in Herr, Hw, Hes'.
    destruct (write_ES_as_TS_PES_packet (io_out s) (data unit) (data_len unit)
                video_pid DEFAULT_VIDEO_STREAM_ID) as [err' w'].
    cbn [fst snd] in Herr, Hw. subst err' w'.
    destruct (Z.eqb_spec err 0) as [-> | Hne]; cbn [negb] in E.
    + destruct ((0 <? max2) && (max2 <=? count + 1)) eqn:Ecap.
      * injection E as <- <-. cbn. split; [reflexivity|]. f_equal.
      * apply IH in E.
        -- rewrite Hes', Hes in E. destruct E as [-> ->]. split; [reflexivity|].
           destruct (_ =? 0); [|reflexivity]. f_equal. cbn [length]. lia.
        -- rewrite Hes', Hes. apply next_unit_shrinks in Enext. lia.
        -- destruct (Z.ltb_spec 0 max2); [|lia].
           destruct (Z.leb_spec max2 (count + 1)); [discriminate | lia].
    + unfold bind, say, ret in E. injection E as <- <-. cbn [fst snd io_out].
      destruct (Z.eqb_spec err 0); [contradiction|]. auto.
  - (* end of the stream *)
    injection E as <- <-.
    rewrite (all_units_EOF _ Enext), capped_nil. cbn. split; [reflexivity|].
    f_equal. lia.
  - now apply next_unit_never_fails in Enext.
Qed.

(** ** transfer_data *)

Lemma transfer_data_refines (pmt_pid video_pid stream_type max2 : Z)
    (verbose quiet : bool) (s s' : io) (r : option Z) :
  transfer_data pmt_pid video_pid stream_type max2 verbose quiet s = (r, s') ->
  r = Some (transfer_result (io_out s) (io_es s) pmt_pid video_pid stream_type max2).1
  /\ io_out s'
     = (transfer_result (io_out s) (io_es s) pmt_pid video_pid stream_type max2).2.
Proof.
  intros E. unfold transfer_data in E. unfold transfer_result.
  unfold bind at 1 in E.
  set (s0 := (if negb quiet then say _ else ret tt) s) in E.
  assert (Hs0 : io_out s0.2 = io_out s /\ io_es s0.2 = io_es s).
  { unfold s0. destruct quiet; cbn; auto. }
  destruct s0 as [[] s0']. cbn [snd] in Hs0. destruct Hs0 as [Hout Hes].
  unfold bind at 1 in E. unfold on_output in E. rewrite Hout in E.
  destruct (write_TS_program_data (io_out s) 1 1 pmt_pid video_pid stream_type)
    as [err w1].
  destruct (Z.eqb_spec err 0) as [-> | Hne]; cbn [negb] in E.
  - unfold bind at 1 in E. unfold bind at 1 in E.
    destruct (transfer_loop _ _ _ _ _ _) as [e s2] eqn:Eloop.
    apply transfer_loop_refines in Eloop; [|unfold loop_bound; cbn; lia | lia].
    cbv zeta in Eloop. cbn [io_es io_out] in Eloop. rewrite Hes in Eloop.
    destruct Eloop as [H1 ->].
    destruct (emit_units w1 video_pid (capped max2 0 (all_units (io_es s))))
      as [err w2]. cbn [fst snd] in *.
    destruct (Z.eqb_spec err 0) as [-> | Hne].
    + destruct quiet; cbn in E; injection E as <- <-; auto.
    + cbn in E. injection E as <- <-. auto.
  - cbn in E. injection E as <- <-. auto.
Qed.

(** ** PAT and PMT *)

Lemma pat_section_length (tsid prog pmt_pid : Z) :
  length (pat_section tsid prog pmt_pid) = 16%nat.
Proof. reflexivity. Qed.

Lemma pmt_section_length (prog pid stream_type : Z) :
  length (pmt_section prog pid stream_type) = 21%nat.
Proof. reflexivity. Qed.

Lemma write_section_single (w : TS_writer) (pid : Z) (section : list Z) :
  (length section < TS_PAYLOAD_SIZE)%nat ->
  write_section w pid section = write_fragments w pid true [0x00 :: section]
  /\ fragments (0x00 :: section) = [0x00 :: section].
Proof.
  intros Hlen. unfold write_section, write_TS_payload.
  rewrite fragments_single by (simpl; lia). auto.
Qed.

Lemma write_section_cases (w : TS_writer) (pid : Z) (section : list Z) :
  (length section < TS_PAYLOAD_SIZE)%nat ->
  exists pkt, carries pid (0x00 :: section) [pkt]
    /\ ((room w = Some O /\ write_section w pid section = (1, w))
        \/ (room w <> Some O
            /\ exists c, write_section w pid section
               = (0, TSWriter (written w ++ [pkt]) c (Nat.pred <$> room w)))).
Proof.
  intros Hlen. destruct (write_section_single w pid section Hlen) as [-> Hfr].
  exists (ts_packet pid true (next_cc w pid) (0x00 :: section)). split.
  - exists (next_cc w pid). now rewrite Hfr.
  - cbn [write_fragments].
    destruct (write_TS_packet_cases w pid true (0x00 :: section)) as [[E ->] | [E ->]].
    + left. auto.
    + right. split; [exact E|]. eexists. reflexivity.
Qed.

Lemma program_data_written (w : TS_writer) (pmt_pid video_pid stream_type : Z) :
  exists pat pmt rest,
    is_PAT pmt_pid pat /\ is_PMT pmt_pid video_pid stream_type pmt
    /\ written w ++ [pat; pmt]
       = written (write_TS_program_data w 1 1 pmt_pid video_pid stream_type).2 ++ rest
    /\ ((write_TS_program_data w 1 1 pmt_pid video_pid stream_type).1 = 0 -> rest = []).
Proof.
  unfold write_TS_program_data.
  destruct (write_section_cases w 0 (pat_section 1 1 pmt_pid)) as (pat & Hpat & Hw).
  { rewrite pat_section_length. unfold TS_PAYLOAD_SIZE. lia. }
  destruct Hw as [[_ ->] | [_ [c ->]]].
  - destruct (write_section_cases w pmt_pid (pmt_section 1 video_pid stream_type))
      as (pmt & Hpmt & _).
    { rewrite pmt_section_length. unfold TS_PAYLOAD_SIZE. lia. }
    exists pat, pmt, [pat; pmt]. cbn [fst snd].
    split; [assumption|]. split; [assumption|]. split; [reflexivity | discriminate].
  - change (0 =? 0) with true. cbv iota.
    set (w1 := TSWriter (written w ++ [pat]) c (Nat.pred <$> room w)).
    destruct (write_section_cases w1 pmt_pid (pmt_section 1 video_pid stream_type))
      as (pmt & Hpmt & Hw).
    { rewrite pmt_section_length. unfold TS_PAYLOAD_SIZE. lia. }
    destruct Hw as [[_ ->] | [_ [c' ->]]].
    + exists pat, pmt, [pmt]. cbn [fst snd]. unfold w1. cbn [written].
      rewrite <- app_assoc.
      split; [assumption|]. split; [assumption|]. split; [reflexivity | discriminate].
    + exists pat, pmt, []. cbn [fst snd written]. unfold w1. cbn [written].
      rewrite app_nil_r, <- app_assoc.
      split; [assumption|]. split; [assumption|]. split; reflexivity.
Qed.

Lemma program_data_room (w : TS_writer) (pmt_pid video_pid stream_type : Z) :
  room_for 2 (room w) ->
  (write_TS_program_data w 1 1 pmt_pid video_pid stream_type).1 = 0
  /\ room (write_TS_program_data w 1 1 pmt_pid video_pid stream_type).2
     = (fun r => (r - 2)%nat) <$> room w.
Proof.
  intros Hroom. unfold write_TS_program_data.
  destruct (write_section_cases w 0 (pat_section 1 1 pmt_pid)) as (pat & _ & Hw).
  { rewrite pat_section_length. unfold TS_PAYLOAD_SIZE. lia. }
  destruct Hw as [[E _] | [_ [c ->]]].
  { rewrite E in Hroom. simpl in Hroom. lia. }
  change (0 =? 0) with true. cbv iota.
  set (w1 := TSWriter (written w ++ [pat]) c (Nat.pred <$> room w)).
  destruct (write_section_cases w1 pmt_pid (pmt_section 1 video_pid stream_type))
    as (pmt & _ & Hw).
  { rewrite pmt_section_length. unfold TS_PAYLOAD_SIZE. lia. }
  destruct Hw as [[E _] | [_ [c' ->]]].
  { unfold w1 in E. cbn in E. destruct (room w) as [[|[|n]]|]; cbn in *;
      try discriminate; lia. }
  cbn. split; [reflexivity|]. destruct (room w); cbn; [f_equal; lia | reflexivity].
Qed.

(** ** What transfer_data leaves in the sink *)

Lemma transfer_result_written (w : TS_writer) (es : ES)
    (pmt_pid video_pid stream_type max2 : Z) :
  exists pat pmt groups rest,
    is_PAT pmt_pid pat /\ is_PMT pmt_pid video_pid stream_type pmt
    /\ Forall2 (fun g u => carries video_pid (pes_of u) g) groups
         (capped max2 0 (all_units es))
    /\ written w ++ pat :: pmt :: concat groups
       = written (transfer_result w es pmt_pid video_pid stream_type max2).2 ++ rest
    /\ ((transfer_result w es pmt_pid video_pid stream_type max2).1 = 0 -> rest = []).
Proof.
  unfold transfer_result.
  destruct (program_data_written w pmt_pid video_pid stream_type)
    as (pat & pmt & rest0 & Hpat & Hpmt & Heq0 & Hrest0).
  destruct (write_TS_program_data w 1 1 pmt_pid video_pid stream_type) as [err w1].
  cbn [fst snd] in Heq0, Hrest0.
  destruct (Z.eqb_spec err 0) as [-> | Hne].
  - rewrite (Hrest0 eq_refl), app_nil_r in Heq0.
    destruct (emit_units_written video_pid (capped max2 0 (all_units es)) w1)
      as (groups & rest & Hall & Heq & Hrest).
    exists pat, pmt, groups, rest. repeat split; try assumption.
    rewrite <- Heq, <- Heq0, <- app_assoc. reflexivity.
  - destruct (emit_units_written video_pid (capped max2 0 (all_units es)) w1)
      as (groups & _ & Hall & _ & _).
    exists pat, pmt, groups, (rest0 ++ concat groups). cbn [fst snd].
    repeat split; try assumption.
    + rewrite app_assoc, <- Heq0, <- app_assoc. reflexivity.
    + discriminate.
Qed.

Lemma transfer_result_unlimited (w : TS_writer) (es : ES)
    (pmt_pid video_pid stream_type max2 : Z) :
  room w = None ->
  (transfer_result w es pmt_pid video_pid stream_type max2).1 = 0.
Proof.
  intros Hroom. unfold transfer_result.
  destruct (program_data_room w pmt_pid video_pid stream_type) as [E1 E2].
  { now rewrite Hroom. }
  destruct (write_TS_program_data w 1 1 pmt_pid video_pid stream_type) as [err w1].
  cbn [fst snd] in E1, E2. subst err. change (0 =? 0) with true. cbv iota.
  apply emit_units_unlimited. now rewrite E2, Hroom.
Qed.

Lemma is_PAT_pid (pmt_pid : Z) (pkt : list Z) : is_PAT pmt_pid pkt -> ts_pid pkt = 0.
Proof.
  intros H. apply carries_pid in H. inversion H; subst. assumption.
Qed.

Lemma is_PMT_pid (pmt_pid video_pid stream_type : Z) (pkt : list Z) :
  is_PMT pmt_pid video_pid stream_type pkt -> ts_pid pkt = Z.land pmt_pid 0x1FFF.
Proof.
  intros H. apply carries_pid in H. inversion H; subst. assumption.
Qed.

Lemma is_PMT_stream_type (pmt_pid video_pid stream_type : Z) (pkt : list Z) :
  is_PMT pmt_pid video_pid stream_type pkt ->
  pmt_stream_type pkt = Z.land stream_type 0xFF.
Proof.
  intros [cc H]. rewrite fragments_single in H by (simpl; unfold TS_PAYLOAD_SIZE; lia).
  injection H as ->. unfold pmt_stream_type.
  rewrite ts_packet_payload by (simpl; unfold TS_PAYLOAD_SIZE; lia). reflexivity.
Qed.

(** ** main *)

Ltac run_steps :=
  unfold andthen, tell_unless, tell, log, go, exit, ret;
  cbn [printing trace output fst snd negb].

Lemma tell_only_prints (f : Printing.pstate -> Printing.pstate) : only_prints (tell f).
Proof. intros p. eexists. reflexivity. Qed.

Lemma go_only_prints : only_prints (go tt).
Proof. intros [pr tr out]. eexists. reflexivity. Qed.

Lemma tell_unless_only_prints (q : bool) (f : Printing.pstate -> Printing.pstate) :
  only_prints (tell_unless q f).
Proof.
  unfold tell_unless. destruct q; [apply go_only_prints | apply tell_only_prints].
Qed.

Lemma if_only_prints (c : bool) (m1 m2 : Prog unit) :
  only_prints m1 -> only_prints m2 -> only_prints (if c then m1 else m2).
Proof. now destruct c. Qed.

Lemma andthen_prints {B} (m : Prog unit) (k : unit -> Prog B) (p : process) :
  only_prints m ->
  exists pr, andthen m k p = k tt (Process pr (trace p) (output p)).
Proof. intros H. destruct (H p) as [pr E]. exists pr. unfold andthen. now rewrite E. Qed.

Lemma andthen_log {B} (e : event) (k : unit -> Prog B) (p : process) :
  andthen (log e) k p = k tt (Process (printing p) (trace p ++ [e]) (output p)).
Proof. reflexivity. Qed.

Lemma open_input_result (env : Env) (name : option string) (p : process) :
  exists pr,
    open_input env name p
    = (match read_input env name with
       | Some bytes => Go (open_elementary_stream bytes)
       | None => Exit 1
       end,
       Process pr (trace p ++ [EvOpenInput name]) (output p)).
Proof.
  destruct p as [pr tr out]. unfold open_input, read_input.
  destruct (match name with None => stdin env | Some n => files env n end);
    run_steps; eexists; reflexivity.
Qed.

Lemma decide_type_result (env : Env) (es : ES) (v : locals) (p : process) :
  exists pr,
    decide_type env es v p
    = match type_in_force env v (es_input es) with
      | Some t =>
        (Go (if force_stream_type v || use_stdin v then v else set_video_type t v),
         Process pr (trace p ++ detection v) (output p))
      | None =>
        (Exit 1, Process pr (trace p ++ detection v ++ [EvCloseInput]) (output p))
      end.
Proof.
  destruct p as [pr tr out]. unfold decide_type, type_in_force, detection.
  destruct (force_stream_type v || use_stdin v).
  - destruct (quiet v); run_steps; rewrite app_nil_r; eexists; reflexivity.
  - destruct (decide_ES_file_video_type env (es_input es)); [destruct (quiet v)|];
      run_steps; rewrite <- ?app_assoc; eexists; reflexivity.
Qed.

Lemma choose_stream_type_result (es : ES) (v : locals) (p : process) :
  exists pr,
    choose_stream_type es v p
    = match video_type v with
      | VIDEO_UNKNOWN => (Exit 1, Process pr (trace p ++ [EvCloseInput]) (output p))
      | t => (Go (stream_type_byte t), Process pr (trace p) (output p))
      end.
Proof.
  destruct p as [pr tr out]. unfold choose_stream_type.
  destruct (video_type v), (quiet v); run_steps; eexists; reflexivity.
Qed.

Lemma call_transfer_data_result (env : Env) (es : ES) (v : locals) (stream_type : Z)
    (p : process) :
  exists pr,
    call_transfer_data env es v stream_type p
    = let r := transfer_result (tswrite_fresh (sink_room env)) es (pmt_pid v)
                 (video_pid v) stream_type (max2 v) in
      (Go r.1, Process pr (trace p) (Some r.2)).
Proof.
  unfold call_transfer_data.
  destruct (transfer_data _ _ _ _ _ _ _) as [r s] eqn:E.
  apply transfer_data_refines in E. cbn [io_out io_es] in E. destruct E as [-> ->].
  eexists. reflexivity.
Qed.

Lemma write_output_result (env : Env) (es : ES) (v : locals) (stream_type : Z)
    (p : process) :
  exists pr,
    write_output env es v stream_type p
    = if sink_opens env (target_of v) then
        let r := transfer_result (tswrite_fresh (sink_room env)) es (pmt_pid v)
                   (video_pid v) stream_type (max2 v) in
        (Exit (if negb (sink_closes env) then 1 else if r.1 =? 0 then 0 else 1),
         Process pr
           (trace p ++ [EvOpenOutput (target_of v);
                        EvTransfer (pmt_pid v) (video_pid v) stream_type (max2 v);
                        EvCloseInput; EvCloseOutput])
           (Some r.2))
      else
        (Exit 1,
         Process pr (trace p ++ [EvOpenOutput (target_of v); EvCloseInput]) (output p)).
Proof.
  unfold write_output. rewrite andthen_log.
  destruct (sink_opens env (target_of v)); cbn [negb].
  - match goal with |- context [andthen ?m ?k ?q] =>
      destruct (andthen_prints m k q) as [pr1 ->] end.
    { apply if_only_prints; [apply tell_only_prints | apply go_only_prints]. }
    rewrite andthen_log. cbn [printing trace output].
    unfold andthen at 1.
    match goal with |- context [call_transfer_data env es v stream_type ?q] =>
      destruct (call_transfer_data_result env es v stream_type q) as [pr2 ->] end.
    cbv zeta. cbn [trace].
    match goal with |- context [andthen ?m ?k ?q] =>
      destruct (andthen_prints m k q) as [pr3 ->] end.
    { apply if_only_prints; [apply tell_only_prints | apply go_only_prints]. }
    rewrite !andthen_log. cbn [printing trace output].
    rewrite <- !app_assoc. cbn [app].
    destruct (Z.eqb_spec (transfer_result (tswrite_fresh (sink_room env)) es (pmt_pid v)
                 (video_pid v) stream_type (max2 v)).1 0) as [E|E];
      destruct (sink_closes env); run_steps; eexists; reflexivity.
  - rewrite andthen_log. run_steps. rewrite <- !app_assoc. eexists; reflexivity.
Qed.

Lemma convert_run (env : Env) (v : locals) (p : process) :
  trace p = [] -> output p = None ->
  exists pr,
    convert env v p
    = (Exit (exit_code (expected_run env v)),
       Process pr (calls (expected_run env v)) (writer (expected_run env v))).
Proof.
  destruct p as [pr0 tr out]. cbn [trace output]. intros -> ->.
  unfold convert, expected_run.
  destruct (had_input_name v); cbn [negb orb]; [|run_steps; eexists; reflexivity].
  destruct (had_output_name v); cbn [negb orb]; [|run_steps; eexists; reflexivity].
  set (v1 := if use_stdout v then set_verbosity false true v else v).
  assert (Hv1 : use_stdin v1 = use_stdin v /\ input_name v1 = input_name v
                /\ force_stream_type v1 = force_stream_type v
                /\ video_type v1 = video_type v /\ target_of v1 = target_of v
                /\ pmt_pid v1 = pmt_pid v /\ video_pid v1 = video_pid v
                /\ max2 v1 = max2 v).
  { unfold v1. destruct (use_stdout v) eqn:E; [|tauto].
    unfold target_of. cbn. rewrite E. tauto. }
  destruct Hv1 as (Hstdin & Hname & Hforce & Htype & Htarget & Hpmt & Hpid & Hmax).
  unfold andthen at 1. rewrite Hstdin, Hname. fold (input_of v).
  destruct (open_input_result env (input_of v) (Process pr0 [] None)) as [pr1 ->].
  cbn [trace output app].
  destruct (read_input env (input_of v)) as [bytes|]; [|eexists; reflexivity].
  match goal with |- context [andthen ?m ?k ?q] =>
    destruct (andthen_prints m k q) as [pr2 ->] end.
  { apply tell_unless_only_prints. }
  cbn [trace output]. unfold andthen at 1.
  match goal with |- context [decide_type env ?e v1 ?q] =>
    destruct (decide_type_result env e v1 q) as [pr3 ->] end.
  assert (Htf : type_in_force env v1 (es_input (open_elementary_stream bytes))
                = type_in_force env v bytes).
  { unfold type_in_force. now rewrite Hforce, Hstdin, Htype. }
  assert (Hdet : detection v1 = detection v).
  { unfold detection. now rewrite Hforce, Hstdin. }
  rewrite Htf, Hdet. cbn [trace output app].
  destruct (type_in_force env v bytes) as [t|] eqn:Et; [|eexists; reflexivity].
  set (v2 := if force_stream_type v1 || use_stdin v1 then v1 else set_video_type t v1).
  assert (Hv2 : video_type v2 = t /\ target_of v2 = target_of v
                /\ pmt_pid v2 = pmt_pid v /\ video_pid v2 = video_pid v
                /\ max2 v2 = max2 v).
  { unfold v2. unfold type_in_force in Et. rewrite Hforce, Hstdin.
    destruct (force_stream_type v || use_stdin v).
    - injection Et as <-. tauto.
    - unfold target_of. cbn. tauto. }
  destruct Hv2 as (Htype2 & Htarget2 & Hpmt2 & Hpid2 & Hmax2).
  unfold andthen at 1.
  match goal with |- context [choose_stream_type ?e v2 ?q] =>
    destruct (choose_stream_type_result e v2 q) as [pr4 ->] end.
  rewrite Htype2. cbn [trace output].
  destruct (write_output_result env (open_elementary_stream bytes) v2 (stream_type_byte t)
              (Process pr4 (EvOpenInput (input_of v) :: detection v) None)) as [pr5 Hw].
  rewrite Htarget2, Hpmt2, Hpid2, Hmax2 in Hw. cbn [trace output] in Hw.
  destruct t; [eexists; reflexivity | | |]; rewrite Hw;
    (destruct (sink_opens env (target_of v)); cbn [negb]; cbv zeta;
     eexists; reflexivity).
Qed.

(** ** Reading the switches *)

Lemma print_usage_only_prints : only_prints print_usage.
Proof. intros [pr tr out]. unfold print_usage. eexists. reflexivity. Qed.

Ltac parse_step H :=
  match type of H with
  | (if ?c then _ else _) _ = _ => destruct c eqn:?
  | match ?x with _ => _ end _ = _ => destruct x eqn:?
  | andthen (tell _) _ _ = _ => unfold andthen at 1, tell at 1 in H
  | andthen print_usage _ _ = _ =>
    let pr := fresh "pr" in
    let E := fresh "E" in
    destruct (andthen_prints print_usage (fun _ => exit 0) _ print_usage_only_prints)
      as [pr E]
  | andthen (CHECKARG _) _ _ = _ => unfold andthen at 1, CHECKARG in H
  | exit _ _ = _ => unfold exit, ret in H
  | go _ _ = _ => unfold go, ret in H
  end.

Section ParseInvariant.

Variable env : Env.
Variable I : locals -> Prop.
Hypothesis I_force : forall t v, t <> VIDEO_UNKNOWN -> I v -> I (force_type t v).
Hypothesis I_stdin : forall v, I v -> I (set_stdin v).
Hypothesis I_stdout : forall v, I v -> I (set_stdout v).
Hypothesis I_host : forall h p v, I v -> I (set_host h p v).
Hypothesis I_verbosity : forall a b v, I v -> I (set_verbosity a b v).
Hypothesis I_max2 : forall n v, I v -> I (set_max2 n v).
Hypothesis I_video_pid : forall n v, I v -> I (set_video_pid n v).
Hypothesis I_pmt_pid : forall n v, I v -> I (set_pmt_pid n v).
Hypothesis I_input_name : forall n v, I v -> I (set_input_name n v).
Hypothesis I_output_name : forall n v, I v -> I (set_output_name n v).

Lemma parse_args_bounded (n : nat) :
  forall (args : list string) (v : locals) (p p' : process) (o : outcome locals),
  (length args <= n)%nat -> I v ->
  parse_args env args v p = (o, p') ->
  trace p' = trace p /\ output p' = output p /\ o <> Stuck
  /\ (forall v', o = Go v' -> I v').
Proof.
  induction n as [|n IH]; intros args v p p' o Hlen Hv H.
  - destruct args; [|simpl in Hlen; lia]. cbn in H. injection H as <- <-.
    repeat split; [discriminate|]. now intros v' [= <-].
  - destruct args as [|a rest].
    { cbn in H. injection H as <- <-. repeat split; [discriminate|].
      now intros v' [= <-]. }
    cbn [parse_args] in H. simpl in Hlen.
    assert (IH1 : forall v1 p1, I v1 -> trace p1 = trace p -> output p1 = output p ->
                  parse_args env rest v1 p1 = (o, p') ->
                  trace p' = trace p /\ output p' = output p /\ o <> Stuck
                  /\ (forall v', o = Go v' -> I v')).
    { intros v1 p1 Hv1 Htr Hout E. rewrite <- Htr, <- Hout.
      apply (IH rest v1 p1 p' o); [lia | assumption | assumption]. }
    assert (IH2 : forall b rest' v1 p1, rest = b :: rest' -> I v1 ->
                  trace p1 = trace p -> output p1 = output p ->
                  parse_args env rest' v1 p1 = (o, p') ->
                  trace p' = trace p /\ output p' = output p /\ o <> Stuck
                  /\ (forall v', o = Go v' -> I v')).
    { intros b rest' v1 p1 -> Hv1 Htr Hout E. rewrite <- Htr, <- Hout.
      apply (IH rest' v1 p1 p' o); [simpl in Hlen; lia | assumption | assumption]. }
    clear IH.
    repeat parse_step H;
      first
        [ injection H as <- <-; cbn [trace output];
          repeat split; [discriminate | intros v' [=]]
        | eapply IH1; [| | |exact H]; cbn [trace output];
          auto using I_stdin, I_stdout, I_verbosity, I_input_name, I_output_name;
          apply I_force; first [discriminate | assumption]
        | eapply IH2; [reflexivity| | | |exact H]; cbn [trace output];
          auto using I_host, I_max2, I_video_pid, I_pmt_pid ].
Qed.

Lemma parse_args_invariant (args : list string) (v : locals) (p p' : process)
    (o : outcome locals) :
  I v -> parse_args env args v p = (o, p') ->
  trace p' = trace p /\ output p' = output p /\ o <> Stuck
  /\ (forall v', o = Go v' -> I v').
Proof. apply (parse_args_bounded (length args)). lia. Qed.

End ParseInvariant.

Lemma parse_args_quiet (env : Env) (args : list string) (v : locals)
    (p p' : process) (o : outcome locals) :
  parse_args env args v p = (o, p') -> trace p' = trace p /\ output p' = output p.
Proof.
  intros H. apply (parse_args_invariant env (fun _ => True)) in H; auto. tauto.
Qed.

Lemma parse_args_type (env : Env) (args : list string) (v v' : locals)
    (p p' : process) :
  type_settled v -> parse_args env args v p = (Go v', p') -> type_settled v'.
Proof.
  intros Hv H.
  apply (parse_args_invariant env type_settled) in H; try assumption.
  - destruct H as (_ & _ & _ & H). now apply H.
  - intros t v0 Ht _. split; [exact Ht | discriminate].
  - now intros v0 [].
  - now intros v0 [].
  - now intros h q v0 [].
  - now intros a b v0 [].
  - now intros n v0 [].
  - now intros n v0 [].
  - now intros n v0 [].
  - now intros n v0 [].
  - now intros n v0 [].
Qed.

Lemma parse_args_not_stuck (env : Env) (args : list string) (v : locals)
    (p p' : process) :
  parse_args env args v p <> (Stuck, p').
Proof.
  intros H. apply (parse_args_invariant env (fun _ => True)) in H; auto.
  now destruct H as (_ & _ & H & _).
Qed.

Lemma main_run (env : Env) (argv : list string) (v : locals) (p1 : process) :
  (2 <= length argv)%nat ->
  parse_args env (tail argv) locals_init boot = (Go v, p1) ->
  (main env argv).1 = Some (exit_code (expected_run env v))
  /\ trace (main env argv).2 = calls (expected_run env v)
  /\ output (main env argv).2 = writer (expected_run env v).
Proof.
  intros Hlen Hparse. unfold main.
  destruct (Nat.ltb_spec (length argv) 2) as [|_]; [lia|].
  unfold andthen. rewrite Hparse.
  apply parse_args_quiet in Hparse as [Htr Hout].
  destruct (convert_run env v p1 Htr Hout) as [pr ->]. auto.
Qed.

(** [main] always ends with an exit code. *)
Lemma main_exits (env : Env) (argv : list string) :
  exists code, (main env argv).1 = Some code.
Proof.
  unfold main. destruct (length argv <? 2)%nat.
  - destruct (andthen_prints print_usage (fun _ => exit (A:=Z) 0) boot
                print_usage_only_prints) as [pr ->].
    eexists. reflexivity.
  - unfold andthen.
    destruct (parse_args env (tail argv) locals_init boot) as [[v|code|] p1] eqn:E.
    + apply parse_args_quiet in E as [Htr Hout].
      destruct (convert_run env v p1 Htr Hout) as [pr ->]. eexists. reflexivity.
    + eexists. reflexivity.
    + now apply parse_args_not_stuck in E.
Qed.

(** ** Runs of transfer_data *)

Lemma transfer_data_run (pmt_pid video_pid stream_type max2 : Z)
    (verbose quiet : bool) (s : io) :
  (transfer_data pmt_pid video_pid stream_type max2 verbose quiet s).1
  = Some (transfer_result (io_out s) (io_es s) pmt_pid video_pid stream_type max2).1
  /\ io_out (transfer_data pmt_pid video_pid stream_type max2 verbose quiet s).2
     = (transfer_result (io_out s) (io_es s) pmt_pid video_pid stream_type max2).2.
Proof.
  destruct (transfer_data pmt_pid video_pid stream_type max2 verbose quiet s)
    as [r s'] eqn:E.
  apply transfer_data_refines in E. exact E.
Qed.

Lemma transfer_data_returns (pmt_pid video_pid stream_type max2 : Z)
    (verbose quiet : bool) (s : io) :
  exists err,
    (transfer_data pmt_pid video_pid stream_type max2 verbose quiet s).1 = Some err.
Proof. eexists. apply transfer_data_run. Qed.

Lemma capped_all (max2 : Z) (units : list ES_unit) :
  max2 <= 0 -> capped max2 0 units = units.
Proof. intros H. unfold capped. destruct (Z.ltb_spec 0 max2); [lia | reflexivity]. Qed.

Lemma capped_take (max2 : Z) (units : list ES_unit) :
  0 < max2 -> capped max2 0 units = take (Z.to_nat max2) units.
Proof.
  intros H. unfold capped. destruct (Z.ltb_spec 0 max2); [|lia].
  now rewrite Z.sub_0_r.
Qed.

(** ** The receiving side on a whole output *)

Lemma ts_packets_of_sink (pkts : list (list Z)) :
  Forall (fun pkt => length pkt = TS_PACKET_SIZE) pkts ->
  ts_packets (concat pkts) = pkts.
Proof.
  intros H. unfold ts_packets. apply pieces_exact; [unfold TS_PACKET_SIZE; lia | exact H | lia].
Qed.

Lemma on_pid_all (pid : Z) (pkts : list (list Z)) :
  Forall (fun pkt => ts_pid pkt = pid) pkts -> on_pid pid pkts = pkts.
Proof.
  induction 1 as [|pkt pkts Hp _ IH]; [reflexivity|].
  unfold on_pid in *. simpl. rewrite Hp, Z.eqb_refl. now rewrite IH.
Qed.

Lemma groups_pid (pid : Z) (units : list ES_unit) (groups : list (list (list Z))) :
  Forall2 (fun g u => carries pid (pes_of u) g) groups units ->
  Forall (fun pkt => ts_pid pkt = Z.land pid 0x1FFF) (concat groups).
Proof.
  induction 1 as [|g u groups units Hg _ IH]; [constructor|].
  rewrite concat_cons. apply Forall_app. split; [|exact IH].
  eapply carries_pid, Hg.
Qed.

Lemma groups_lengths (pid : Z) (units : list ES_unit) (groups : list (list (list Z))) :
  Forall2 (fun g u => carries pid (pes_of u) g) groups units ->
  Forall (fun pkt => length pkt = TS_PACKET_SIZE) (concat groups).
Proof.
  induction 1 as [|g u groups units Hg _ IH]; [constructor|].
  rewrite concat_cons. apply Forall_app. split; [|exact IH].
  eapply carries_lengths, Hg.
Qed.

Lemma single_length (pid : Z) (bytes : list Z) (pkt : list Z) :
  carries pid bytes [pkt] -> length pkt = TS_PACKET_SIZE.
Proof. intros H. apply carries_lengths in H. now inversion H. Qed.

Lemma recovered_from_output (pmt_pid video_pid stream_type : Z)
    (pat pmt : list Z) (groups : list (list (list Z))) (units : list ES_unit) :
  valid_pids pmt_pid video_pid ->
  is_PAT pmt_pid pat -> is_PMT pmt_pid video_pid stream_type pmt ->
  Forall2 (fun g u => carries video_pid (pes_of u) g) groups units ->
  recovered_ES video_pid (concat (pat :: pmt :: concat groups))
  = concat (map data units).
Proof.
  intros (Hpmt & Hvid & Hne) Hpat Hpmtp Hall. unfold recovered_ES.
  rewrite ts_packets_of_sink.
  2:{ constructor; [eapply single_length, Hpat|].
      constructor; [eapply single_length, Hpmtp|].
      eapply groups_lengths, Hall. }
  unfold on_pid. cbn [List.filter].
  rewrite (is_PAT_pid _ _ Hpat), (is_PMT_pid _ _ _ _ Hpmtp).
  rewrite land_13_id by lia.
  destruct (Z.eqb_spec 0 video_pid); [lia|].
  destruct (Z.eqb_spec pmt_pid video_pid); [lia|].
  fold (on_pid video_pid (concat groups)).
  rewrite on_pid_all.
  2:{ apply groups_pid in Hall. rewrite land_13_id in Hall by lia. exact Hall. }
  destruct (groups_read_back video_pid units groups Hall) as [-> _].
  rewrite map_map. f_equal.
Qed.

(** ** Facts about a run of main *)

Lemma fresh_output_shape (limit : option nat) (es : ES)
    (pmt_pid video_pid stream_type max2 : Z) :
  let r := transfer_result (tswrite_fresh limit) es pmt_pid video_pid stream_type max2 in
  exists pat pmt groups rest,
    is_PAT pmt_pid pat /\ is_PMT pmt_pid video_pid stream_type pmt
    /\ Forall2 (fun g u => carries video_pid (pes_of u) g) groups
         (capped max2 0 (all_units es))
    /\ pat :: pmt :: concat groups = written r.2 ++ rest
    /\ (r.1 = 0 -> rest = []).
Proof.
  cbv zeta.
  destruct (transfer_result_written (tswrite_fresh limit) es pmt_pid video_pid
              stream_type max2) as (pat & pmt & groups & rest & H).
  exists pat, pmt, groups, rest. exact H.
Qed.

Lemma expected_run_detection (env : Env) (v : locals) :
  EvDecideType ∈ calls (expected_run env v) ->
  force_stream_type v = false /\ use_stdin v = false.
Proof.
  unfold expected_run, detection.
  destruct (force_stream_type v || use_stdin v) eqn:E.
  - intros H. exfalso. revert H.
    repeat match goal with
           | |- context [if ?c then _ else _] => destruct c
           | |- context [match ?x with _ => _ end] => destruct x
           end; cbn [calls app]; intros H;
      repeat (apply elem_of_cons in H as [H|H]; [discriminate|]);
      now apply elem_of_nil in H.
  - intros _. now apply orb_false_elim in E.
Qed.

Lemma expected_run_transfer (env : Env) (v : locals) (a b st m : Z) :
  EvTransfer a b st m ∈ calls (expected_run env v) ->
  exists bytes t,
    read_input env (input_of v) = Some bytes
    /\ type_in_force env v bytes = Some t /\ t <> VIDEO_UNKNOWN
    /\ a = pmt_pid v /\ b = video_pid v /\ st = stream_type_byte t /\ m = max2 v.
Proof.
  unfold expected_run, detection.
  destruct (read_input env (input_of v)) as [bytes|];
    [destruct (type_in_force env v bytes) as [t|] eqn:Et|];
    repeat match goal with
           | |- context [if ?c then _ else _] => destruct c
           | |- context [match ?x with _ => _ end] => destruct x
           end; cbn [calls app]; intros H;
      repeat (apply elem_of_cons in H as [H|H];
              [first [discriminate
                     | injection H as -> -> -> ->; eexists _, _;
                       repeat split;
                       first [reflexivity | eassumption | discriminate]]|]);
      now apply elem_of_nil in H.
Qed.

Lemma expected_run_PMT (env : Env) (v : locals) (w : TS_writer) (pkt : list Z) :
  writer (expected_run env v) = Some w -> written w !! 1%nat = Some pkt ->
  exists bytes t,
    read_input env (input_of v) = Some bytes
    /\ type_in_force env v bytes = Some t /\ t <> VIDEO_UNKNOWN
    /\ is_PMT (pmt_pid v) (video_pid v) (stream_type_byte t) pkt.
Proof.
  unfold expected_run.
  destruct (negb (had_input_name v) || negb (had_output_name v)); [discriminate|].
  destruct (read_input env (input_of v)) as [bytes|] eqn:Eb; [|discriminate].
  destruct (type_in_force env v bytes) as [t|] eqn:Et; [|discriminate].
  intros Hw Hpkt. exists bytes, t. split; [reflexivity|]. split; [exact Et|].
  destruct (fresh_output_shape (sink_room env) (open_elementary_stream bytes)
              (pmt_pid v) (video_pid v) (stream_type_byte t) (max2 v))
    as (pat & pmt & groups & rest & _ & Hpmt & _ & Heq & _).
  assert (Hpmt' : forall w',
            Some (transfer_result (tswrite_fresh (sink_room env))
                    (open_elementary_stream bytes) (pmt_pid v) (video_pid v)
                    (stream_type_byte t) (max2 v)).2 = Some w' ->
            written w' !! 1%nat = Some pkt ->
            is_PMT (pmt_pid v) (video_pid v) (stream_type_byte t) pkt).
  { intros w' [= <-] Hp.
    assert (E : (pat :: pmt :: concat groups) !! 1%nat = Some pkt).
    { rewrite Heq. now apply lookup_app_l_Some. }
    cbn in E. now injection E as <-. }
  clear Heq Hpmt.
  destruct t; [discriminate | | |];
    (split; [discriminate|]);
    (destruct (sink_opens env (target_of v)); [|discriminate]);
    cbn [negb] in Hw; cbv zeta in Hw; cbn [writer] in Hw;
    exact (Hpmt' w Hw Hpkt).
Qed.

(** ** Steps of the switch loop *)

Lemma parse_force_h264 (env : Env) (rest : list string) (v : locals) :
  parse_args env ("-h264"%string :: rest) v = parse_args env rest (force_type VIDEO_H264 v).
Proof. reflexivity. Qed.

Lemma parse_force_avc (env : Env) (rest : list string) (v : locals) :
  parse_args env ("-avc"%string :: rest) v = parse_args env rest (force_type VIDEO_H264 v).
Proof. reflexivity. Qed.

Lemma parse_force_h262 (env : Env) (rest : list string) (v : locals) :
  parse_args env ("-h262"%string :: rest) v = parse_args env rest (force_type VIDEO_H262 v).
Proof. reflexivity. Qed.

Lemma parse_force_avs (env : Env) (rest : list string) (v : locals) :
  parse_args env ("-avs"%string :: rest) v = parse_args env rest (force_type VIDEO_AVS v).
Proof. reflexivity. Qed.

Lemma parse_stdin (env : Env) (rest : list string) (v : locals) :
  parse_args env ("-stdin"%string :: rest) v = parse_args env rest (set_stdin v).
Proof. reflexivity. Qed.

Lemma parse_pid (env : Env) (b : string) (rest : list string) (v : locals) (n : Z) :
  unsigned_value env b 0 = Some n ->
  parse_args env ("-pid"%string :: b :: rest) v = parse_args env rest (set_video_pid n v).
Proof.
  intros H.
  change (parse_args env ("-pid"%string :: b :: rest) v)
    with (match unsigned_value env b 0 with
          | None => exit 1
          | Some n => parse_args env rest (set_video_pid n v)
          end).
  now rewrite H.
Qed.

Lemma parse_pmt (env : Env) (b : string) (rest : list string) (v : locals) (n : Z) :
  unsigned_value env b 0 = Some n ->
  parse_args env ("-pmt"%string :: b :: rest) v = parse_args env rest (set_pmt_pid n v).
Proof.
  intros H.
  change (parse_args env ("-pmt"%string :: b :: rest) v)
    with (match unsigned_value env b 0 with
          | None => exit 1
          | Some n => parse_args env rest (set_pmt_pid n v)
          end).
  now rewrite H.
Qed.

Lemma parse_file_names (env : Env) (infile outfile : string) (v : locals) :
  is_switch infile = false -> is_switch outfile = false ->
  had_input_name v = false -> had_output_name v = false ->
  parse_args env [infile; outfile] v
  = go (set_output_name outfile (set_input_name infile v)).
Proof.
  intros Hin Hout Hv Hv'. cbn [parse_args]. rewrite Hin, Hout, Hv. cbn.
  now rewrite Hv'.
Qed.

(** ** Checks on concrete data *)

(** The check value of CRC-32/MPEG-2 (the CRC of the digits 1 to 9). *)
Example crc32_check_value :
  crc32_block [49; 50; 51; 52; 53; 54; 55; 56; 57] = 0x0376E6E7.
Proof. vm_compute. reflexivity. Qed.

(** The CRC of a whole section, its CRC field included, is 0. *)
Example pat_crc_verifies : crc32_block (pat_section 1 1 0x66) = 0.
Proof. vm_compute. reflexivity. Qed.

Example pmt_crc_verifies : crc32_block (pmt_section 1 0x68 0x02) = 0.
Proof. vm_compute. reflexivity. Qed.

(** Junk before the first start code is dropped; a third zero before a
    prefix stays with the unit before it. *)
Example three_units_split :
  map data (all_units (open_elementary_stream Sample.three_units))
  = [[0; 0; 1; 0xB3; 0xAA]; [0; 0; 1; 0; 0xBB; 0xCC; 0]; [0; 0; 1; 1; 0xDD]].
Proof. vm_compute. reflexivity. Qed.

(** A unit of 504 bytes goes into three TS packets, PUSI on the first. *)
Example large_unit_packets :
  map (fun pkt => (ts_pid pkt, ts_pusi pkt, length (ts_payload pkt)))
    (written (io_out (transfer_data 0x66 0x68 0x02 0 false true
                        (IO (open_elementary_stream Sample.large_unit)
                            (tswrite_fresh None) (PState fns_default []))).2))
  = [(0, true, 17%nat); (0x66, true, 22%nat);
     (0x68, true, 184%nat); (0x68, false, 184%nat); (0x68, false, 145%nat)].
Proof. vm_compute. reflexivity. Qed.

(** A sink that takes three packets only: the write of the second video
    packet fails, [transfer_data] returns the error and [main] exits
    with 1. *)
Example short_sink_fails :
  let env := MkEnv (fun s _ _ => Sample.number s) (fun s _ => Sample.number s)
               (fun s => Some (s, None)) Sample.sample_files (Some []) (fun _ => Some VIDEO_H262)
               (fun _ => true) (Some 3%nat) true in
  let r := main env ["es2ts"; "large.es"; "out.ts"]%string in
  r.1 = Some 1 /\ length (ts_output r.2) = (3 * 188)%nat.
Proof. vm_compute. split; reflexivity. Qed.

(* ===================================================================== *)
(** * The claims *)
(* ===================================================================== *)

(** C10: [redirect_output] returns 1 and leaves the table of printing
    functions (indeed the whole printing state) as it was when any of the
    five function pointers is null; otherwise it installs all five and
    returns 0. *)
Theorem redirect_output_all_or_nothing
    (new_print_message_fn new_print_error_fn : fnptr msg_fn)
    (new_fprint_message_fn new_fprint_error_fn : fnptr fmt_fn)
    (new_flush_msg_fn : fnptr flush_fn) (p : pstate) :
  (new_print_message_fn = None \/ new_print_error_fn = None
   \/ new_fprint_message_fn = None \/ new_fprint_error_fn = None
   \/ new_flush_msg_fn = None ->
   redirect_output new_print_message_fn new_print_error_fn new_fprint_message_fn
     new_fprint_error_fn new_flush_msg_fn p = (1, p))
  /\ (new_print_message_fn <> None -> new_print_error_fn <> None ->
      new_fprint_message_fn <> None -> new_fprint_error_fn <> None ->
      new_flush_msg_fn <> None ->
      redirect_output new_print_message_fn new_print_error_fn new_fprint_message_fn
        new_fprint_error_fn new_flush_msg_fn p
      = (0, PState (PrintFns new_print_message_fn new_print_error_fn
                             new_fprint_message_fn new_fprint_error_fn
                             new_flush_msg_fn)
                   (shown p))).
Proof.
  unfold redirect_output. split.
  - intros H.
    destruct new_print_message_fn, new_print_error_fn, new_fprint_message_fn,
      new_fprint_error_fn, new_flush_msg_fn; cbn; try reflexivity.
    destruct H as [H | [H | [H | [H | H]]]]; discriminate.
  - intros H1 H2 H3 H4 H5.
    destruct new_print_message_fn, new_print_error_fn, new_fprint_message_fn,
      new_fprint_error_fn, new_flush_msg_fn; cbn; congruence.
Qed.

Lemma redirect_output_all_or_nothing_witness :
  redirect_output (Some print_message_to_stderr) None (Some fprint_message_to_stderr)
    (Some fprint_message_to_stderr) (Some flush_stdout) (PState fns_default [])
  = (1, PState fns_default [])
  /\ fns (redirect_output (Some print_message_to_stderr) (Some print_message_to_stderr)
            (Some fprint_message_to_stderr) (Some fprint_message_to_stderr)
            (Some flush_stdout) (PState fns_default [])).2
     = PrintFns (Some print_message_to_stderr) (Some print_message_to_stderr)
         (Some fprint_message_to_stderr) (Some fprint_message_to_stderr)
         (Some flush_stdout).
Proof.
  split.
  - apply (redirect_output_all_or_nothing (Some print_message_to_stderr) None
             (Some fprint_message_to_stderr) (Some fprint_message_to_stderr)
             (Some flush_stdout) (PState fns_default [])).
    right. left. reflexivity.
  - rewrite (proj2 (redirect_output_all_or_nothing (Some print_message_to_stderr)
                     (Some print_message_to_stderr) (Some fprint_message_to_stderr)
                     (Some fprint_message_to_stderr) (Some flush_stdout)
                     (PState fns_default [])));
      [reflexivity | discriminate..].
Defined.

(** The shape of what [transfer_data] writes on a freshly opened sink. *)
Lemma transfer_data_output_shape (pmt_pid video_pid stream_type max2 : Z)
    (verbose quiet : bool) (es : ES) (limit : option nat) (print : pstate) :
  let run := transfer_data pmt_pid video_pid stream_type max2 verbose quiet
               (IO es (tswrite_fresh limit) print) in
  let units := capped max2 0 (all_units es) in
  exists pat pmt groups,
    is_PAT pmt_pid pat /\ ts_pid pat = 0
    /\ is_PMT pmt_pid video_pid stream_type pmt
    /\ ts_pid pmt = Z.land pmt_pid 0x1FFF
    /\ (0 <= pmt_pid < 0x2000 -> ts_pid pmt = pmt_pid)
    /\ Forall2 (fun g u => carries video_pid (pes_of u) g) groups units
    /\ pes_packets (concat groups) = map pes_of units
    /\ written (io_out run.2) `prefix_of` pat :: pmt :: concat groups
    /\ (run.1 = Some 0 -> written (io_out run.2) = pat :: pmt :: concat groups)
    /\ (limit = None -> run.1 = Some 0).
Proof.
  cbv zeta.
  destruct (transfer_data_run pmt_pid video_pid stream_type max2 verbose quiet
              (IO es (tswrite_fresh limit) print)) as [-> ->].
  cbn [io_out io_es].
  destruct (fresh_output_shape limit es pmt_pid video_pid stream_type max2)
    as (pat & pmt & groups & rest & Hpat & Hpmt & Hall & Heq & Hrest).
  exists pat, pmt, groups.
  split; [exact Hpat|]. split; [eapply is_PAT_pid, Hpat|].
  split; [exact Hpmt|]. split; [eapply is_PMT_pid, Hpmt|].
  split; [intros Hr; rewrite (is_PMT_pid _ _ _ _ Hpmt); now apply land_13_id|].
  split; [exact Hall|].
  split; [eapply groups_read_back, Hall|].
  split; [exists rest; exact Heq|].
  split.
  - intros [= E]. rewrite Heq, (Hrest E), app_nil_r. reflexivity.
  - intros ->. f_equal. now apply transfer_result_unlimited.
Qed.

(** C2: in every run of [transfer_data] on a freshly opened sink the
    packets written are, in this order, the PAT packet (PID 0), the PMT
    packet (PID [pmt_pid]) and then, for the units in the order they were
    read, the run of TS packets carrying the PES packet of each unit, and
    nothing else: the whole of it when the run returns 0, a prefix of it
    when a write failed. *)
Theorem psi_first_then_units_in_order (pmt_pid video_pid stream_type max2 : Z)
    (verbose quiet : bool) (es : ES) (limit : option nat) (print : pstate) :
  let run := transfer_data pmt_pid video_pid stream_type max2 verbose quiet
               (IO es (tswrite_fresh limit) print) in
  let units := capped max2 0 (all_units es) in
  exists pat pmt groups,
    is_PAT pmt_pid pat /\ ts_pid pat = 0
    /\ is_PMT pmt_pid video_pid stream_type pmt
    /\ ts_pid pmt = Z.land pmt_pid 0x1FFF
    /\ (0 <= pmt_pid < 0x2000 -> ts_pid pmt = pmt_pid)
    /\ Forall2 (fun g u => carries video_pid (pes_of u) g) groups units
    /\ pes_packets (concat groups) = map pes_of units
    /\ written (io_out run.2) `prefix_of` pat :: pmt :: concat groups
    /\ (run.1 = Some 0 -> written (io_out run.2) = pat :: pmt :: concat groups)
    /\ (limit = None -> run.1 = Some 0).
Proof.
  exact (transfer_data_output_shape pmt_pid video_pid stream_type max2 verbose quiet es
           limit print).
Qed.

(** C4: with a positive cap [max2] and at least that many units in the
    input, a run of [transfer_data] that meets no write error returns 0
    having written the PAT, the PMT and exactly the packets of the first
    [max2] units; with a cap of 0 (or less) it writes those of all the
    units.  On a sink without limit no write error arises. *)
Theorem max_units_cap (pmt_pid video_pid stream_type max2 : Z)
    (verbose quiet : bool) (es : ES) (limit : option nat) (print : pstate) :
  let run := transfer_data pmt_pid video_pid stream_type max2 verbose quiet
               (IO es (tswrite_fresh limit) print) in
  (limit = None -> run.1 = Some 0)
  /\ (run.1 = Some 0 ->
      exists pat pmt groups,
        is_PAT pmt_pid pat /\ is_PMT pmt_pid video_pid stream_type pmt
        /\ written (io_out run.2) = pat :: pmt :: concat groups
        /\ (0 < max2 <= Z.of_nat (length (all_units es)) ->
            length groups = Z.to_nat max2
            /\ Forall2 (fun g u => carries video_pid (pes_of u) g) groups
                 (take (Z.to_nat max2) (all_units es))
            /\ pes_packets (concat groups)
               = map pes_of (take (Z.to_nat max2) (all_units es)))
        /\ (max2 <= 0 ->
            Forall2 (fun g u => carries video_pid (pes_of u) g) groups (all_units es)
            /\ pes_packets (concat groups) = map pes_of (all_units es))).
Proof.
  cbv zeta.
  destruct (transfer_data_output_shape pmt_pid video_pid stream_type max2 verbose
              quiet es limit print)
    as (pat & pmt & groups & Hpat & _ & Hpmt & _ & _ & Hall & Hpes & _ & Hok & Hlim).
  split; [exact Hlim|]. intros Hrun. exists pat, pmt, groups.
  split; [exact Hpat|]. split; [exact Hpmt|]. split; [exact (Hok Hrun)|]. split.
  - intros [Hpos Hle]. rewrite capped_take in Hall, Hpes by exact Hpos.
    split; [|split; assumption].
    apply Forall2_length in Hall. rewrite Hall, length_take. lia.
  - intros Hle. rewrite capped_all in Hall, Hpes by exact Hle. split; assumption.
Qed.

(** C1: for a valid ES input and valid PIDs, a run of [transfer_data]
    without a cap that returns 0 (as every run on a sink without limit
    does) leaves a TS from which the receiving side recovers exactly the
    input from its first start code onward: take the packets of
    [video_pid], strip TS headers and adaptation fields, reassemble the PES
    packets and strip their headers. *)
Theorem es_round_trip (input : list Z) (pmt_pid video_pid stream_type max2 : Z)
    (verbose quiet : bool) (limit : option nat) (print : pstate) :
  valid_ES input -> valid_pids pmt_pid video_pid -> max2 <= 0 ->
  let run := transfer_data pmt_pid video_pid stream_type max2 verbose quiet
               (IO (open_elementary_stream input) (tswrite_fresh limit) print) in
  (limit = None -> run.1 = Some 0)
  /\ (run.1 = Some 0 ->
      recovered_ES video_pid (sink_bytes (io_out run.2)) = from_first_startcode input).
Proof.
  intros Hvalid Hpids Hmax. cbv zeta.
  destruct (transfer_data_output_shape pmt_pid video_pid stream_type max2 verbose
              quiet (open_elementary_stream input) limit print)
    as (pat & pmt & groups & Hpat & _ & Hpmt & _ & _ & Hall & _ & _ & Hok & Hlim).
  split; [exact Hlim|]. intros Hrun. unfold sink_bytes. rewrite (Hok Hrun).
  rewrite capped_all in Hall by exact Hmax.
  rewrite (recovered_from_output pmt_pid video_pid stream_type pat pmt groups
             (all_units (open_elementary_stream input))) by assumption.
  now apply all_units_rebuild.
Qed.

(** C7, as it stands, fails: an empty file named on the command line,
    with no type forced, is a stream in which the detection recognises
    nothing, and [main] exits with code 1 before the sink is opened: no
    PAT, no PMT, no byte. *)
Lemma empty_file_undetected_fails :
  ~ empty_input_succeeds Sample.sample_env ["es2ts"; "empty.es"; "out.ts"]%string.
Proof.
  intros H.
  destruct (H (set_output_name "out.ts" (set_input_name "empty.es" locals_init))
              boot []) as [Hcode _].
  - vm_compute. reflexivity.
  - reflexivity.
  - reflexivity.
  - vm_compute in Hcode. discriminate.
Qed.

(** C7 (amended): when the input holds no ES unit and a known video type
    is in force (forced by a switch, the default for standard input, or
    detected), a run that gets as far as [transfer_data] (names given,
    input opened, sink opened with room for two packets and closed
    without error) exits with code 0 having written the PAT and the PMT
    only: two TS packets, 376 bytes. *)
Theorem empty_input_PAT_PMT_only (env : Env) (argv : list string) (v : locals)
    (p1 : process) (bytes : list Z) (t : H222.video_type) :
  (2 <= length argv)%nat ->
  parse_args env (tail argv) locals_init boot = (Go v, p1) ->
  had_input_name v = true -> had_output_name v = true ->
  read_input env (input_of v) = Some bytes ->
  all_units (open_elementary_stream bytes) = [] ->
  type_in_force env v bytes = Some t -> t <> VIDEO_UNKNOWN ->
  sink_opens env (target_of v) = true -> room_for 2 (sink_room env) ->
  sink_closes env = true ->
  (main env argv).1 = Some 0
  /\ length (ts_output (main env argv).2) = 376%nat
  /\ exists pat pmt,
       is_PAT (pmt_pid v) pat
       /\ is_PMT (pmt_pid v) (video_pid v) (stream_type_byte t) pmt
       /\ ts_output (main env argv).2 = pat ++ pmt.
Proof.
  intros Hargc Hparse Hin Hout Hread Hunits Htype Hknown Hopen Hroom Hclose.
  destruct (main_run env argv v p1 Hargc Hparse) as (-> & _ & Hw).
  unfold ts_output. rewrite Hw. clear Hw.
  unfold expected_run. rewrite Hin, Hout, Hread, Htype, Hopen, Hclose.
  cbn [negb orb].
  set (r := transfer_result (tswrite_fresh (sink_room env)) (open_elementary_stream bytes)
              (pmt_pid v) (video_pid v) (stream_type_byte t) (max2 v)).
  assert (Hr : r.1 = 0).
  { unfold r, transfer_result.
    destruct (program_data_room (tswrite_fresh (sink_room env)) (pmt_pid v) (video_pid v)
                (stream_type_byte t)) as [E _]; [exact Hroom|].
    destruct (write_TS_program_data _ _ _ _ _ _) as [err w1]. cbn [fst] in E.
    subst err. change (0 =? 0) with true. cbv iota.
    rewrite Hunits, capped_nil. reflexivity. }
  destruct (fresh_output_shape (sink_room env) (open_elementary_stream bytes) (pmt_pid v)
              (video_pid v) (stream_type_byte t) (max2 v))
    as (pat & pmt & groups & rest & Hpat & Hpmt & Hall & Heq & Hrest).
  fold r in Heq, Hrest. rewrite (Hrest Hr), app_nil_r in Heq.
  rewrite Hunits, capped_nil in Hall. inversion Hall; subst. cbn [concat] in Heq.
  assert (Hsink : sink_bytes r.2 = pat ++ pmt).
  { unfold sink_bytes. rewrite <- Heq. cbn [concat]. now rewrite app_nil_r. }
  cbv zeta. fold r.
  destruct t; [contradiction | | |]; cbn [exit_code writer]; rewrite Hr, Hsink;
    (split; [reflexivity|]);
    (split; [rewrite length_app, (single_length _ _ _ Hpat), (single_length _ _ _ Hpmt);
             reflexivity|]);
    exists pat, pmt; auto.
Qed.

(** C6: when no type is forced, the input is not standard input and the
    detection finds the type to be unknown, [main] exits with code 1
    without ever opening the output sink: no call of [tswrite_open] or of
    [transfer_data], no writer, no TS byte. *)
Theorem unknown_type_fails_before_output (env : Env) (argv : list string)
    (v : locals) (p1 : process) :
  (2 <= length argv)%nat ->
  parse_args env (tail argv) locals_init boot = (Go v, p1) ->
  force_stream_type v = false -> use_stdin v = false ->
  (forall bytes, read_input env (input_of v) = Some bytes ->
                 decide_ES_file_video_type env bytes = Some VIDEO_UNKNOWN) ->
  (main env argv).1 = Some 1
  /\ output (main env argv).2 = None
  /\ ts_output (main env argv).2 = []
  /\ (forall target, EvOpenOutput target ∉ trace (main env argv).2)
  /\ (forall a b st m, EvTransfer a b st m ∉ trace (main env argv).2).
Proof.
  intros Hargc Hparse Hforce Hstdin Hunknown.
  destruct (main_run env argv v p1 Hargc Hparse) as (-> & -> & Hw).
  unfold ts_output. rewrite Hw. clear Hw.
  assert (E : exists calls,
            expected_run env v = Run 1 calls None
            /\ (calls = [] \/ calls = [EvOpenInput (input_of v)]
                \/ calls = [EvOpenInput (input_of v); EvDecideType; EvCloseInput])).
  { unfold expected_run, type_in_force, detection. rewrite Hforce, Hstdin. cbn [orb].
    destruct (negb (had_input_name v) || negb (had_output_name v)); [eauto|].
    destruct (read_input env (input_of v)) as [bytes|] eqn:Eb; [|eauto 6].
    rewrite (Hunknown bytes eq_refl). eauto 6. }
  destruct E as (calls & -> & Hcalls). cbn [exit_code Expected.calls writer].
  repeat split; try reflexivity.
  - intros target H. destruct Hcalls as [-> | [-> | ->]];
      repeat (apply elem_of_cons in H as [H|H]; [discriminate|]);
      now apply elem_of_nil in H.
  - intros a b st m H. destruct Hcalls as [-> | [-> | ->]];
      repeat (apply elem_of_cons in H as [H|H]; [discriminate|]);
      now apply elem_of_nil in H.
Qed.

(** ** The PAT and the PMT at the head of the output *)

Lemma write_fragments_extends (frags : list (list Z)) (w : TS_writer) (pid : Z)
    (first : bool) :
  written w `prefix_of` written (write_fragments w pid first frags).2.
Proof.
  destruct (write_fragments_written frags w pid first) as (k & -> & _).
  now apply prefix_app_r.
Qed.

Lemma emit_units_extends (video_pid : Z) (units : list ES_unit) (w : TS_writer) :
  written w `prefix_of` written (emit_units w video_pid units).2.
Proof.
  revert w. induction units as [|u units IH]; intros w; [reflexivity|].
  simpl emit_units. rewrite write_PES_is_payload.
  pose proof (write_fragments_extends (fragments (pes_of u)) w video_pid true) as H.
  destruct (write_fragments w video_pid true (fragments (pes_of u))) as [err w1].
  cbn [snd] in H. cbv beta iota.
  destruct (err =? 0); [|exact H]. etrans; [exact H | apply IH].
Qed.

(** A sink with room for two packets takes the PAT and the PMT: they are
    the first two packets of whatever [transfer_data] leaves written. *)
Lemma transfer_result_PSI (limit : option nat) (es : ES)
    (pmt_pid video_pid stream_type max2 : Z) :
  room_for 2 limit ->
  exists pat pmt,
    is_PAT pmt_pid pat /\ is_PMT pmt_pid video_pid stream_type pmt
    /\ [pat; pmt] `prefix_of`
       written (transfer_result (tswrite_fresh limit) es pmt_pid video_pid
                  stream_type max2).2.
Proof.
  intros Hroom. unfold transfer_result.
  destruct (program_data_written (tswrite_fresh limit) pmt_pid video_pid stream_type)
    as (pat & pmt & rest0 & Hpat & Hpmt & Heq0 & Hrest0).
  destruct (program_data_room (tswrite_fresh limit) pmt_pid video_pid stream_type)
    as [E _]; [exact Hroom|].
  destruct (write_TS_program_data (tswrite_fresh limit) 1 1 pmt_pid video_pid stream_type)
    as [err w1].
  cbn [fst snd] in *. subst err. rewrite (Hrest0 eq_refl), app_nil_r in Heq0.
  change (0 =? 0) with true. cbv iota. exists pat, pmt.
  split; [exact Hpat|]. split; [exact Hpmt|].
  change (written (tswrite_fresh limit) ++ [pat; pmt]) with [pat; pmt] in Heq0.
  rewrite Heq0. apply emit_units_extends.
Qed.

(** C5: with input from standard input and no type forced, [main] does
    not call the type detection and treats the stream as H.262: the type
    in force is H.262 whatever the input holds, [transfer_data] is called
    with stream type 0x02 and with nothing else, and, once standard input
    and the sink are open, it is called and the PMT it writes (the second
    packet of the output, there as soon as the sink takes two packets)
    carries stream_type 0x02. *)
Theorem stdin_defaults_to_H262 (env : Env) (argv : list string) (v : locals)
    (p1 : process) :
  (2 <= length argv)%nat ->
  parse_args env (tail argv) locals_init boot = (Go v, p1) ->
  use_stdin v = true -> force_stream_type v = false ->
  (EvDecideType ∉ trace (main env argv).2)
  /\ (forall bytes, type_in_force env v bytes = Some VIDEO_H262)
  /\ (forall a b st m, EvTransfer a b st m ∈ trace (main env argv).2 -> st = 0x02)
  /\ (forall w pkt, output (main env argv).2 = Some w ->
                    written w !! 1%nat = Some pkt -> pmt_stream_type pkt = 0x02)
  /\ (stdin env <> None -> had_output_name v = true ->
      sink_opens env (target_of v) = true ->
      EvTransfer (pmt_pid v) (video_pid v) 0x02 (max2 v) ∈ trace (main env argv).2
      /\ (room_for 2 (sink_room env) ->
          exists w pat pmt,
            output (main env argv).2 = Some w
            /\ [pat; pmt] `prefix_of` written w
            /\ is_PAT (pmt_pid v) pat
            /\ is_PMT (pmt_pid v) (video_pid v) 0x02 pmt
            /\ pmt_stream_type pmt = 0x02)).
Proof.
  intros Hargc Hparse Hstdin Hforce.
  destruct (main_run env argv v p1 Hargc Hparse) as (_ & -> & ->).
  assert (Htype : video_type v = VIDEO_H262).
  { eapply parse_args_type in Hparse; [now apply Hparse|].
    split; [discriminate | reflexivity]. }
  assert (Hin : forall bytes, type_in_force env v bytes = Some VIDEO_H262).
  { intros bytes. unfold type_in_force. now rewrite Hstdin, orb_true_r, Htype. }
  split; [|split; [apply Hin|split; [|split]]].
  - intros H. apply expected_run_detection in H as [_ H]. congruence.
  - intros a b st m H.
    apply expected_run_transfer in H as (bytes & t & _ & Ht & _ & _ & _ & -> & _).
    rewrite Hin in Ht. now injection Ht as <-.
  - intros w pkt Hw Hpkt.
    destruct (expected_run_PMT env v w pkt Hw Hpkt) as (bytes & t & _ & Ht & _ & Hpmt).
    rewrite Hin in Ht. injection Ht as <-.
    now rewrite (is_PMT_stream_type _ _ _ _ Hpmt).
  - intros Hopened Hout Hopen. unfold expected_run.
    assert (Hhad : had_input_name v = true).
    { apply (parse_args_invariant env
               (fun v => use_stdin v = true -> had_input_name v = true)) in Hparse;
        try (cbn; tauto); try (now cbn).
      destruct Hparse as (_ & _ & _ & H). now apply H. }
    rewrite Hhad, Hout. cbn [negb orb].
    unfold input_of, read_input. rewrite Hstdin.
    destruct (stdin env) as [bytes|]; [|contradiction].
    rewrite Hin, Hopen. cbn [negb]. cbv zeta. cbn [calls writer]. split.
    + apply elem_of_cons. right. apply elem_of_app. right.
      apply elem_of_cons. right. apply elem_of_cons. now left.
    + intros Hroom.
      destruct (transfer_result_PSI (sink_room env) (open_elementary_stream bytes)
                  (pmt_pid v) (video_pid v) (stream_type_byte VIDEO_H262) (max2 v) Hroom)
        as (pat & pmt & Hpat & Hpmt & Hpre).
      eexists _, pat, pmt. split; [reflexivity|]. split; [exact Hpre|].
      split; [exact Hpat|]. split; [exact Hpmt|].
      exact (is_PMT_stream_type _ _ _ _ Hpmt).
Qed.

(** C3: the stream type [main] hands to [transfer_data], and the
    stream_type byte of the PMT that is written, is the one of the video
    type in force: 0x02 for H.262, 0x1B for H.264, 0x42 for AVS.  The
    switches -h262, -h264, -avc and -avs force their type; when a type is
    forced the detection is not called and the forced type is the one in
    force. *)
Theorem pmt_stream_type_matches (env : Env) (argv : list string) (v : locals)
    (p1 : process) :
  (2 <= length argv)%nat ->
  parse_args env (tail argv) locals_init boot = (Go v, p1) ->
  (forall a b st m, EvTransfer a b st m ∈ trace (main env argv).2 ->
     exists bytes t, read_input env (input_of v) = Some bytes
       /\ type_in_force env v bytes = Some t /\ st = stream_type_byte t
       /\ (st = 0x02 /\ t = VIDEO_H262 \/ st = 0x1B /\ t = VIDEO_H264
           \/ st = 0x42 /\ t = VIDEO_AVS))
  /\ (forall w pkt, output (main env argv).2 = Some w ->
        written w !! 1%nat = Some pkt ->
        exists bytes t, read_input env (input_of v) = Some bytes
          /\ type_in_force env v bytes = Some t
          /\ pmt_stream_type pkt = stream_type_byte t
          /\ (pmt_stream_type pkt = 0x02 /\ t = VIDEO_H262
              \/ pmt_stream_type pkt = 0x1B /\ t = VIDEO_H264
              \/ pmt_stream_type pkt = 0x42 /\ t = VIDEO_AVS))
  /\ (force_stream_type v = true ->
      (EvDecideType ∉ trace (main env argv).2)
      /\ forall bytes, type_in_force env v bytes = Some (video_type v))
  /\ (forall rest v0,
        parse_args env ("-h262"%string :: rest) v0
        = parse_args env rest (force_type VIDEO_H262 v0)
        /\ parse_args env ("-h264"%string :: rest) v0
           = parse_args env rest (force_type VIDEO_H264 v0)
        /\ parse_args env ("-avc"%string :: rest) v0
           = parse_args env rest (force_type VIDEO_H264 v0)
        /\ parse_args env ("-avs"%string :: rest) v0
           = parse_args env rest (force_type VIDEO_AVS v0)).
Proof.
  intros Hargc Hparse.
  destruct (main_run env argv v p1 Hargc Hparse) as (_ & -> & ->).
  assert (Hbyte : forall t, t <> VIDEO_UNKNOWN ->
            stream_type_byte t = 0x02 /\ t = VIDEO_H262
            \/ stream_type_byte t = 0x1B /\ t = VIDEO_H264
            \/ stream_type_byte t = 0x42 /\ t = VIDEO_AVS).
  { intros [] H; [contradiction | auto..]. }
  split; [|split; [|split]].
  - intros a b st m H.
    apply expected_run_transfer in H as (bytes & t & Hb & Ht & Hk & _ & _ & -> & _).
    exists bytes, t. auto.
  - intros w pkt Hw Hpkt.
    destruct (expected_run_PMT env v w pkt Hw Hpkt) as (bytes & t & Hb & Ht & Hk & Hpmt).
    exists bytes, t. apply is_PMT_stream_type in Hpmt.
    assert (E : pmt_stream_type pkt = stream_type_byte t).
    { rewrite Hpmt. now destruct t. }
    rewrite E. auto.
  - intros Hforce. split.
    + intros H. apply expected_run_detection in H as [H _]. congruence.
    + intros bytes. unfold type_in_force. now rewrite Hforce.
  - intros rest v0. repeat split.
Qed.

(** C8, as it stands, fails: with -pid 0x66 the video PID equals the
    default PMT PID 0x66, yet [main] opens the output sink and writes to
    it. *)
Lemma colliding_pids_accepted :
  ~ rejects_invalid_pids Sample.sample_env
      ["es2ts"; "-pid"; "0x66"; "three.es"; "out.ts"]%string.
Proof.
  intros H.
  destruct (H (set_output_name "out.ts" (set_input_name "three.es"
                 (set_video_pid 0x66 locals_init))) boot) as [_ Hout].
  - vm_compute. reflexivity.
  - unfold valid_pids. cbn. lia.
  - vm_compute in Hout. discriminate.
Qed.

(** C8 (amended): [main] does not check the PIDs.  The values
    [unsigned_value] returns for -pid and -pmt are stored as they are and,
    whatever they are, a run whose input opens, whose video type is known
    and whose sink opens goes on to open the sink and to call
    [transfer_data] with them. *)
Theorem pids_passed_unchecked (env : Env) (argv : list string) (v : locals)
    (p1 : process) (bytes : list Z) (t : H222.video_type) :
  (2 <= length argv)%nat ->
  parse_args env (tail argv) locals_init boot = (Go v, p1) ->
  had_input_name v = true -> had_output_name v = true ->
  read_input env (input_of v) = Some bytes ->
  type_in_force env v bytes = Some t -> t <> VIDEO_UNKNOWN ->
  sink_opens env (target_of v) = true ->
  trace (main env argv).2
  = EvOpenInput (input_of v) :: detection v
    ++ [EvOpenOutput (target_of v);
        EvTransfer (pmt_pid v) (video_pid v) (stream_type_byte t) (max2 v);
        EvCloseInput; EvCloseOutput]
  /\ output (main env argv).2
     = Some (transfer_result (tswrite_fresh (sink_room env))
               (open_elementary_stream bytes) (pmt_pid v) (video_pid v)
               (stream_type_byte t) (max2 v)).2
  /\ (forall b rest v0 n, unsigned_value env b 0 = Some n ->
        parse_args env ("-pid"%string :: b :: rest) v0
        = parse_args env rest (set_video_pid n v0))
  /\ (forall b rest v0 n, unsigned_value env b 0 = Some n ->
        parse_args env ("-pmt"%string :: b :: rest) v0
        = parse_args env rest (set_pmt_pid n v0)).
Proof.
  intros Hargc Hparse Hin Hout Hread Htype Hknown Hopen.
  destruct (main_run env argv v p1 Hargc Hparse) as (_ & -> & ->).
  unfold expected_run. rewrite Hin, Hout, Hread, Htype, Hopen. cbn [negb orb].
  split; [|split; [|split]].
  - destruct t; [contradiction | reflexivity..].
  - destruct t; [contradiction | reflexivity..].
  - intros b rest v0 n. apply parse_pid.
  - intros b rest v0 n. apply parse_pmt.
Qed.

(** ** The claims at concrete inputs *)

Lemma psi_first_then_units_in_order_witness :
  exists pat pmt groups,
    ts_pid pat = 0 /\ ts_pid pmt = 0x66 /\ length groups = 3%nat
    /\ written (io_out (transfer_data 0x66 0x68 0x02 0 false true
                          (IO (open_elementary_stream Sample.three_units)
                              (tswrite_fresh None) (PState fns_default []))).2)
       = pat :: pmt :: concat groups.
Proof.
  destruct (psi_first_then_units_in_order 0x66 0x68 0x02 0 false true
              (open_elementary_stream Sample.three_units) None (PState fns_default []))
    as (pat & pmt & groups & _ & Hpat & _ & _ & Hpmt & Hall & _ & _ & Hok & Hlim).
  exists pat, pmt, groups.
  split; [exact Hpat|]. split; [apply Hpmt; lia|].
  split; [apply Forall2_length in Hall; rewrite Hall; reflexivity|].
  apply Hok, Hlim. reflexivity.
Defined.

Lemma max_units_cap_witness :
  exists pat pmt groups,
    length groups = 2%nat
    /\ written (io_out (transfer_data 0x66 0x68 0x02 2 false true
                          (IO (open_elementary_stream Sample.three_units)
                              (tswrite_fresh None) (PState fns_default []))).2)
       = pat :: pmt :: concat groups.
Proof.
  destruct (max_units_cap 0x66 0x68 0x02 2 false true
              (open_elementary_stream Sample.three_units) None (PState fns_default []))
    as [Hlim Hrun].
  destruct (Hrun (Hlim eq_refl)) as (pat & pmt & groups & _ & _ & Hw & Hcap & _).
  exists pat, pmt, groups. split; [|exact Hw].
  apply Hcap. vm_compute. split; [reflexivity | discriminate].
Defined.

Lemma es_round_trip_witness :
  valid_ES Sample.three_units /\ valid_pids 0x66 0x68
  /\ recovered_ES 0x68
       (sink_bytes (io_out (transfer_data 0x66 0x68 0x02 0 false true
                              (IO (open_elementary_stream Sample.three_units)
                                  (tswrite_fresh None) (PState fns_default []))).2))
     = from_first_startcode Sample.three_units.
Proof.
  assert (Hpids : valid_pids 0x66 0x68) by (unfold valid_pids; lia).
  assert (Hvalid : valid_ES Sample.three_units).
  { unfold valid_ES. intros [k Hk].
    apply (f_equal (@rev Z)) in Hk. rewrite rev_app_distr in Hk. discriminate. }
  split; [exact Hvalid|]. split; [exact Hpids|].
  destruct (es_round_trip Sample.three_units 0x66 0x68 0x02 0 false true None
              (PState fns_default []) Hvalid Hpids) as [Hlim Hrt]; [lia|].
  apply Hrt, Hlim. reflexivity.
Defined.

Lemma empty_input_PAT_PMT_only_witness :
  (main Sample.sample_env ["es2ts"; "-h262"; "empty.es"; "out.ts"]%string).1 = Some 0
  /\ length (ts_output (main Sample.sample_env
                          ["es2ts"; "-h262"; "empty.es"; "out.ts"]%string).2) = 376%nat.
Proof.
  destruct (empty_input_PAT_PMT_only Sample.sample_env
              ["es2ts"; "-h262"; "empty.es"; "out.ts"]%string
              (set_output_name "out.ts" (set_input_name "empty.es"
                 (force_type VIDEO_H262 locals_init)))
              boot [] VIDEO_H262) as (Hcode & Hlen & _);
    try reflexivity.
  - simpl. lia.
  - discriminate.
  - split; assumption.
Defined.

Lemma unknown_type_fails_before_output_witness :
  (main Sample.sample_env ["es2ts"; "empty.es"; "out.ts"]%string).1 = Some 1
  /\ ts_output (main Sample.sample_env ["es2ts"; "empty.es"; "out.ts"]%string).2 = [].
Proof.
  destruct (unknown_type_fails_before_output Sample.sample_env
              ["es2ts"; "empty.es"; "out.ts"]%string
              (set_output_name "out.ts" (set_input_name "empty.es" locals_init)) boot)
    as (Hcode & _ & Hbytes & _); try reflexivity.
  - simpl. lia.
  - intros bytes [= <-]. reflexivity.
  - split; assumption.
Defined.

Lemma stdin_defaults_to_H262_witness :
  (EvDecideType ∉ trace (main Sample.sample_env ["es2ts"; "-stdin"; "out.ts"]%string).2)
  /\ EvTransfer 0x66 0x68 0x02 0
     ∈ trace (main Sample.sample_env ["es2ts"; "-stdin"; "out.ts"]%string).2
  /\ exists w pat pmt,
       output (main Sample.sample_env ["es2ts"; "-stdin"; "out.ts"]%string).2 = Some w
       /\ [pat; pmt] `prefix_of` written w
       /\ pmt_stream_type pmt = 0x02.
Proof.
  destruct (stdin_defaults_to_H262 Sample.sample_env
              ["es2ts"; "-stdin"; "out.ts"]%string
              (set_output_name "out.ts" (set_stdin locals_init)) boot)
    as (Hdet & _ & _ & _ & Hcall); try reflexivity.
  - simpl. lia.
  - destruct Hcall as [Hcall Hpmt]; try reflexivity; [discriminate|].
    destruct Hpmt as (w & pat & pmt & Hw & Hpre & _ & _ & Hst); [exact I|].
    split; [exact Hdet|]. split; [exact Hcall|].
    exists w, pat, pmt. auto.
Defined.

Lemma pmt_stream_type_matches_witness :
  decide_ES_file_video_type Sample.sample_env Sample.minimal_h262 = Some VIDEO_H262
  /\ (EvDecideType
      ∉ trace (main Sample.sample_env
                 ["es2ts"; "-h264"; "minimal.es"; "out.ts"]%string).2)
  /\ exists w pkt,
       output (main Sample.sample_env
                 ["es2ts"; "-h264"; "minimal.es"; "out.ts"]%string).2 = Some w
       /\ written w !! 1%nat = Some pkt /\ pmt_stream_type pkt = 0x1B.
Proof.
  destruct (pmt_stream_type_matches Sample.sample_env
              ["es2ts"; "-h264"; "minimal.es"; "out.ts"]%string
              (set_output_name "out.ts" (set_input_name "minimal.es"
                 (force_type VIDEO_H264 locals_init))) boot)
    as (_ & Hpmt & Hforce & _); try reflexivity.
  - simpl. lia.
  - split; [reflexivity|]. split; [apply Hforce; reflexivity|].
    destruct (output (main Sample.sample_env
                        ["es2ts"; "-h264"; "minimal.es"; "out.ts"]%string).2)
      as [w|] eqn:Ew; [|vm_compute in Ew; discriminate].
    destruct (written w !! 1%nat) as [pkt|] eqn:Epkt.
    + exists w, pkt. split; [reflexivity|]. split; [exact Epkt|].
      destruct (Hpmt w pkt eq_refl Epkt) as (bytes & t & Hb & Ht & E & _).
      rewrite E. injection Ht as <-. reflexivity.
    + exfalso. vm_compute in Ew. injection Ew as <-. vm_compute in Epkt. discriminate.
Defined.

Lemma pids_passed_unchecked_witness :
  ~ valid_pids 0x66 0x66
  /\ EvTransfer 0x66 0x66 0x02 0
     ∈ trace (main Sample.sample_env
                ["es2ts"; "-pid"; "0x66"; "three.es"; "out.ts"]%string).2.
Proof.
  split; [unfold valid_pids; lia|].
  destruct (pids_passed_unchecked Sample.sample_env
              ["es2ts"; "-pid"; "0x66"; "three.es"; "out.ts"]%string
              (set_output_name "out.ts" (set_input_name "three.es"
                 (set_video_pid 0x66 locals_init))) boot Sample.three_units VIDEO_H262)
    as (-> & _); try reflexivity.
  - simpl. lia.
  - discriminate.
  - apply elem_of_cons. right. apply elem_of_cons. right.
    apply elem_of_cons. right. apply elem_of_cons. now left.
Defined.

(* ===================================================================== *)
(** * Further properties of transfer_data *)
(* ===================================================================== *)

(** X1: what [transfer_data] prints has no influence on what it writes:
    the writer it leaves and its return value are the same whatever
    [verbose] and [quiet] are and whatever table of printing functions
    is installed. *)
Theorem transfer_data_ignores_printing (pmt_pid video_pid stream_type max2 : Z)
    (es : ES) (w : TS_writer) (verbose1 quiet1 verbose2 quiet2 : bool)
    (print1 print2 : pstate) :
  let run1 := transfer_data pmt_pid video_pid stream_type max2 verbose1 quiet1
                (IO es w print1) in
  let run2 := transfer_data pmt_pid video_pid stream_type max2 verbose2 quiet2
                (IO es w print2) in
  run1.1 = run2.1 /\ io_out run1.2 = io_out run2.2.
Proof.
  cbv zeta.
  destruct (transfer_data_run pmt_pid video_pid stream_type max2 verbose1 quiet1
              (IO es w print1)) as [-> E1].
  destruct (transfer_data_run pmt_pid video_pid stream_type max2 verbose2 quiet2
              (IO es w print2)) as [-> E2].
  rewrite E1, E2. auto.
Qed.

(* ===================================================================== *)
(** * Further properties of printing.h *)
(* ===================================================================== *)

Lemma perform_all_app (calls1 calls2 : list PrintingUse.call) (p : pstate) :
  PrintingUse.perform_all (calls1 ++ calls2) p
  = PrintingUse.perform_all calls2 (PrintingUse.perform_all calls1 p).
Proof. apply fold_left_app. Qed.

Lemma printing_keeps_table (c : PrintingUse.call) (p : pstate) :
  match c with
  | PrintingUse.Redirect_output_stderr | PrintingUse.Redirect_output_stdout
  | PrintingUse.Redirect_output _ _ _ _ _ => True
  | _ => fns (PrintingUse.perform c p) = fns p
  end.
Proof.
  destruct c as [| |m e fm fe fl|text|text|format args|format args|is_msg format args|];
    cbn [PrintingUse.perform]; try exact I.
  - unfold print_msg, call_msg. now destruct (print_message_fn (fns p)).
  - unfold print_err, call_msg. now destruct (print_error_fn (fns p)).
  - unfold fprint_msg, call_fmt. now destruct (fprint_message_fn (fns p)).
  - unfold fprint_err, call_fmt. now destruct (fprint_error_fn (fns p)).
  - unfold fprint_msg_or_err, call_fmt.
    now destruct is_msg, (fprint_message_fn (fns p)), (fprint_error_fn (fns p)).
  - unfold flush_msg. now destruct (flush_message_fn (fns p)).
Qed.

Lemma perform_complete (c : PrintingUse.call) (p : pstate) :
  PrintingUse.complete (fns p) -> PrintingUse.complete (fns (PrintingUse.perform c p)).
Proof.
  intros Hp. pose proof (printing_keeps_table c p) as Hk.
  destruct c as [| |m e fm fe fl|text|text|format args|format args|is_msg format args|];
    try (rewrite Hk; exact Hp).
  - cbn. repeat split; intros [=].
  - cbn. repeat split; intros [=].
  - cbn [PrintingUse.perform]. unfold redirect_output.
    destruct m, e, fm, fe, fl; cbn; try exact Hp. repeat split; intros [=].
Qed.

(** X2: whatever calls of [printing.h] a program makes, in whatever
    order and with whatever arguments (null pointers included), the table
    of printing functions never holds a null pointer. *)
Theorem print_table_never_null (calls : list PrintingUse.call) :
  PrintingUse.complete (fns (PrintingUse.perform_all calls PrintingUse.initial)).
Proof.
  assert (H : forall p, PrintingUse.complete (fns p) ->
            PrintingUse.complete (fns (PrintingUse.perform_all calls p))).
  { induction calls as [|c calls IH]; intros p Hp; [exact Hp|].
    cbn. apply IH, perform_complete, Hp. }
  apply H. cbn. repeat split; intros [=].
Qed.

(** X3: after [redirect_output_stderr] normal messages are appended to
    stdout and error messages to stderr, by each of the printing
    functions; after [redirect_output_stdout] both go to stdout.  This
    holds whatever was installed before. *)
Theorem standard_redirections_route (p : pstate) (text format : string)
    (args : list arg) (is_msg : bool) :
  let t := redirect_output_stderr p in
  let d := redirect_output_stdout p in
  print_msg text t = PState (fns t) (shown p ++ [Line Stdout text []])
  /\ print_err text t = PState (fns t) (shown p ++ [Line Stderr text []])
  /\ fprint_msg format args t = PState (fns t) (shown p ++ [Line Stdout format args])
  /\ fprint_err format args t = PState (fns t) (shown p ++ [Line Stderr format args])
  /\ fprint_msg_or_err is_msg format args t
     = PState (fns t)
         (shown p ++ [Line (if is_msg then Stdout else Stderr) format args])
  /\ flush_msg t = t
  /\ print_msg text d = PState (fns d) (shown p ++ [Line Stdout text []])
  /\ print_err text d = PState (fns d) (shown p ++ [Line Stdout text []])
  /\ fprint_msg format args d = PState (fns d) (shown p ++ [Line Stdout format args])
  /\ fprint_err format args d = PState (fns d) (shown p ++ [Line Stdout format args])
  /\ fprint_msg_or_err is_msg format args d
     = PState (fns d) (shown p ++ [Line Stdout format args])
  /\ flush_msg d = d.
Proof. destruct is_msg; repeat split. Qed.

(** X4: after [redirect_output] has returned 0 each printing function
    calls exactly the function given for it (and [fprint_msg_or_err] the
    message or the error one); after it has returned 1 they all behave as
    before the call. *)
Theorem redirect_output_then_print (m e : msg_fn) (fm fe : fmt_fn) (fl : flush_fn)
    (m' e' : fnptr msg_fn) (fm' fe' : fnptr fmt_fn) (fl' : fnptr flush_fn)
    (p : pstate) (text format : string) (args : list arg) (is_msg : bool) :
  let ok := redirect_output (Some m) (Some e) (Some fm) (Some fe) (Some fl) p in
  let ko := redirect_output m' e' fm' fe' fl' p in
  ok.1 = 0
  /\ shown (print_msg text ok.2) = m text (shown p)
  /\ shown (print_err text ok.2) = e text (shown p)
  /\ shown (fprint_msg format args ok.2) = fm format args (shown p)
  /\ shown (fprint_err format args ok.2) = fe format args (shown p)
  /\ shown (fprint_msg_or_err is_msg format args ok.2)
     = (if is_msg then fm else fe) format args (shown p)
  /\ shown (flush_msg ok.2) = fl (shown p)
  /\ (ko.1 = 1 ->
      print_msg text ko.2 = print_msg text p
      /\ print_err text ko.2 = print_err text p
      /\ fprint_msg format args ko.2 = fprint_msg format args p
      /\ fprint_err format args ko.2 = fprint_err format args p
      /\ fprint_msg_or_err is_msg format args ko.2
         = fprint_msg_or_err is_msg format args p
      /\ flush_msg ko.2 = flush_msg p).
Proof.
  cbv zeta. repeat split; try (destruct is_msg; reflexivity).
  all: revert H; unfold redirect_output;
    destruct m', e', fm', fe', fl'; cbn; intros H; first [discriminate | reflexivity].
Qed.

(* ===================================================================== *)
(** * Further properties of es2ts *)
(* ===================================================================== *)

(** ** What the switch loop prints and how it ends *)

Lemma parse_args_console_bounded (env : Env) (n : nat) :
  forall (args : list string) (v : locals) (p p' : process) (o : outcome locals),
  (length args <= n)%nat ->
  parse_args env args v p = (o, p') ->
  match o with
  | Go _ => shown (printing p') = shown (printing p)
  | Exit code => code = 0 \/ code = 1
  | Stuck => False
  end.
Proof.
  induction n as [|n IH]; intros args v p p' o Hlen H.
  - destruct args; [|simpl in Hlen; lia]. cbn in H. now injection H as <- <-.
  - destruct args as [|a rest].
    { cbn in H. now injection H as <- <-. }
    cbn [parse_args] in H. simpl in Hlen.
    assert (IH1 : forall v1 p1, shown (printing p1) = shown (printing p) ->
                  parse_args env rest v1 p1 = (o, p') ->
                  match o with
                  | Go _ => shown (printing p') = shown (printing p)
                  | Exit code => code = 0 \/ code = 1
                  | Stuck => False
                  end).
    { intros v1 p1 Hp E. rewrite <- Hp. apply (IH rest v1 p1 p' o); [lia | assumption]. }
    assert (IH2 : forall b rest' v1 p1, rest = b :: rest' ->
                  shown (printing p1) = shown (printing p) ->
                  parse_args env rest' v1 p1 = (o, p') ->
                  match o with
                  | Go _ => shown (printing p') = shown (printing p)
                  | Exit code => code = 0 \/ code = 1
                  | Stuck => False
                  end).
    { intros b rest' v1 p1 -> Hp E. rewrite <- Hp.
      apply (IH rest' v1 p1 p' o); [simpl in Hlen; lia | assumption]. }
    clear IH.
    repeat parse_step H;
      first
        [ injection H as <- <-; auto
        | eapply IH1; [|exact H]; reflexivity
        | eapply IH2; [reflexivity | | exact H]; reflexivity ].
Qed.

Lemma parse_args_console (env : Env) (args : list string) (v : locals)
    (p p' : process) (o : outcome locals) :
  parse_args env args v p = (o, p') ->
  match o with
  | Go _ => shown (printing p') = shown (printing p)
  | Exit code => code = 0 \/ code = 1
  | Stuck => False
  end.
Proof. apply (parse_args_console_bounded env (length args)). lia. Qed.

(** ** The ways a run of main can go *)

Lemma expected_exit_code (env : Env) (v : locals) :
  exit_code (expected_run env v) = 0 \/ exit_code (expected_run env v) = 1.
Proof.
  unfold expected_run.
  repeat match goal with
         | |- context [if ?c then _ else _] => destruct c
         | |- context [match ?x with _ => _ end] => destruct x
         end; cbn; auto.
Qed.

Lemma main_cases (env : Env) (argv : list string) :
  (trace (main env argv).2 = [] /\ output (main env argv).2 = None
   /\ ((main env argv).1 = Some 0 \/ (main env argv).1 = Some 1))
  \/ exists v p1,
       (2 <= length argv)%nat
       /\ parse_args env (tail argv) locals_init boot = (Go v, p1)
       /\ (main env argv).1 = Some (exit_code (expected_run env v))
       /\ trace (main env argv).2 = calls (expected_run env v)
       /\ output (main env argv).2 = writer (expected_run env v).
Proof.
  destruct (Nat.ltb_spec (length argv) 2) as [Hlt|Hge].
  - left. unfold main. destruct (Nat.ltb_spec (length argv) 2) as [_|]; [|lia].
    destruct (andthen_prints print_usage (fun _ => exit (A:=Z) 0) boot
                print_usage_only_prints) as [pr ->].
    cbn. auto.
  - destruct (parse_args env (tail argv) locals_init boot) as [[v|code|] p1] eqn:E.
    + right. exists v, p1. split; [exact Hge|]. split; [reflexivity|].
      now apply (main_run env argv v p1).
    + left. pose proof (parse_args_console _ _ _ _ _ _ E) as Hcode. cbn in Hcode.
      apply parse_args_quiet in E as Hq. destruct Hq as [Htr Hout].
      unfold main. destruct (Nat.ltb_spec (length argv) 2) as [|_]; [lia|].
      unfold andthen. rewrite E. cbn [fst snd]. rewrite Htr, Hout.
      split; [reflexivity|]. split; [reflexivity|].
      destruct Hcode as [-> | ->]; auto.
    + now apply parse_args_not_stuck in E.
Qed.

(** X5: [main] of es2ts exits with 0 or with 1, never with another
    code: whatever error code [transfer_data] returns is turned into 1. *)
Theorem es2ts_exit_code_0_or_1 (env : Env) (argv : list string) :
  (main env argv).1 = Some 0 \/ (main env argv).1 = Some 1.
Proof.
  destruct (main_cases env argv) as [(_ & _ & H) | (v & p1 & _ & _ & -> & _)];
    [exact H|].
  destruct (expected_exit_code env v) as [-> | ->]; auto.
Qed.

Lemma expected_run_success (env : Env) (v : locals) :
  exit_code (expected_run env v) = 0 ->
  exists bytes t,
    had_input_name v = true /\ had_output_name v = true
    /\ read_input env (input_of v) = Some bytes
    /\ type_in_force env v bytes = Some t /\ t <> VIDEO_UNKNOWN
    /\ sink_opens env (target_of v) = true /\ sink_closes env = true
    /\ (transfer_result (tswrite_fresh (sink_room env)) (open_elementary_stream bytes)
          (pmt_pid v) (video_pid v) (stream_type_byte t) (max2 v)).1 = 0
    /\ writer (expected_run env v)
       = Some (transfer_result (tswrite_fresh (sink_room env))
                 (open_elementary_stream bytes) (pmt_pid v) (video_pid v)
                 (stream_type_byte t) (max2 v)).2
    /\ calls (expected_run env v)
       = EvOpenInput (input_of v) :: detection v
         ++ [EvOpenOutput (target_of v);
             EvTransfer (pmt_pid v) (video_pid v) (stream_type_byte t) (max2 v);
             EvCloseInput; EvCloseOutput].
Proof.
  unfold expected_run.
  destruct (had_input_name v); [|discriminate].
  destruct (had_output_name v); [|discriminate]. cbn [negb orb].
  destruct (read_input env (input_of v)) as [bytes|]; [|discriminate].
  destruct (type_in_force env v bytes) as [t|] eqn:Et; [|discriminate].
  intros H. exists bytes, t.
  assert (Ht : t <> VIDEO_UNKNOWN) by (intros ->; discriminate).
  split; [reflexivity|]. split; [reflexivity|]. split; [reflexivity|].
  split; [exact Et|]. split; [exact Ht|].
  destruct (sink_opens env (target_of v)).
  2:{ destruct t; discriminate. }
  destruct (sink_closes env).
  2:{ destruct t; discriminate. }
  cbn [negb] in *. cbv zeta in *.
  destruct (Z.eqb_spec (transfer_result (tswrite_fresh (sink_room env))
              (open_elementary_stream bytes) (pmt_pid v) (video_pid v)
              (stream_type_byte t) (max2 v)).1 0) as [E|E].
  2:{ destruct t; discriminate. }
  split; [reflexivity|]. split; [reflexivity|]. split; [exact E|].
  destruct t; [contradiction | split; reflexivity..].
Qed.

(** X6: es2ts reports success (exit code 0) only in two cases: it
    opened nothing at all (the usage text was asked for), or it opened the
    input and the sink, [transfer_data] returned 0 on them, and the input
    and then the sink were closed, the sink without error. *)
Theorem es2ts_success_means_complete (env : Env) (argv : list string) :
  (main env argv).1 = Some 0 ->
  (trace (main env argv).2 = [] /\ output (main env argv).2 = None)
  \/ exists v p1 bytes t,
       parse_args env (tail argv) locals_init boot = (Go v, p1)
       /\ read_input env (input_of v) = Some bytes
       /\ type_in_force env v bytes = Some t
       /\ sink_opens env (target_of v) = true /\ sink_closes env = true
       /\ (transfer_result (tswrite_fresh (sink_room env))
             (open_elementary_stream bytes) (pmt_pid v) (video_pid v)
             (stream_type_byte t) (max2 v)).1 = 0
       /\ output (main env argv).2
          = Some (transfer_result (tswrite_fresh (sink_room env))
                    (open_elementary_stream bytes) (pmt_pid v) (video_pid v)
                    (stream_type_byte t) (max2 v)).2
       /\ trace (main env argv).2
          = EvOpenInput (input_of v) :: detection v
            ++ [EvOpenOutput (target_of v);
                EvTransfer (pmt_pid v) (video_pid v) (stream_type_byte t) (max2 v);
                EvCloseInput; EvCloseOutput].
Proof.
  intros Hcode.
  destruct (main_cases env argv) as [(Htr & Hout & _) | (v & p1 & _ & Hp & Hc & Ht & Hw)];
    [left; auto|].
  right. rewrite Hc in Hcode. injection Hcode as Hcode.
  destruct (expected_run_success env v Hcode)
    as (bytes & t & _ & _ & Hb & Hty & _ & Hop & Hcl & Hr & Hwr & Hcalls).
  exists v, p1, bytes, t. rewrite Ht, Hw. auto 10.
Qed.

Lemma expected_calls_shape (env : Env) (v : locals) :
  let r := expected_run env v in
  calls r = []
  \/ (calls r = [EvOpenInput (input_of v)] /\ read_input env (input_of v) = None
      /\ writer r = None)
  \/ (exists bytes, read_input env (input_of v) = Some bytes
      /\ had_input_name v = true /\ had_output_name v = true
      /\ ((calls r = EvOpenInput (input_of v) :: detection v ++ [EvCloseInput]
           /\ writer r = None)
          \/ (calls r = EvOpenInput (input_of v) :: detection v
                        ++ [EvOpenOutput (target_of v); EvCloseInput]
              /\ writer r = None)
          \/ (exists st m,
                calls r = EvOpenInput (input_of v) :: detection v
                          ++ [EvOpenOutput (target_of v);
                              EvTransfer (pmt_pid v) (video_pid v) st m;
                              EvCloseInput; EvCloseOutput]
                /\ writer r <> None))).
Proof.
  cbv zeta. unfold expected_run.
  destruct (had_input_name v); [|now left].
  destruct (had_output_name v); [|now left]. cbn [negb orb].
  destruct (read_input env (input_of v)) as [bytes|]; [|right; left; auto].
  right. right. exists bytes. split; [reflexivity|]. split; [reflexivity|].
  split; [reflexivity|].
  destruct (type_in_force env v bytes) as [[]|]; try (left; split; reflexivity);
    (destruct (sink_opens env (target_of v)); cbn [negb];
     [right; right; eexists _, _; split; [reflexivity | discriminate]
     | right; left; split; reflexivity]).
Qed.

Lemma detection_cases (v : locals) : detection v = [] \/ detection v = [EvDecideType].
Proof. unfold detection. destruct (_ || _); auto. Qed.

Ltac trace_in :=
  repeat first [apply elem_of_cons; left; reflexivity | apply elem_of_cons; right].

Ltac trace_out H :=
  exfalso; repeat (apply elem_of_cons in H as [H|H]; [discriminate|]);
  apply elem_of_nil in H; exact H.

Ltac trace_nodup :=
  repeat (apply NoDup_cons_2; [let H := fresh "H" in intros H; trace_out H|]);
  apply NoDup_nil_2.

(** X7: in every run of es2ts an input that was opened is closed, a
    sink that was opened is closed, the input is closed before the sink,
    nothing is closed that was not opened, and no call (open, detect,
    transfer, close) is made twice. *)
Theorem es2ts_closes_what_it_opens (env : Env) (argv : list string) :
  let tr := trace (main env argv).2 in
  (forall name bytes, EvOpenInput name ∈ tr -> read_input env name = Some bytes ->
                      EvCloseInput ∈ tr)
  /\ (output (main env argv).2 <> None -> EvCloseOutput ∈ tr)
  /\ (EvCloseOutput ∈ tr ->
      output (main env argv).2 <> None
      /\ exists before, tr = before ++ [EvCloseInput; EvCloseOutput])
  /\ (EvCloseInput ∈ tr ->
      exists name bytes, EvOpenInput name ∈ tr /\ read_input env name = Some bytes)
  /\ NoDup tr.
Proof.
  cbv zeta.
  assert (Hnil : output (main env argv).2 = None -> trace (main env argv).2 = [] ->
    (forall name bytes, EvOpenInput name ∈ @nil event ->
                        read_input env name = Some bytes -> EvCloseInput ∈ @nil event)
    /\ (output (main env argv).2 <> None -> EvCloseOutput ∈ @nil event)
    /\ (EvCloseOutput ∈ @nil event ->
        output (main env argv).2 <> None
        /\ exists before, @nil event = before ++ [EvCloseInput; EvCloseOutput])
    /\ (EvCloseInput ∈ @nil event ->
        exists name bytes, EvOpenInput name ∈ @nil event
                           /\ read_input env name = Some bytes)
    /\ NoDup (@nil event)).
  { intros Ho _. split; [intros name bytes H; trace_out H|].
    split; [congruence|]. split; [intros H; trace_out H|].
    split; [intros H; trace_out H | apply NoDup_nil_2]. }
  destruct (main_cases env argv)
    as [(Htr & Hout & _) | (v & p1 & _ & _ & _ & Htr & Hout)].
  { rewrite Htr. now apply Hnil. }
  pose proof (detection_cases v) as Hd.
  destruct (expected_calls_shape env v)
    as [E | [(E & Hnone & Ew) | (bytes & Hb & _ & _ & Hshape)]].
  - rewrite Htr, E. apply Hnil; [|now rewrite Htr].
    rewrite Hout. unfold expected_run in *.
    destruct (negb (had_input_name v) || negb (had_output_name v)); [reflexivity|].
    destruct (read_input env (input_of v)); [|discriminate].
    destruct (type_in_force env v l) as [[]|]; try discriminate;
      destruct (sink_opens env (target_of v)); discriminate.
  - rewrite Htr, Hout, E, Ew.
    split; [intros name bytes H Hr; apply list_elem_of_singleton in H;
            injection H as ->; congruence|].
    split; [congruence|]. split; [intros H; trace_out H|].
    split; [intros H; trace_out H | trace_nodup].
  - rewrite Htr, Hout.
    assert (Hopen : forall l, EvOpenInput (input_of v) ∈ EvOpenInput (input_of v) :: l)
      by (intros l; apply elem_of_cons; now left).
    destruct Hshape as [(-> & ->) | [(-> & ->) | (st & m & -> & Hw)]];
      destruct Hd as [-> | ->]; cbn [app].
    all: split; [intros name b _ _; trace_in|].
    all: split; [intros Hne; first [congruence | trace_in]|].
    all: split;
      [intros H; first [trace_out H | split; [exact Hw|]]|].
    all: try first
      [ now exists [EvOpenInput (input_of v); EvOpenOutput (target_of v);
                    EvTransfer (pmt_pid v) (video_pid v) st m]
      | now exists [EvOpenInput (input_of v); EvDecideType;
                    EvOpenOutput (target_of v);
                    EvTransfer (pmt_pid v) (video_pid v) st m] ].
    all: split; [intros _; exists (input_of v), bytes; split; [apply Hopen | exact Hb]|].
    all: trace_nodup.
Qed.

(** X8: es2ts opens nothing before the whole command line has been read
    without error and both an input and an output are known: a run that
    opened anything has parsed its arguments to the end with
    [had_input_name] and [had_output_name] set. *)
Theorem es2ts_opens_only_after_parsing (env : Env) (argv : list string) :
  trace (main env argv).2 <> [] ->
  exists v p1,
    (2 <= length argv)%nat
    /\ parse_args env (tail argv) locals_init boot = (Go v, p1)
    /\ had_input_name v = true /\ had_output_name v = true.
Proof.
  intros Htr.
  destruct (main_cases env argv) as [(E & _) | (v & p1 & Hlen & Hp & _ & Ht & _)];
    [contradiction|].
  exists v, p1. split; [exact Hlen|]. split; [exact Hp|].
  rewrite Ht in Htr. unfold expected_run in Htr.
  destruct (had_input_name v); [|contradiction].
  destruct (had_output_name v); [|contradiction]. auto.
Qed.

(** ** What a run prints *)

Lemma errors_only_refl (p : pstate) : PrintingUse.errors_only p p.
Proof. exists []. split; [constructor | reflexivity]. Qed.

Lemma errors_only_trans (p q r : pstate) :
  PrintingUse.errors_only p q -> PrintingUse.errors_only q r ->
  PrintingUse.errors_only p r.
Proof.
  intros (c1 & H1 & ->) (c2 & H2 & ->). exists (c1 ++ c2).
  split; [now apply Forall_app | now rewrite perform_all_app].
Qed.

Lemma errors_only_print_err (text : string) (p : pstate) :
  PrintingUse.errors_only p (print_err text p).
Proof. exists [PrintingUse.Print_err text]. split; [repeat constructor | reflexivity]. Qed.

Lemma errors_only_fprint_err (format : string) (args : list arg) (p : pstate) :
  PrintingUse.errors_only p (fprint_err format args p).
Proof.
  exists [PrintingUse.Fprint_err format args]. split; [repeat constructor | reflexivity].
Qed.


(** ** What transfer_data prints *)

Lemma write_ES_unit_as_TS_printing (unit : ES_unit) (video_pid : Z) (s : io) :
  let r := write_ES_unit_as_TS unit video_pid s in
  (r.1 = 0 -> io_print r.2 = io_print s)
  /\ PrintingUse.errors_only (io_print s) (io_print r.2).
Proof.
  unfold write_ES_unit_as_TS, bind, on_output, say, ret.
  destruct (write_ES_as_TS_PES_packet (io_out s) (data unit) (data_len unit) video_pid
              DEFAULT_VIDEO_STREAM_ID) as [err w].
  cbv zeta. destruct (Z.eqb_spec err 0) as [-> | Hne]; cbn.
  - split; [reflexivity | apply errors_only_refl].
  - split; [congruence | apply errors_only_print_err].
Qed.

Lemma transfer_loop_printing (fuel : nat) (video_pid max2 : Z) :
  forall (count : Z) (s s' : io) (e : loop_end),
  transfer_loop fuel video_pid max2 false count s = (e, s') ->
  PrintingUse.errors_only (io_print s) (io_print s')
  /\ (forall c, e = LoopBreak c -> io_print s' = io_print s).
Proof.
  induction fuel as [|fuel IH]; intros count s s' e E.
  - cbn in E. injection E as <- <-. split; [apply errors_only_refl | discriminate].
  - cbn [transfer_loop] in E. unfold bind at 1 in E. unfold next_ES_unit in E.
    destruct (find_and_build_next_ES_unit (io_es s)) as [unit es'| |err] eqn:Enext.
    + unfold bind at 1 in E. unfold ret at 1 in E. unfold bind at 1 in E.
      pose proof (write_ES_unit_as_TS_printing unit video_pid
                    (IO es' (io_out s) (io_print s))) as Hw.
      cbv zeta in Hw. cbn [io_print] in Hw.
      destruct (write_ES_unit_as_TS unit video_pid (IO es' (io_out s) (io_print s)))
        as [err s2]. cbn [fst snd] in Hw. destruct Hw as [Hw0 Hw].
      destruct (Z.eqb_spec err 0) as [-> | Hne]; cbn [negb] in E.
      * rewrite <- (Hw0 eq_refl).
        destruct ((0 <? max2) && (max2 <=? count + 1)).
        -- injection E as <- <-. split; [apply errors_only_refl | reflexivity].
        -- now apply IH in E.
      * unfold bind, say, ret in E. injection E as <- <-. cbn [io_print].
        split; [|discriminate].
        eapply errors_only_trans; [exact Hw | apply errors_only_print_err].
    + injection E as <- <-. split; [apply errors_only_refl | reflexivity].
    + now apply next_unit_never_fails in Enext.
Qed.

Lemma transfer_data_printing (pmt_pid video_pid stream_type max2 : Z) (s s' : io)
    (r : option Z) :
  transfer_data pmt_pid video_pid stream_type max2 false true s = (r, s') ->
  PrintingUse.errors_only (io_print s) (io_print s')
  /\ (r = Some 0 -> io_print s' = io_print s).
Proof.
  intros E. pose proof (transfer_data_refines _ _ _ _ _ _ _ _ _ E) as [Hr _].
  unfold transfer_data in E. cbn [negb] in E. unfold bind at 1 in E.
  unfold ret at 1 in E. unfold bind at 1 in E. unfold on_output in E.
  unfold transfer_result in Hr.
  destruct (write_TS_program_data (io_out s) 1 1 pmt_pid video_pid stream_type)
    as [err w1].
  destruct (Z.eqb_spec err 0) as [-> | Hne]; cbn [negb] in E.
  - unfold bind at 1 in E. unfold bind at 1 in E.
    destruct (transfer_loop _ _ _ _ _ _) as [e s2] eqn:Eloop.
    pose proof Eloop as He.
    apply transfer_loop_refines in He as [_ He]; [|unfold loop_bound; cbn; lia|lia].
    apply transfer_loop_printing in Eloop as [Hp Hb]. cbn [io_print] in Hp, Hb.
    cbv zeta in He. cbn [io_out io_es] in He, Hr.
    destruct (emit_units w1 video_pid (capped max2 0 (all_units (io_es s))))
      as [err w2]. cbn [fst snd] in He, Hr.
    destruct (Z.eqb_spec err 0) as [-> | Hne]; subst e.
    + cbn in E. injection E as <- <-. split; [exact Hp|]. intros _. now apply (Hb _ eq_refl).
    + cbn in E. injection E as <- <-. split; [exact Hp|].
      intros [= H]. contradiction.
  - unfold bind, say, ret in E. injection E as <- <-. cbn [io_print].
    split; [apply errors_only_print_err|]. cbn [fst] in Hr. discriminate.
Qed.


(** X10: when the PAT or the PMT cannot be written, [transfer_data]
    returns 1 (whatever the writer returned), reads no ES unit and writes
    nothing more; it prints one error besides the quiet-dependent
    announcement. *)
Theorem program_data_failure_stops (pmt_pid video_pid stream_type max2 : Z)
    (verbose quiet : bool) (s : io) :
  (write_TS_program_data (io_out s) 1 1 pmt_pid video_pid stream_type).1 <> 0 ->
  let run := transfer_data pmt_pid video_pid stream_type max2 verbose quiet s in
  run.1 = Some 1
  /\ io_es run.2 = io_es s
  /\ io_out run.2
     = (write_TS_program_data (io_out s) 1 1 pmt_pid video_pid stream_type).2
  /\ exists before,
       io_print run.2 = print_err "### Error writing out TS program data\n" before.
Proof.
  intros Hfail. cbv zeta.
  destruct (transfer_data pmt_pid video_pid stream_type max2 verbose quiet s)
    as [r s'] eqn:E. cbn [fst snd].
  unfold transfer_data in E. unfold bind at 1 in E.
  set (s0 := (if negb quiet then say _ else ret tt) s) in E.
  assert (Hs0 : io_out s0.2 = io_out s /\ io_es s0.2 = io_es s).
  { unfold s0. destruct quiet; cbn; auto. }
  destruct s0 as [[] s0']. cbn [snd] in Hs0. destruct Hs0 as [Ho He].
  unfold bind at 1 in E. unfold on_output in E. rewrite Ho in E.
  destruct (write_TS_program_data (io_out s) 1 1 pmt_pid video_pid stream_type)
    as [err w1]. cbn [fst snd] in *.
  destruct (Z.eqb_spec err 0) as [-> | Hne]; [contradiction|].
  unfold bind, say, ret in E. cbn in E. injection E as <- <-. cbn.
  rewrite He. repeat split. eexists. reflexivity.
Qed.

(** ** What a quiet conversion prints *)


Lemma errors_only_then_print_err (text : string) (p q : pstate) :
  PrintingUse.errors_only p q -> PrintingUse.errors_only p (print_err text q).
Proof. intros H. eapply errors_only_trans; [exact H | apply errors_only_print_err]. Qed.

Lemma errors_only_then_fprint_err (format : string) (args : list arg) (p q : pstate) :
  PrintingUse.errors_only p q -> PrintingUse.errors_only p (fprint_err format args q).
Proof. intros H. eapply errors_only_trans; [exact H | apply errors_only_fprint_err]. Qed.

Ltac errors_leaf :=
  cbn [printing PrintingUse.succeeds];
  split;
  [ repeat first [apply errors_only_then_print_err | apply errors_only_then_fprint_err];
    first [apply errors_only_refl | assumption]
  | first [reflexivity | discriminate | contradiction | intros []
          | intros [=] | intros H; now inversion H ] ].

Lemma silent_andthen {A B} (m : Prog A) (k : A -> Prog B) :
  PrintingUse.silent_unless_failing m -> (forall a, PrintingUse.silent_unless_failing (k a)) ->
  PrintingUse.silent_unless_failing (andthen m k).
Proof.
  intros Hm Hk p o p' E. unfold andthen in E.
  destruct (m p) as [[a|code|] p1] eqn:Em.
  - destruct (Hm _ _ _ Em) as [H1 H2]. destruct (Hk a _ _ _ E) as [H3 H4].
    rewrite <- (H2 I). split; [exact H3 | exact H4].
  - injection E as <- <-. exact (Hm _ _ _ Em).
  - injection E as <- <-. exact (Hm _ _ _ Em).
Qed.

Lemma silent_log {B} (e : event) (k : Prog B) :
  PrintingUse.silent_unless_failing k -> PrintingUse.silent_unless_failing (andthen (log e) (fun _ => k)).
Proof. intros Hk p o p' E. rewrite andthen_log in E. exact (Hk _ _ _ E). Qed.

Lemma silent_go {A} (a : A) : PrintingUse.silent_unless_failing (go a).
Proof. intros p o p' [= <- <-]. errors_leaf. Qed.

Lemma silent_exit {A} (code : Z) : PrintingUse.silent_unless_failing (exit (A:=A) code).
Proof. intros p o p' [= <- <-]. errors_leaf. Qed.

Lemma silent_failure {A} (f : pstate -> pstate) (k : Prog A) :
  (forall q, PrintingUse.errors_only q (f q)) ->
  (forall p o p', k p = (o, p') -> printing p' = printing p /\ ~ PrintingUse.succeeds o) ->
  PrintingUse.silent_unless_failing (andthen (tell f) (fun _ => k)).
Proof.
  intros Hf Hk p o p' E. unfold andthen, tell in E.
  destruct (Hk _ _ _ E) as [-> Hno]. cbn [printing]. split; [apply Hf | tauto].
Qed.

Lemma quiet_open_input (env : Env) (name : option string) :
  PrintingUse.silent_unless_failing (open_input env name).
Proof.
  unfold open_input. apply silent_log.
  destruct (match name with None => stdin env | Some n => files env n end);
    [apply silent_go|].
  apply silent_failure; [intros q; apply errors_only_print_err|].
  intros p o p' [= <- <-]. split; [reflexivity | discriminate].
Qed.

Lemma quiet_decide_type (env : Env) (es : ES) (v : locals) :
  quiet v = true -> PrintingUse.silent_unless_failing (decide_type env es v).
Proof.
  intros Hq. unfold decide_type, tell_unless. rewrite Hq. cbn [negb].
  destruct (force_stream_type v || use_stdin v).
  - apply silent_andthen; intros; apply silent_go.
  - apply silent_log. destruct (decide_ES_file_video_type env (es_input es)).
    + apply silent_andthen; intros; apply silent_go.
    + apply silent_failure; [intros q; apply errors_only_print_err|].
      intros p o p' [= <- <-]. split; [reflexivity | discriminate].
Qed.

Lemma quiet_choose_stream_type (es : ES) (v : locals) :
  quiet v = true -> PrintingUse.silent_unless_failing (choose_stream_type es v).
Proof.
  intros Hq. unfold choose_stream_type, tell_unless. rewrite Hq. cbn [negb].
  destruct (video_type v);
    try (apply silent_andthen; intros; apply silent_go).
  apply silent_andthen; [apply silent_go|]. intros _.
  apply silent_failure; [intros q; apply errors_only_print_err|].
  intros p o p' [= <- <-]. split; [reflexivity | discriminate].
Qed.

Lemma quiet_write_output (env : Env) (es : ES) (v : locals) (stream_type : Z) :
  quiet v = true -> verbose v = false ->
  PrintingUse.silent_unless_failing (write_output env es v stream_type).
Proof.
  intros Hq Hv. unfold write_output. rewrite Hq. cbn [negb]. rewrite andb_false_r.
  apply silent_log. destruct (sink_opens env (target_of v)); cbn [negb].
  - apply silent_andthen; [apply silent_go|]. intros _. apply silent_log.
    intros p o p' E. unfold andthen at 1 in E. unfold call_transfer_data in E.
    rewrite Hq, Hv in E.
    destruct (transfer_data _ _ _ _ _ _ _) as [r s] eqn:Et.
    apply transfer_data_printing in Et as [He Hz]. cbn [io_print] in He, Hz.
    destruct r as [err|]; [|injection E as <- <-; errors_leaf].
    destruct (Z.eqb_spec err 0) as [-> | Hne]; cbn [negb] in E.
    + rewrite (Hz eq_refl) in *.
      revert E. run_steps. destruct (sink_closes env); cbn [negb];
        intros [= <- <-]; errors_leaf.
    + revert E. run_steps. destruct (sink_closes env); cbn [negb];
        intros [= <- <-]; errors_leaf.
  - apply silent_log. apply silent_failure; [intros q; apply errors_only_fprint_err|].
    intros p o p' [= <- <-]. split; [reflexivity | discriminate].
Qed.

Lemma silent_andthen_with {A B} (P : A -> Prop) (m : Prog A) (k : A -> Prog B) :
  PrintingUse.silent_unless_failing m ->
  (forall p a p', m p = (Go a, p') -> P a) ->
  (forall a, P a -> PrintingUse.silent_unless_failing (k a)) ->
  PrintingUse.silent_unless_failing (andthen m k).
Proof.
  intros Hm HP Hk p o p' E. unfold andthen in E.
  destruct (m p) as [[a|code|] p1] eqn:Em.
  - destruct (Hm _ _ _ Em) as [H1 H2].
    destruct (Hk a (HP _ _ _ Em) _ _ _ E) as [H3 H4].
    rewrite <- (H2 I). split; [exact H3 | exact H4].
  - injection E as <- <-. exact (Hm _ _ _ Em).
  - injection E as <- <-. exact (Hm _ _ _ Em).
Qed.

Lemma decide_type_keeps_verbosity (env : Env) (es : ES) (v v' : locals)
    (p p' : process) :
  decide_type env es v p = (Go v', p') ->
  quiet v' = quiet v /\ verbose v' = verbose v.
Proof.
  unfold decide_type. destruct (force_stream_type v || use_stdin v).
  - unfold tell_unless. destruct (negb (quiet v)); run_steps; intros [= <- _]; auto.
  - rewrite andthen_log. destruct (decide_ES_file_video_type env (es_input es)).
    + unfold tell_unless. destruct (negb (quiet v)); run_steps; intros [= <- _]; auto.
    + run_steps. discriminate.
Qed.

Lemma stdout_conversion_errors (env : Env) (v : locals) (p : process) :
  use_stdout v = true ->
  PrintingUse.errors_only (printing p) (printing (convert env v p).2)
  /\ ((convert env v p).1 = Exit 0 -> printing (convert env v p).2 = printing p).
Proof.
  intros Hs.
  assert (H : PrintingUse.silent_unless_failing (convert env v)).
  { unfold convert. rewrite Hs.
    destruct (had_input_name v); cbn [negb].
    2:{ apply silent_failure; [intros q; apply errors_only_print_err|].
        intros p0 o p' [= <- <-]. split; [reflexivity | discriminate]. }
    destruct (had_output_name v); cbn [negb].
    2:{ apply silent_failure; [intros q; apply errors_only_print_err|].
        intros p0 o p' [= <- <-]. split; [reflexivity | discriminate]. }
    apply silent_andthen; [apply quiet_open_input|]. intros es.
    apply silent_andthen; [unfold tell_unless; cbn; apply silent_go|]. intros _.
    apply (silent_andthen_with (fun v2 => quiet v2 = true /\ verbose v2 = false)).
    - now apply quiet_decide_type.
    - intros p0 v2 p' E. apply decide_type_keeps_verbosity in E as [-> ->]. now cbn.
    - intros v2 [Hq Hv]. apply silent_andthen; [now apply quiet_choose_stream_type|].
      intros stream_type. now apply quiet_write_output. }
  destruct (convert env v p) as [o p'] eqn:E. cbn [fst snd].
  destruct (H _ _ _ E) as [H1 H2]. split; [exact H1|]. intros ->. now apply H2.
Qed.

(** X11: when the transport stream goes to standard output, the
    conversion prints nothing but errors, and nothing at all when it ends
    with exit code 0: the switches -verbose and -quiet are overridden. *)
Theorem stdout_conversion_prints_errors_only (env : Env) (v : locals) (p : process) :
  use_stdout v = true ->
  PrintingUse.errors_only (printing p) (printing (convert env v p).2)
  /\ ((convert env v p).1 = Exit 0 -> printing (convert env v p).2 = printing p).
Proof. apply stdout_conversion_errors. Qed.

(** ** The printing table after the switches *)



(** ** The further properties at concrete runs *)

Lemma es2ts_success_means_complete_witness :
  (main Sample.sample_env ["es2ts"; "three.es"; "out.ts"]%string).1 = Some 0
  /\ exists tr, trace (main Sample.sample_env ["es2ts"; "three.es"; "out.ts"]%string).2
                = EvOpenInput (Some "three.es"%string) :: tr.
Proof.
  assert (H : (main Sample.sample_env ["es2ts"; "three.es"; "out.ts"]%string).1 = Some 0)
    by (vm_compute; reflexivity).
  split; [exact H|].
  destruct (es2ts_success_means_complete Sample.sample_env
              ["es2ts"; "three.es"; "out.ts"]%string H)
    as [[Hnil _] | (v & p1 & bytes & t & Hparse & _ & _ & _ & _ & _ & _ & Htr)].
  - vm_compute in Hnil. discriminate Hnil.
  - vm_compute in Hparse. injection Hparse as <- _. eexists. exact Htr.
Defined.

Lemma es2ts_opens_only_after_parsing_witness :
  exists v p1,
    parse_args Sample.sample_env ["empty.es"; "out.ts"]%string locals_init boot = (Go v, p1)
    /\ had_input_name v = true /\ had_output_name v = true.
Proof.
  destruct (es2ts_opens_only_after_parsing Sample.sample_env
              ["es2ts"; "empty.es"; "out.ts"]%string)
    as (v & p1 & _ & Hparse & Hin & Hout).
  - vm_compute. discriminate.
  - exists v, p1. auto.
Defined.

Lemma stdout_conversion_prints_errors_only_witness :
  PrintingUse.errors_only (printing boot)
    (printing (convert Sample.sample_env
                 (set_stdout (set_input_name "missing.es" locals_init)) boot).2)
  /\ (convert Sample.sample_env (set_stdout (set_input_name "three.es" locals_init))
        boot).1 = Exit 0
  /\ printing (convert Sample.sample_env
                 (set_stdout (set_input_name "three.es" locals_init)) boot).2
     = printing boot.
Proof.
  split; [|split].
  - apply (stdout_conversion_prints_errors_only Sample.sample_env
             (set_stdout (set_input_name "missing.es" locals_init)) boot).
    reflexivity.
  - vm_compute. reflexivity.
  - apply (stdout_conversion_prints_errors_only Sample.sample_env
             (set_stdout (set_input_name "three.es" locals_init)) boot).
    + reflexivity.
    + vm_compute. reflexivity.
Defined.



Lemma program_data_failure_stops_witness :
  (transfer_data 0x66 0x68 0x02 0 false true
     (IO (open_elementary_stream Sample.three_units) (tswrite_fresh (Some 1%nat))
         PrintingUse.initial)).1 = Some 1
  /\ length (written (io_out (transfer_data 0x66 0x68 0x02 0 false true
       (IO (open_elementary_stream Sample.three_units) (tswrite_fresh (Some 1%nat))
           PrintingUse.initial)).2)) = 1%nat.
Proof.
  destruct (program_data_failure_stops 0x66 0x68 0x02 0 false true
              (IO (open_elementary_stream Sample.three_units)
                  (tswrite_fresh (Some 1%nat)) PrintingUse.initial))
    as (Hr & _ & Hout & _).
  - vm_compute. discriminate.
  - split; [exact Hr|]. rewrite Hout. vm_compute. reflexivity.
Defined.

(* ===================================================================== *)
(** * Properties of tsfilter *)
(* ===================================================================== *)

(** ** Conversions between int and unsigned *)

Lemma to_unsigned_small (z : Z) : 0 <= z < 2 ^ 32 -> Tsfilter.to_unsigned z = z.
Proof. intros H. unfold Tsfilter.to_unsigned. now apply Z.mod_small. Qed.

Lemma to_unsigned_to_int (z : Z) :
  Tsfilter.to_unsigned (Tsfilter.to_int z) = Tsfilter.to_unsigned z.
Proof.
  unfold Tsfilter.to_unsigned, Tsfilter.to_int.
  rewrite (Z.mod_eq (z + 2 ^ 31) (2 ^ 32)) by lia.
  replace (z + 2 ^ 31 - 2 ^ 32 * ((z + 2 ^ 31) / 2 ^ 32) - 2 ^ 31)
    with (z + (- ((z + 2 ^ 31) / 2 ^ 32)) * 2 ^ 32) by lia.
  apply Z_mod_plus_full.
Qed.

Lemma to_unsigned_idem (z : Z) :
  Tsfilter.to_unsigned (Tsfilter.to_unsigned z) = Tsfilter.to_unsigned z.
Proof. unfold Tsfilter.to_unsigned. apply Zmod_mod. Qed.

(** ** The arguments *)

Lemma arg_at_Some (args : list string) (i : Z) :
  0 <= i < Z.of_nat (length args) -> exists a, Tsfilter.arg_at args i = Some a.
Proof.
  intros H. unfold Tsfilter.arg_at.
  destruct (Z.leb_spec 0 i) as [_|]; [|lia].
  destruct (lookup_lt_is_Some_2 args (Z.to_nat i)) as [a Ha]; [lia|]. eauto.
Qed.

Lemma arg_at_bound (args : list string) (i : Z) (a : string) :
  Tsfilter.arg_at args i = Some a -> 0 <= i < Z.of_nat (length args).
Proof.
  unfold Tsfilter.arg_at. destruct (Z.leb_spec 0 i) as [H0|]; [|discriminate].
  intros H. apply lookup_lt_Some in H. lia.
Qed.

Lemma arg_at_elem (args : list string) (i : Z) (a : string) :
  Tsfilter.arg_at args i = Some a -> 1 <= i -> a ∈ tail args.
Proof.
  unfold Tsfilter.arg_at. destruct (Z.leb_spec 0 i) as [H0|]; [|discriminate].
  intros H Hi. destruct args as [|a0 rest]; [discriminate|]. cbn [tail].
  replace (Z.to_nat i) with (S (Z.to_nat (i - 1))) in H by lia.
  cbn in H. eapply list_elem_of_lookup_2, H.
Qed.

Lemma arg_at_last (args : list string) (i : Z) (a : string) :
  Tsfilter.arg_at args i = Some a -> Tsfilter.arg_at args (i + 1) = None ->
  last args = Some a.
Proof.
  intros Ha Hn. pose proof (arg_at_bound _ _ _ Ha) as Hi.
  unfold Tsfilter.arg_at in *.
  destruct (Z.leb_spec 0 i) as [_|]; [|lia].
  destruct (Z.leb_spec 0 (i + 1)) as [_|]; [|lia].
  apply lookup_ge_None in Hn.
  rewrite last_lookup. rewrite <- Ha. f_equal. lia.
Qed.

Lemma streq_eq (a b : string) : Es2ts.streq a b = true -> a = b.
Proof. unfold Es2ts.streq. apply String.eqb_eq. Qed.

(** ** The list of PIDs *)

Lemma ensure_first_well_formed :
  Tsfilter.well_formed (Tsfilter.ensurePidList 1024 Tsfilter.globals_init).
Proof. vm_compute. repeat split; discriminate. Qed.

(** Growing the list when it is full, storing at [pidListUsed] and
    counting the cell: the store is inside the list and the list stays
    well formed. *)
Lemma store_next_pid (g : Tsfilter.pid_list) (x : Z) :
  Tsfilter.well_formed g -> Tsfilter.pidListUsed g < 2 ^ 31 ->
  let g1 := if Tsfilter.pidListAlloc g <=? Tsfilter.pidListUsed g then
              Tsfilter.ensurePidList
                (Tsfilter.to_int (Tsfilter.to_unsigned (Tsfilter.pidListAlloc g + 1024))) g
            else g in
  exists g2,
    Tsfilter.store g1 (Tsfilter.pidListUsed g1) x = Some g2
    /\ Tsfilter.well_formed (Tsfilter.used_incremented g2)
    /\ Tsfilter.pidListUsed (Tsfilter.used_incremented g2) = Tsfilter.pidListUsed g + 1
    /\ take (Z.to_nat (Tsfilter.pidListUsed g + 1))
         (Tsfilter.pidList (Tsfilter.used_incremented g2))
       = take (Z.to_nat (Tsfilter.pidListUsed g)) (Tsfilter.pidList g) ++ [x].
Proof.
  intros (Hlen & Hused & Halloc) Hsmall. cbv zeta.
  set (g1 := if Tsfilter.pidListAlloc g <=? Tsfilter.pidListUsed g then _ else g).
  assert (H1 : Tsfilter.pidListUsed g1 = Tsfilter.pidListUsed g
               /\ Tsfilter.pidListAlloc g1 = Z.of_nat (length (Tsfilter.pidList g1))
               /\ Tsfilter.pidListUsed g < Tsfilter.pidListAlloc g1
               /\ 1024 <= Tsfilter.pidListAlloc g1 <= Tsfilter.pidListUsed g + 1024
               /\ take (Z.to_nat (Tsfilter.pidListUsed g)) (Tsfilter.pidList g1)
                  = take (Z.to_nat (Tsfilter.pidListUsed g)) (Tsfilter.pidList g)).
  { unfold g1. destruct (Z.leb_spec (Tsfilter.pidListAlloc g) (Tsfilter.pidListUsed g)).
    - unfold Tsfilter.ensurePidList. rewrite to_unsigned_to_int, to_unsigned_idem.
      rewrite to_unsigned_small by lia.
      destruct (Z.ltb_spec (Tsfilter.pidListAlloc g + 1024) (Tsfilter.pidListAlloc g));
        [lia|].
      cbn [Tsfilter.pidListUsed Tsfilter.pidListAlloc Tsfilter.pidList].
      unfold Tsfilter.realloc. rewrite length_resize.
      repeat split; try lia.
      rewrite take_resize_le by lia. now rewrite resize_le by lia.
    - repeat split; try lia. }
  destruct H1 as (Hu1 & Hl1 & Hlt & Hle & Htake).
  unfold Tsfilter.store. rewrite Hu1.
  destruct (Z.leb_spec 0 (Tsfilter.pidListUsed g)) as [_|]; [|lia].
  destruct (Z.ltb_spec (Tsfilter.pidListUsed g)
              (Z.of_nat (length (Tsfilter.pidList g1)))) as [Hin|]; [|lia].
  cbn [andb]. eexists. split; [reflexivity|].
  unfold Tsfilter.used_incremented, Tsfilter.well_formed.
  cbn [Tsfilter.pidListUsed Tsfilter.pidListAlloc Tsfilter.pidList].
  rewrite to_unsigned_small by lia. rewrite length_insert.
  repeat split; try lia.
  replace (Z.to_nat (Tsfilter.pidListUsed g + 1))
    with (S (Z.to_nat (Tsfilter.pidListUsed g))) by lia.
  destruct (lookup_lt_is_Some_2 (Tsfilter.pidList g1)
              (Z.to_nat (Tsfilter.pidListUsed g))) as [y Hy]; [lia|].
  erewrite take_S_r; [|rewrite list_lookup_insert_eq by lia; reflexivity].
  rewrite take_insert_ge by lia. now rewrite Htake.
Qed.

(** ** The switch loop *)

Lemma listed_snoc (g g' : Tsfilter.pid_list) (x pid : Z) :
  Tsfilter.pidListUsed g' = Tsfilter.pidListUsed g + 1 ->
  take (Z.to_nat (Tsfilter.pidListUsed g + 1)) (Tsfilter.pidList g')
  = take (Z.to_nat (Tsfilter.pidListUsed g)) (Tsfilter.pidList g) ++ [x] ->
  Tsfilter.listed g' pid
  = Tsfilter.listed g pid || (Tsfilter.to_unsigned x =? Tsfilter.to_unsigned pid).
Proof.
  intros Hu Ht. unfold Tsfilter.listed. rewrite Hu, Ht, existsb_app. cbn.
  now rewrite orb_false_r.
Qed.


Lemma switches_post_here (env : Tsfilter.Env) (args : list string)
    (v : Tsfilter.locals) (g : Tsfilter.pid_list) (p : pstate) :
  Tsfilter.well_formed g -> Tsfilter.switches_post env args g p (Tsfilter.Next (v, g)) p.
Proof.
  intros Hwf. cbn. split; [reflexivity|]. split; [exact Hwf|]. split; [lia|].
  split; [lia|]. intros pid Hp. now left.
Qed.

Lemma switches_result (env : Tsfilter.Env) (fuel : nat) :
  forall (args : list string) (ii : Z) (v : Tsfilter.locals) (g : Tsfilter.pid_list)
         (p : pstate) (r : Tsfilter.step (Tsfilter.locals * Tsfilter.pid_list))
         (p' : pstate),
  Z.of_nat (length args) < 2 ^ 31 ->
  1 <= ii -> Z.of_nat (length args) - ii <= Z.of_nat fuel ->
  Tsfilter.well_formed g -> Tsfilter.pidListUsed g <= ii - 1 ->
  Tsfilter.switches env fuel args ii v g p = (r, p') ->
  Tsfilter.switches_post env args g p r p'.
Proof.
  induction fuel as [|fuel IH]; intros args ii v g p r p' Hargs Hii Hfuel Hwf Hused H.
  - cbn in H. destruct (Z.ltb_spec ii (Z.of_nat (length args))); [lia|].
    cbn in H. injection H as <- <-. now apply switches_post_here.
  - cbn [Tsfilter.switches] in H. cbv zeta in H.
    destruct (Z.ltb_spec ii (Z.of_nat (length args))) as [Hlt|Hge]; cbn [negb] in H.
    2:{ injection H as <- <-. now apply switches_post_here. }
    destruct (arg_at_Some args ii) as [a Ha]; [lia|]. rewrite Ha in H.
    assert (Hin : a ∈ tail args) by (eapply arg_at_elem; eauto).
    destruct (Z.leb_spec (Z.of_nat (length args)) ii) as [|_]; [lia|].
    assert (IH1 : forall v1, Tsfilter.switches env fuel args (ii + 1) v1 g p = (r, p') ->
                  Tsfilter.switches_post env args g p r p').
    { intros v1 E. apply (IH _ _ _ _ _ _ _ Hargs) in E; [exact E|lia|lia|assumption|lia]. }
    assert (IH2 : forall v1, Tsfilter.switches env fuel args (ii + 1 + 1) v1 g p = (r, p') ->
                  Tsfilter.switches_post env args g p r p').
    { intros v1 E. apply (IH _ _ _ _ _ _ _ Hargs) in E; [exact E|lia|lia|assumption|lia]. }
    destruct (Es2ts.is_switch a) eqn:Hsw.
    + destruct (Es2ts.streq "--help" a || Es2ts.streq "-h" a || Es2ts.streq "-help" a).
      { injection H as <- <-. left. auto. }
      destruct (Es2ts.streq "-verbose" a || Es2ts.streq "-v" a); [eauto|].
      destruct (Es2ts.streq "-m" a || Es2ts.streq "-max" a) eqn:Hm.
      { destruct (Tsfilter.arg_at args (ii + 1)) as [b|] eqn:Hb; [eauto|].
        injection H as <- <-. split; [reflexivity|]. exists a.
        split; [eapply arg_at_last; eauto|].
        apply orb_true_iff in Hm as [Hm|Hm]; apply streq_eq in Hm; auto. }
      destruct (Es2ts.streq "-!" a || Es2ts.streq "-invert" a); [eauto|].
      destruct (Es2ts.streq "-i" a || Es2ts.streq "-input" a); [eauto|].
      destruct (Es2ts.streq "-o" a || Es2ts.streq "-output" a); [eauto|].
      injection H as <- <-. right. split; [reflexivity|]. exists a. auto.
    + destruct (Tsfilter.strtoul env a) as [value whole] eqn:Hval.
      assert (Hsmall : Tsfilter.pidListUsed g < 2 ^ 31). { lia. }
      destruct (store_next_pid g (Tsfilter.to_int value) Hwf Hsmall)
        as (g2 & Hst & Hwf2 & Hu2 & Htake).
      rewrite Hst in H.
      destruct whole; cbn [negb] in H.
      2:{ injection H as <- <-. right. split; [reflexivity|]. exists a. auto. }
      apply (IH _ _ _ _ _ _ _ Hargs) in H; [|lia|lia|assumption|lia].
      destruct r as [[v' g']| | |]; unfold Tsfilter.switches_post in H |- *; try assumption.
      destruct H as (-> & Hwf' & Hle & Hex & Hl).
      split; [reflexivity|]. split; [assumption|]. split; [lia|].
      split; [intros _; exists a; rewrite Hval; auto|].
      intros pid Hp. destruct (Hl pid Hp) as [Hp'|Hp']; [|now right].
      rewrite (listed_snoc g _ _ pid Hu2 Htake) in Hp'.
      apply orb_true_iff in Hp' as [Hp'|Hp']; [now left|]. right.
      exists a. rewrite Hval. cbn [fst snd]. repeat split; try assumption.
      apply Z.eqb_eq in Hp'. now rewrite to_unsigned_to_int in Hp'.
Qed.

(** ** The filter loop *)

(** However the loop ends, it has made no call on the reader or the
    writer but [tswrite_write], what it has handed to the sink are packets
    it has read, unchanged and in the order read, each one a packet that
    splits, and it returns only for a write error, with 2. *)
Lemma filter_loop_result (env : Tsfilter.Env) (v : Tsfilter.locals)
    (g : Tsfilter.pid_list) (reads : list (Z * list Z)) :
  forall (pkt_num : Z) (p p' : Tsfilter.process) (r : Tsfilter.step unit),
  Tsfilter.filter_loop env v g reads pkt_num p = (r, p') ->
  Tsfilter.trace p' = Tsfilter.trace p
  /\ (exists kept,
        Tsfilter.sent p' = Tsfilter.sent p ++ kept
        /\ kept `sublist_of` Tsfilter.before_EOF reads
        /\ Forall (fun pkt => is_Some (Tsfilter.split_TS_packet env pkt)) kept)
  /\ match r with
     | Tsfilter.Next _ => True
     | Tsfilter.Return code =>
       code = 2
       /\ exists err pkt pid pr,
            Tsfilter.tswrite_write env (Tsfilter.sent p') pkt pid = err /\ err <> 0
            /\ Tsfilter.printing p'
               = fprint_err "### Error writing output - %d \n" [AInt err] pr
     | _ => False
     end.
Proof.
  assert (Hnone : forall p : Tsfilter.process,
            exists kept : list (list Z),
              Tsfilter.sent p = Tsfilter.sent p ++ kept
              /\ (forall l, kept `sublist_of` l)
              /\ Forall (fun pkt => is_Some (Tsfilter.split_TS_packet env pkt)) kept).
  { intros p. exists []. rewrite app_nil_r. split; [reflexivity|].
    split; [intros l; apply sublist_nil_l | constructor]. }
  assert (Hstop : forall (p : Tsfilter.process) l,
            exists kept : list (list Z),
              Tsfilter.sent p = Tsfilter.sent p ++ kept
              /\ kept `sublist_of` l
              /\ Forall (fun pkt => is_Some (Tsfilter.split_TS_packet env pkt)) kept).
  { intros p l. destruct (Hnone p) as (kept & H1 & H2 & H3). exists kept. auto. }
  clear Hnone.
  induction reads as [|[err pkt] rest IH]; intros pkt_num p p' r H.
  - cbn in H. injection H as <- <-. split; [reflexivity|]. split; [apply Hstop | exact I].
  - cbn [Tsfilter.filter_loop Tsfilter.before_EOF] in H |- *.
    destruct (err =? Tsfilter.EOF).
    { injection H as <- <-. split; [reflexivity|]. split; [apply Hstop | exact I]. }
    destruct (Tsfilter.split_TS_packet env pkt) as [pid|] eqn:Hsplit.
    2:{ apply IH in H as (Htr & (kept & Hs & Hsub & Hall) & Hr). cbn in Htr, Hs.
        split; [exact Htr|]. split; [|exact Hr].
        exists kept. split; [exact Hs|]. split; [now apply sublist_cons | exact Hall]. }
    cbv zeta in H.
    destruct (negb (Tsfilter.max_pkts v =? Tsfilter.NO_MAX)
              && (Tsfilter.max_pkts v <? pkt_num) && negb (Tsfilter.invert v)).
    { injection H as <- <-. split; [reflexivity|]. split; [apply Hstop | exact I]. }
    match type of H with (if ?c then _ else _) = _ => destruct c end.
    + destruct (Z.eqb_spec (Tsfilter.tswrite_write env (Tsfilter.sent p) pkt pid) 0)
        as [E|E]; cbn [negb] in H.
      * apply IH in H as (Htr & (kept & Hs & Hsub & Hall) & Hr). cbn in Htr, Hs.
        split; [exact Htr|]. split; [|exact Hr].
        exists (pkt :: kept). split; [now rewrite Hs, <- app_assoc|].
        split; [now apply sublist_skip|]. constructor; [eauto | exact Hall].
      * injection H as <- <-. split; [reflexivity|]. cbn. split; [apply Hstop|].
        split; [reflexivity|]. eauto 8.
    + apply IH in H as (Htr & (kept & Hs & Hsub & Hall) & Hr).
      split; [exact Htr|]. split; [|exact Hr].
      exists kept. split; [exact Hs|]. split; [now apply sublist_cons | exact Hall].
Qed.





(** X15: with [-max n] and without [-invert] the loop hands no more than
    [n + 1] packets to the sink: it counts the packets that split, from
    0, and stops at the first one whose count is above [n]. *)
Theorem tsfilter_max_bounds_output (env : Tsfilter.Env) (v : Tsfilter.locals)
    (g : Tsfilter.pid_list) (reads : list (Z * list Z)) (pkt_num : Z)
    (p : Tsfilter.process) :
  Tsfilter.invert v = false -> Tsfilter.max_pkts v <> Tsfilter.NO_MAX ->
  0 <= pkt_num -> pkt_num + Z.of_nat (length reads) < 2 ^ 32 ->
  Z.of_nat (length (Tsfilter.sent (Tsfilter.filter_loop env v g reads pkt_num p).2))
  <= Z.of_nat (length (Tsfilter.sent p)) + Z.max 0 (Tsfilter.max_pkts v + 1 - pkt_num).
Proof.
  intros Hinv Hmax. revert pkt_num p.
  induction reads as [|[err pkt] rest IH]; intros pkt_num p H0 Hwrap.
  - cbn. lia.
  - cbn [Tsfilter.filter_loop]. cbn [length] in Hwrap.
    destruct (err =? Tsfilter.EOF); [cbn; lia|].
    destruct (Tsfilter.split_TS_packet env pkt) as [pid|].
    2:{ etrans; [apply IH; lia|]. cbn. lia. }
    cbv zeta. rewrite Hinv. cbn [negb]. rewrite andb_true_r.
    destruct (Z.eqb_spec (Tsfilter.max_pkts v) Tsfilter.NO_MAX) as [|_];
      [contradiction|]. cbn [negb andb].
    destruct (Z.ltb_spec (Tsfilter.max_pkts v) pkt_num) as [Hpast|Hin]; [cbn; lia|].
    rewrite (to_unsigned_small (pkt_num + 1)) by lia.
    destruct (Tsfilter.listed g pid).
    + destruct (negb (Tsfilter.tswrite_write env (Tsfilter.sent p) pkt pid =? 0));
        [cbn; lia|].
      etrans; [apply IH; lia|]. cbn [Tsfilter.send Tsfilter.sent].
      rewrite length_app. cbn [length]. lia.
    + etrans; [apply IH; lia|]. lia.
Qed.

(** X16: with [-max n] and [-invert], once the count of packets is above
    [n], every packet that splits is handed to the sink, whatever its
    PID, as long as no write fails. *)
Theorem tsfilter_inverted_copies_after_max (env : Tsfilter.Env) (v : Tsfilter.locals)
    (g : Tsfilter.pid_list) (reads : list (Z * list Z)) (pkt_num : Z)
    (p : Tsfilter.process) :
  Tsfilter.invert v = true -> Tsfilter.max_pkts v <> Tsfilter.NO_MAX ->
  0 <= Tsfilter.max_pkts v < pkt_num -> pkt_num + Z.of_nat (length reads) < 2 ^ 32 ->
  (forall s pkt pid, Tsfilter.tswrite_write env s pkt pid = 0) ->
  Tsfilter.sent (Tsfilter.filter_loop env v g reads pkt_num p).2
  = Tsfilter.sent p
    ++ List.filter (fun pkt => bool_decide (is_Some (Tsfilter.split_TS_packet env pkt)))
         (Tsfilter.before_EOF reads).
Proof.
  intros Hinv Hmax. revert pkt_num p.
  induction reads as [|[err pkt] rest IH]; intros pkt_num p Hpast Hwrap Hwrite.
  - cbn. now rewrite app_nil_r.
  - cbn [Tsfilter.filter_loop Tsfilter.before_EOF]. cbn [length] in Hwrap.
    destruct (err =? Tsfilter.EOF); [cbn; now rewrite app_nil_r|].
    cbn [List.filter].
    destruct (Tsfilter.split_TS_packet env pkt) as [pid|].
    2:{ rewrite bool_decide_eq_false_2 by (intros [? [=]]).
        rewrite IH by (assumption || lia). reflexivity. }
    rewrite bool_decide_eq_true_2 by eauto.
    cbv zeta. rewrite Hinv. cbn [negb]. rewrite andb_false_r.
    destruct (Z.eqb_spec (Tsfilter.max_pkts v) Tsfilter.NO_MAX) as [|_];
      [contradiction|]. cbn [negb andb].
    destruct (Z.ltb_spec (Tsfilter.max_pkts v) pkt_num) as [_|]; [|lia].
    cbn [negb]. rewrite Hwrite. change (negb (0 =? 0)) with false. cbv iota.
    rewrite (to_unsigned_small (pkt_num + 1)) by lia.
    rewrite IH by (assumption || lia). cbn [Tsfilter.send Tsfilter.sent].
    now rewrite <- app_assoc.
Qed.

(** ** A run of main *)

Lemma switches_of_main (env : Tsfilter.Env) (args : list string) :
  Z.of_nat (length args) < 2 ^ 31 -> 2 <= Z.of_nat (length args) ->
  exists r pr,
    Tsfilter.switches env (length args) args 1 Tsfilter.locals_init
      (Tsfilter.ensurePidList 1024 Tsfilter.globals_init) (Tsfilter.printing Tsfilter.boot)
    = (r, pr)
    /\ Tsfilter.switches_post env args (Tsfilter.ensurePidList 1024 Tsfilter.globals_init)
         (Tsfilter.printing Tsfilter.boot) r pr.
Proof.
  intros Hargs Hlen.
  destruct (Tsfilter.switches env (length args) args 1 Tsfilter.locals_init
              (Tsfilter.ensurePidList 1024 Tsfilter.globals_init)
              (Tsfilter.printing Tsfilter.boot)) as [r pr] eqn:E.
  exists r, pr. split; [reflexivity|].
  apply (switches_result env (length args) args 1 _ _ _ r pr Hargs) in E;
    [exact E | lia | lia | apply ensure_first_well_formed | vm_compute; discriminate].
Qed.

(** The block after the switches: its exit code, its calls and what it
    sends. *)
Lemma filter_result (env : Tsfilter.Env) (v : Tsfilter.locals) (g : Tsfilter.pid_list)
    (pr : pstate) (r : Tsfilter.step unit) (p' : Tsfilter.process) :
  Tsfilter.filter env v g (Tsfilter.Process pr [] []) = (r, p') ->
  (r = Tsfilter.Return 1 /\ Tsfilter.sent p' = []
   /\ Tsfilter.open_file_for_TS_read env (Tsfilter.input_file v) = None
   /\ Tsfilter.trace p' = [Tsfilter.EvOpenRead (Tsfilter.input_file v)]
   /\ Tsfilter.printing p'
      = fprint_err "## tsfilter: Unable to open stdin for reading TS.\n" [] pr)
  \/ (r = Tsfilter.Return 1 /\ Tsfilter.sent p' = []
      /\ Tsfilter.tswrite_open env (Tsfilter.target_of v) = false
      /\ Tsfilter.trace p' = [Tsfilter.EvOpenRead (Tsfilter.input_file v);
                              Tsfilter.EvOpenWrite (Tsfilter.target_of v)]
      /\ Tsfilter.printing p'
         = fprint_err "## tsfilter: Unable to open stdout for writing TS. \n" [] pr)
  \/ exists reads r0 p0,
       Tsfilter.open_file_for_TS_read env (Tsfilter.input_file v) = Some reads
       /\ Tsfilter.tswrite_open env (Tsfilter.target_of v) = true
       /\ Tsfilter.filter_loop env v g reads 0
            (Tsfilter.Process pr [Tsfilter.EvOpenRead (Tsfilter.input_file v);
                                  Tsfilter.EvOpenWrite (Tsfilter.target_of v)] [])
          = (r0, p0)
       /\ Tsfilter.sent p' = Tsfilter.sent p0
       /\ Tsfilter.printing p' = Tsfilter.printing p0
       /\ ((r0 = Tsfilter.Next tt /\ r = Tsfilter.Return 0
            /\ Tsfilter.trace p'
               = [Tsfilter.EvOpenRead (Tsfilter.input_file v);
                  Tsfilter.EvOpenWrite (Tsfilter.target_of v);
                  Tsfilter.EvCloseWrite; Tsfilter.EvCloseRead])
           \/ (r0 = Tsfilter.Return 2 /\ r = Tsfilter.Return 2
               /\ Tsfilter.trace p'
                  = [Tsfilter.EvOpenRead (Tsfilter.input_file v);
                     Tsfilter.EvOpenWrite (Tsfilter.target_of v)])).
Proof.
  unfold Tsfilter.filter. cbv zeta.
  destruct (Tsfilter.open_file_for_TS_read env (Tsfilter.input_file v)) as [reads|].
  2:{ intros [= <- <-]. left. cbn. auto. }
  destruct (Tsfilter.tswrite_open env (Tsfilter.target_of v)); cbn [negb].
  2:{ intros [= <- <-]. right. left. cbn. auto. }
  cbn [Tsfilter.log Tsfilter.printing Tsfilter.trace Tsfilter.sent app].
  destruct (Tsfilter.filter_loop env v g reads 0 _) as [r0 p0] eqn:E.
  pose proof (filter_loop_result _ _ _ _ _ _ _ _ E) as (Htr & _ & Hr).
  cbn in Htr.
  intros H. right. right. exists reads, r0, p0.
  split; [reflexivity|]. split; [reflexivity|]. split; [exact E|].
  destruct r0 as [[]|code| |]; try contradiction.
  - injection H as <- <-. cbn. rewrite Htr. split; [reflexivity|].
    split; [reflexivity|]. left. auto.
  - destruct Hr as [-> _]. injection H as <- <-. split; [reflexivity|].
    split; [reflexivity|]. right. auto.
Qed.

(** X17: the list of PIDs [main] filters by holds nothing but what the
    command line gives: the list is never written outside its allocation,
    however many PIDs there are, and a PID is in the list the switch loop
    leaves only if it is the number [strtoul] read, to the end, from an
    argument that is not a switch. *)
Theorem tsfilter_lists_only_given_pids (env : Tsfilter.Env) (args : list string)
    (p p' : pstate) (v : Tsfilter.locals) (g : Tsfilter.pid_list) :
  Z.of_nat (length args) < 2 ^ 31 ->
  Tsfilter.switches env (length args) args 1 Tsfilter.locals_init
    (Tsfilter.ensurePidList 1024 Tsfilter.globals_init) p
  = (Tsfilter.Next (v, g), p') ->
  Tsfilter.well_formed g
  /\ forall pid, Tsfilter.listed g pid = true ->
       exists a, a ∈ tail args /\ Es2ts.is_switch a = false
                 /\ (Tsfilter.strtoul env a).2 = true
                 /\ Tsfilter.to_unsigned (Tsfilter.strtoul env a).1
                    = Tsfilter.to_unsigned pid.
Proof.
  intros Hargs E.
  apply (switches_result env (length args) args 1 _ _ _ _ _ Hargs) in E;
    [| lia | lia | apply ensure_first_well_formed | vm_compute; discriminate].
  destruct E as (_ & Hwf & _ & _ & Hl). split; [exact Hwf|].
  intros pid Hp. destruct (Hl pid Hp) as [H|H]; [|exact H].
  vm_compute in H. discriminate H.
Qed.


(** X19: the exit code of [main] is 0, 1 or 2.  With 0 either nothing was
    opened (the usage text) or the reader and the writer were opened and
    then closed, the writer first.  With 1 nothing was handed to the sink
    and nothing closed.  With 2 a write failed: the error is printed with
    its code and the run ends with reader and writer left open. *)
Theorem tsfilter_exit_codes (env : Tsfilter.Env) (args : list string) (code : Z) :
  Z.of_nat (length args) < 2 ^ 31 ->
  (Tsfilter.main env args).1 = Some code ->
  let p := (Tsfilter.main env args).2 in
  (code = 0
   /\ (Tsfilter.trace p = []
       \/ exists name target,
            Tsfilter.trace p = [Tsfilter.EvOpenRead name; Tsfilter.EvOpenWrite target;
                                Tsfilter.EvCloseWrite; Tsfilter.EvCloseRead]))
  \/ (code = 1 /\ Tsfilter.sent p = []
      /\ (Tsfilter.trace p = []
          \/ (exists name, Tsfilter.trace p = [Tsfilter.EvOpenRead name])
          \/ exists name target,
               Tsfilter.trace p = [Tsfilter.EvOpenRead name; Tsfilter.EvOpenWrite target]))
  \/ (code = 2
      /\ (exists name target,
            Tsfilter.trace p = [Tsfilter.EvOpenRead name; Tsfilter.EvOpenWrite target])
      /\ exists err pr,
           err <> 0
           /\ Tsfilter.printing p
              = fprint_err "### Error writing output - %d \n" [AInt err] pr).
Proof.
  intros Hargs. cbv zeta. unfold Tsfilter.main.
  destruct (Z.ltb_spec (Z.of_nat (length args)) 2) as [|Hlen].
  { intros [= <-]. left. cbn. auto. }
  cbv zeta. destruct (switches_of_main env args Hargs Hlen) as (r & pr & -> & Hpost).
  destruct r as [[v g]|c| |]; cbn in Hpost.
  - destruct (Tsfilter.pidListUsed g =? 0).
    { intros [= <-]. right. left. cbn. auto. }
    destruct (Tsfilter.filter env v g _) as [r p'] eqn:E.
    pose proof (filter_result _ _ _ _ _ _ E)
      as [(-> & Hs & _ & Htr & _) | [(-> & Hs & _ & Htr & _)
          | (reads & r0 & p0 & _ & _ & Hloop & Hs & Hp & Hr)]].
    + intros [= <-]. right. left. cbn [snd]. rewrite Hs, Htr. eauto 8.
    + intros [= <-]. right. left. cbn [snd]. rewrite Hs, Htr. eauto 8.
    + destruct Hr as [(_ & -> & Htr) | (-> & -> & Htr)]; intros [= <-]; cbn [snd].
      * left. rewrite Htr. eauto 8.
      * right. right. rewrite Htr, Hp.
        apply filter_loop_result in Hloop
          as (_ & _ & _ & err & pkt & pid & pr0 & _ & Hne & Hpr).
        eauto 10.
  - intros [= <-]. cbn [snd Tsfilter.trace Tsfilter.sent].
    destruct Hpost as [[-> _] | [-> _]]; [left | right; left]; auto.
  - discriminate.
  - discriminate.
Qed.

(** X20: [main] opens its input only when the command line gives a PID:
    in a run that opened anything some argument is not a switch and was
    read by [strtoul] to its end. *)
Theorem tsfilter_opens_only_with_a_pid (env : Tsfilter.Env) (args : list string) :
  Z.of_nat (length args) < 2 ^ 31 ->
  Tsfilter.trace (Tsfilter.main env args).2 <> [] ->
  exists a, a ∈ tail args /\ Es2ts.is_switch a = false
            /\ (Tsfilter.strtoul env a).2 = true.
Proof.
  intros Hargs. unfold Tsfilter.main.
  destruct (Z.ltb_spec (Z.of_nat (length args)) 2) as [|Hlen]; [now cbn|].
  cbv zeta. destruct (switches_of_main env args Hargs Hlen) as (r & pr & -> & Hpost).
  destruct r as [[v g]|c| |]; cbn in Hpost; try (now cbn).
  destruct (Z.eqb_spec (Tsfilter.pidListUsed g) 0) as [|Hne]; [now cbn|].
  intros _. destruct Hpost as (_ & Hwf & Hle & Hex & _). apply Hex.
  destruct Hwf as (_ & Hu & _). change (Tsfilter.pidListUsed
    (Tsfilter.ensurePidList 1024 Tsfilter.globals_init)) with 0 in *. lia.
Qed.

(** ** What tsfilter prints *)


Ltac other_message :=
  let H := fresh in
  intros H; unfold Tsfilter.missing_argument_messages in H;
  repeat (apply elem_of_cons in H as [H|H]; [discriminate H|]);
  now apply elem_of_nil in H.

Lemma no_missing_fprint_err (format : string) (args : list arg) (p : pstate) :
  format ∉ Tsfilter.missing_argument_messages ->
  Tsfilter.no_missing_argument p -> Tsfilter.no_missing_argument (fprint_err format args p).
Proof.
  intros Hf [Ht Hl]. destruct p as [t c]. cbn in Ht, Hl. subst t.
  split; [reflexivity|]. cbn. apply Forall_app. split; [exact Hl|].
  now repeat constructor.
Qed.

Lemma no_missing_fprint_msg (format : string) (args : list arg) (p : pstate) :
  format ∉ Tsfilter.missing_argument_messages ->
  Tsfilter.no_missing_argument p -> Tsfilter.no_missing_argument (fprint_msg format args p).
Proof.
  intros Hf [Ht Hl]. destruct p as [t c]. cbn in Ht, Hl. subst t.
  split; [reflexivity|]. cbn. apply Forall_app. split; [exact Hl|].
  now repeat constructor.
Qed.

Lemma no_missing_print_msg (text : string) (p : pstate) :
  text ∉ Tsfilter.missing_argument_messages ->
  Tsfilter.no_missing_argument p -> Tsfilter.no_missing_argument (print_msg text p).
Proof.
  intros Hf [Ht Hl]. destruct p as [t c]. cbn in Ht, Hl. subst t.
  split; [reflexivity|]. cbn. apply Forall_app. split; [exact Hl|].
  now repeat constructor.
Qed.

Lemma no_missing_print_usage (p : pstate) :
  Tsfilter.no_missing_argument p -> Tsfilter.no_missing_argument (Tsfilter.print_usage p).
Proof.
  intros H. unfold Tsfilter.print_usage.
  apply no_missing_print_msg; [other_message|].
  apply no_missing_fprint_msg; [other_message|].
  apply no_missing_print_msg; [other_message | exact H].
Qed.

Lemma no_missing_filter_loop (env : Tsfilter.Env) (v : Tsfilter.locals)
    (g : Tsfilter.pid_list) (reads : list (Z * list Z)) :
  forall (pkt_num : Z) (p : Tsfilter.process),
  Tsfilter.no_missing_argument (Tsfilter.printing p) ->
  Tsfilter.no_missing_argument
    (Tsfilter.printing (Tsfilter.filter_loop env v g reads pkt_num p).2).
Proof.
  induction reads as [|[err pkt] rest IH]; intros pkt_num p Hp; [exact Hp|].
  cbn [Tsfilter.filter_loop].
  destruct (err =? Tsfilter.EOF); [exact Hp|].
  destruct (Tsfilter.split_TS_packet env pkt) as [pid|].
  2:{ apply IH. cbn. apply no_missing_fprint_err; [other_message | exact Hp]. }
  cbv zeta.
  destruct (negb (Tsfilter.max_pkts v =? Tsfilter.NO_MAX)
            && (Tsfilter.max_pkts v <? pkt_num) && negb (Tsfilter.invert v));
    [exact Hp|].
  match goal with |- context [if ?c then _ else _] => destruct c end.
  - destruct (negb (Tsfilter.tswrite_write env (Tsfilter.sent p) pkt pid =? 0)).
    + cbn. apply no_missing_fprint_err; [other_message | exact Hp].
    + apply IH. exact Hp.
  - apply IH. exact Hp.
Qed.

(** X21: the three tests [argn <= ii] of the switch loop never hold: in no
    run does [main] print that -max, -input or -output requires an
    argument (a final -i or -o is taken with a null file name, which
    stands for standard input or output). *)
Theorem tsfilter_missing_argument_checks_dead (env : Tsfilter.Env)
    (args : list string) :
  Z.of_nat (length args) < 2 ^ 31 ->
  Forall (fun l => l_format l ∉ Tsfilter.missing_argument_messages)
    (shown (Tsfilter.printing (Tsfilter.main env args).2)).
Proof.
  intros Hargs.
  assert (Hboot : Tsfilter.no_missing_argument (Tsfilter.printing Tsfilter.boot)).
  { split; [reflexivity | constructor]. }
  enough (H : Tsfilter.no_missing_argument (Tsfilter.printing (Tsfilter.main env args).2))
    by apply H.
  unfold Tsfilter.main.
  destruct (Z.ltb_spec (Z.of_nat (length args)) 2) as [|Hlen].
  { exact (no_missing_print_usage _ Hboot). }
  cbv zeta. destruct (switches_of_main env args Hargs Hlen) as (r & pr & -> & Hpost).
  assert (Hpr : Tsfilter.no_missing_argument pr).
  { destruct r as [[v g]|c| |]; unfold Tsfilter.switches_post in Hpost.
    - destruct Hpost as [-> _]. exact Hboot.
    - destruct Hpost as [[_ ->] | (_ & a & _ & [-> | ->])].
      + exact (no_missing_print_usage _ Hboot).
      + apply no_missing_fprint_err; [other_message | exact Hboot].
      + apply no_missing_fprint_err; [other_message | exact Hboot].
    - destruct Hpost as [-> _]. exact Hboot.
    - contradiction. }
  destruct r as [[v g]|c| |]; try exact Hpr.
  destruct (Tsfilter.pidListUsed g =? 0).
  { cbn. apply no_missing_fprint_err; [other_message | exact Hpr]. }
  destruct (Tsfilter.filter env v g _) as [r p'] eqn:E.
  assert (Hp' : Tsfilter.no_missing_argument (Tsfilter.printing p')).
  { apply filter_result in E
      as [(_ & _ & _ & _ & ->) | [(_ & _ & _ & _ & ->)
          | (reads & r0 & p0 & _ & _ & Hloop & _ & -> & _)]].
    - apply no_missing_fprint_err; [other_message | exact Hpr].
    - apply no_missing_fprint_err; [other_message | exact Hpr].
    - replace p0 with (r0, p0).2 by reflexivity. rewrite <- Hloop.
      apply no_missing_filter_loop. exact Hpr. }
  destruct r; exact Hp'.
Qed.

(** ** tsfilter at concrete runs *)


Lemma tsfilter_max_bounds_output_witness :
  Z.of_nat (length (Tsfilter.sent
    (Tsfilter.filter_loop Tsfilter.sample_env
       (Tsfilter.set_max_pkts 1 Tsfilter.locals_init)
       (Tsfilter.PidList [1; 2; 3] 3 3) Tsfilter.sample_reads 0 Tsfilter.boot).2))
  <= 0 + Z.max 0 (1 + 1 - 0).
Proof.
  apply (tsfilter_max_bounds_output Tsfilter.sample_env
           (Tsfilter.set_max_pkts 1 Tsfilter.locals_init)
           (Tsfilter.PidList [1; 2; 3] 3 3) Tsfilter.sample_reads 0 Tsfilter.boot).
  - reflexivity.
  - vm_compute. discriminate.
  - lia.
  - vm_compute. reflexivity.
Defined.

Lemma tsfilter_inverted_copies_after_max_witness :
  Tsfilter.sent
    (Tsfilter.filter_loop Tsfilter.sample_env
       (Tsfilter.set_invert (Tsfilter.set_max_pkts 1 Tsfilter.locals_init))
       (Tsfilter.PidList [1; 2; 3] 3 3) Tsfilter.sample_reads 2 Tsfilter.boot).2
  = map snd Tsfilter.sample_reads.
Proof.
  rewrite (tsfilter_inverted_copies_after_max Tsfilter.sample_env
             (Tsfilter.set_invert (Tsfilter.set_max_pkts 1 Tsfilter.locals_init))
             (Tsfilter.PidList [1; 2; 3] 3 3) Tsfilter.sample_reads 2 Tsfilter.boot).
  - reflexivity.
  - reflexivity.
  - vm_compute. discriminate.
  - cbn. lia.
  - vm_compute. reflexivity.
  - intros s pkt pid. reflexivity.
Defined.

Lemma tsfilter_lists_only_given_pids_witness :
  Tsfilter.listed
    (Tsfilter.PidList (<[0%nat := 7]> (Tsfilter.realloc [] 1024)) 1024 1) 7 = true
  /\ exists a, a ∈ ["-i"; "in.ts"; "7"]%string /\ Es2ts.is_switch a = false
               /\ Tsfilter.to_unsigned (Tsfilter.strtoul Tsfilter.sample_env a).1
                  = Tsfilter.to_unsigned 7.
Proof.
  assert (H : Tsfilter.listed
                (Tsfilter.PidList (<[0%nat := 7]> (Tsfilter.realloc [] 1024)) 1024 1) 7
              = true) by (vm_compute; reflexivity).
  split; [exact H|].
  destruct (tsfilter_lists_only_given_pids Tsfilter.sample_env
              ["tsfilter"; "-i"; "in.ts"; "7"]%string
              (Tsfilter.printing Tsfilter.boot) (Tsfilter.printing Tsfilter.boot)
              (Tsfilter.set_input_file (Some "in.ts"%string) Tsfilter.locals_init)
              (Tsfilter.PidList (<[0%nat := 7]> (Tsfilter.realloc [] 1024)) 1024 1))
    as [_ Hl].
  - vm_compute. reflexivity.
  - vm_compute. reflexivity.
  - destruct (Hl 7 H) as (a & Ha & Hsw & _ & Hv). exists a. auto.
Defined.


Lemma tsfilter_exit_codes_witness :
  (Tsfilter.main Tsfilter.sample_env ["tsfilter"; "-i"; "in.ts"; "1"]%string).1 = Some 0
  /\ exists name target,
       Tsfilter.trace
         (Tsfilter.main Tsfilter.sample_env ["tsfilter"; "-i"; "in.ts"; "1"]%string).2
       = [Tsfilter.EvOpenRead name; Tsfilter.EvOpenWrite target;
          Tsfilter.EvCloseWrite; Tsfilter.EvCloseRead].
Proof.
  assert (H : (Tsfilter.main Tsfilter.sample_env
                 ["tsfilter"; "-i"; "in.ts"; "1"]%string).1 = Some 0)
    by (vm_compute; reflexivity).
  split; [exact H|].
  destruct (tsfilter_exit_codes Tsfilter.sample_env
              ["tsfilter"; "-i"; "in.ts"; "1"]%string 0)
    as [(_ & [Hnil | Htr]) | [(Hc & _) | (Hc & _)]];
    [vm_compute; reflexivity | exact H | | exact Htr | discriminate Hc | discriminate Hc].
  vm_compute in Hnil. discriminate Hnil.
Defined.

Lemma tsfilter_opens_only_with_a_pid_witness :
  exists a, a ∈ ["-i"; "in.ts"; "1"]%string /\ Es2ts.is_switch a = false
            /\ (Tsfilter.strtoul Tsfilter.sample_env a).2 = true.
Proof.
  apply (tsfilter_opens_only_with_a_pid Tsfilter.sample_env
           ["tsfilter"; "-i"; "in.ts"; "1"]%string).
  - vm_compute. reflexivity.
  - vm_compute. discriminate.
Defined.

Lemma tsfilter_missing_argument_checks_dead_witness :
  (Tsfilter.main Tsfilter.sample_env ["tsfilter"; "1"; "-i"]%string).1 = Some 0
  /\ Forall (fun l => l_format l ∉ Tsfilter.missing_argument_messages)
       (shown (Tsfilter.printing
                 (Tsfilter.main Tsfilter.sample_env ["tsfilter"; "1"; "-i"]%string).2)).
Proof.
  split; [vm_compute; reflexivity|].
  apply (tsfilter_missing_argument_checks_dead Tsfilter.sample_env
           ["tsfilter"; "1"; "-i"]%string).
  vm_compute. reflexivity.
Defined.
